(** * datar: grouping-aware verbs over a tabular engine

    A shallow embedding of the grouping substrate of datar (the rank family,
    the join family, tibble reconstruction, the group-preserving copy and the
    column-name matchers) together with the properties its specification
    states about them.

    Layout: the Python runtime conventions (exceptions, truthiness), the
    table engine primitives the verbs call, then one module per source file,
    then the properties. *)

From Stdlib Require Import ZArith QArith Qabs Lia Lqa.
From stdpp Require Import base option list gmap strings pretty.

(** ** Column labels, cells and exceptions *)

(** A column label: [Iterable[Union[int, str]]] in the matchers' signatures. *)
Inductive label :=
| LStr (s : string)
| LInt (z : Z).

Coercion LStr : string >-> label.

#[global] Instance label_eq_dec : EqDecision label.
Proof. solve_decision. Defined.

#[global] Instance label_countable : Countable label.
Proof.
  refine (inj_countable'
            (fun l => match l with LStr s => inl s | LInt z => inr z end)
            (fun x => match x with inl s => LStr s | inr z => LInt z end) _).
  by intros [].
Defined.

(** Python truthiness of a scalar label: [""] and [0] are falsy. *)
Definition label_truthy (l : label) : bool :=
  match l with
  | LStr s => negb (bool_decide (s = ""%string))
  | LInt z => negb (bool_decide (z = 0%Z))
  end.

(** A table cell: an integer, or missing ([None] is NaN / NA). *)
Abbreviation cell := (option Z).

(** The exceptions the modelled code can raise. *)
Inductive exn :=
| ColumnNotExistingError (missing : gset label)
| InvalidGroupVars (missing : list label)
| KeyError (missing : list label)
| MergeError (msg : string)
| TypeError (msg : string)
| ValueError (msg : string).

(** A Python call either returns or raises. *)
Inductive result (A : Type) :=
| Ok (a : A)
| Raise (e : exn).

Arguments Ok {A} a.
Arguments Raise {A} e.

#[global] Instance result_ret : MRet result := fun _ a => Ok a.
#[global] Instance result_bind : MBind result := fun _ _ f m =>
  match m with
  | Ok a => f a
  | Raise e => Raise e
  end.
#[global] Instance result_fmap : FMap result := fun _ _ f m =>
  match m with
  | Ok a => Ok (f a)
  | Raise e => Raise e
  end.

Definition raises {A} (m : result A) : bool :=
  match m with
  | Ok _ => false
  | Raise _ => true
  end.

(** [mapM] over a list, stopping at the first exception. *)
Fixpoint result_mapM {A B} (f : A -> result B) (l : list A) : result (list B) :=
  match l with
  | [] => Ok []
  | a :: l' => b ← f a; bs ← result_mapM f l'; Ok (b :: bs)
  end.

(** ** The table engine *)

Module Pandas.

(** A frame: ordered column labels and rows of cells, one cell per column. *)
Record DataFrame := mkDataFrame {
  columns : list label;
  rows : list (list cell);
}.

(** Every row has one cell per column. *)
Definition well_formed (df : DataFrame) : Prop :=
  Forall (fun r => length r = length (columns df)) (rows df).

(** [df.shape[0]] *)
Definition nrows (df : DataFrame) : nat := length (rows df).

(** Position of the first column carrying [name]. *)
Fixpoint col_index (name : label) (cols : list label) : option nat :=
  match cols with
  | [] => None
  | c :: cols' =>
      if decide (c = name) then Some 0 else S <$> col_index name cols'
  end.

(** The cell of [row] under the column [name]; missing when there is none. *)
Definition cell_at (cols : list label) (name : label) (row : list cell) : cell :=
  default None (col_index name cols ≫= fun i => row !! i).

(** The key of a row: its cells under the key columns. *)
Definition key_cells (cols names : list label) (row : list cell) : list cell :=
  map (fun n => cell_at cols n row) names.

(** The positions at which [k] occurs in [keys], ascending. Missing values
    compare equal to each other, as they do in [merge] and [groupby]. *)
Definition positions (k : list cell) (keys : list (list cell)) : list nat :=
  (filter (fun p => p.2 = k) (imap pair keys)).*1.

(** The columns of [cols] selected by a mask. *)
Fixpoint select {A} (mask : list bool) (l : list A) : list A :=
  match mask, l with
  | b :: mask', a :: l' => if b then a :: select mask' l' else select mask' l'
  | _, _ => []
  end.

(** [df.drop(columns=names)]: every column carrying one of the labels goes;
    a label carried by no column is a [KeyError]. *)
Definition drop_columns (df : DataFrame) (names : list label) : result DataFrame :=
  match filter (fun n => n ∉ columns df) names with
  | [] =>
      let mask := map (fun c => bool_decide (c ∉ names)) (columns df) in
      Ok (mkDataFrame (select mask (columns df)) (map (select mask) (rows df)))
  | missing => Raise (KeyError missing)
  end.

(** The frame without the listed columns, with no check. *)
Definition without_columns (df : DataFrame) (names : list label) : DataFrame :=
  let mask := map (fun c => bool_decide (c ∉ names)) (columns df) in
  mkDataFrame (select mask (columns df)) (map (select mask) (rows df)).

(** [df.rename(columns=mapping)]: labels absent from the mapping stay. *)
Definition rename_columns (df : DataFrame) (mapping : list (label * label)) : DataFrame :=
  mkDataFrame
    (map (fun c => match list_find (fun p => p.1 = c) mapping with
                   | Some (_, (_, new)) => new
                   | None => c
                   end)
         (columns df))
    (rows df).

(** [df.drop_duplicates(subset)]: the first row of every key stays. *)
Fixpoint drop_duplicate_rows (cols subset : list label) (seen : list (list cell))
    (rs : list (list cell)) : list (list cell) :=
  match rs with
  | [] => []
  | r :: rs' =>
      let k := key_cells cols subset r in
      if decide (k ∈ seen) then drop_duplicate_rows cols subset seen rs'
      else r :: drop_duplicate_rows cols subset (k :: seen) rs'
  end.

Definition drop_duplicates (df : DataFrame) (subset : list label) : result DataFrame :=
  match filter (fun n => n ∉ columns df) subset with
  | [] => Ok (mkDataFrame (columns df)
                (drop_duplicate_rows (columns df) subset [] (rows df)))
  | missing => Raise (KeyError missing)
  end.

(** [df.loc[mask, names]]: the rows the mask keeps, and for every requested
    label the columns that carry it. *)
Definition loc (df : DataFrame) (mask : list bool) (names : list label)
  : result DataFrame :=
  match filter (fun n => n ∉ columns df) names with
  | [] =>
      let pick (r : list cell) : list cell :=
        mjoin (map (fun n => select (map (fun c => bool_decide (c = n)) (columns df)) r)
                   names) in
      Ok (mkDataFrame
            (mjoin (map (fun n => filter (fun c => c = n) (columns df)) names))
            (map pick (select mask (rows df))))
  | missing => Raise (KeyError missing)
  end.

(** *** [pandas.merge] *)

Inductive how := Inner | Left | Right | Outer.

(** The value of the indicator column of an output row. *)
Inductive indicator := Both | LeftOnly | RightOnly.

#[global] Instance indicator_eq_dec : EqDecision indicator.
Proof. solve_decision. Defined.

(** A pair of join indexers: for every output row the position of the left
    row and of the right row it is made of, none where that side has no
    row ([-1] in pandas). *)
Abbreviation indexers := (list (option nat * option nat)).

(** [how="left"]: the left rows in order, each with its matching right rows
    in order, or alone when it has none. *)
Definition left_block (rkeys : list (list cell)) (i : nat) (k : list cell)
  : indexers :=
  match positions k rkeys with
  | [] => [(Some i, None)]
  | js => map (fun j => (Some i, Some j)) js
  end.

Definition left_indexers (lkeys rkeys : list (list cell)) : indexers :=
  mjoin (imap (left_block rkeys) lkeys).

(** [how="right"]: the right rows in order, each with its matching left rows
    in order, or alone when it has none. *)
Definition right_block (lkeys : list (list cell)) (j : nat) (k : list cell)
  : indexers :=
  match positions k lkeys with
  | [] => [(None, Some j)]
  | ps => map (fun i => (Some i, Some j)) ps
  end.

Definition right_indexers (lkeys rkeys : list (list cell)) : indexers :=
  mjoin (imap (right_block lkeys) rkeys).

Definition indicator_of (p : option nat * option nat) : indicator :=
  match p with
  | (Some _, Some _) => Both
  | (Some _, None) => LeftOnly
  | (None, _) => RightOnly
  end.

(** [f"{x}{suffix}"] *)
Definition label_append (l : label) (suffix : string) : label :=
  match l with
  | LStr s => LStr (s +:+ suffix)
  | LInt z => LStr (pretty z +:+ suffix)
  end.

(** The labels of the two sides of a merge: a label found on both sides
    takes the side's suffix; with both suffixes empty that is refused. *)
Definition items_overlap_with_suffix (lcols rcols : list label)
    (suffixes : string * string) : result (list label * list label) :=
  let to_rename := filter (fun c => c ∈ rcols) lcols in
  match to_rename with
  | [] => Ok (lcols, rcols)
  | _ =>
      if decide (suffixes.1 = ""%string /\ suffixes.2 = ""%string)
      then Raise (ValueError "columns overlap but no suffix specified")
      else
        let renamer (sfx : string) (c : label) :=
          if decide (c ∈ to_rename) then label_append c sfx else c in
        Ok (map (renamer suffixes.1) lcols, map (renamer suffixes.2) rcols)
  end.

(** One side of an output row: the cells of the indexed row, or, where the
    side has no row, missing cells except under the key columns shared by
    name, which take the other side's key. *)
Definition take_side (df : DataFrame) (i : option nat)
    (shared : list label) (other_cols : list label) (other_row : list cell)
  : list cell :=
  match i with
  | Some i => default (map (fun _ => None) (columns df)) (rows df !! i)
  | None =>
      map (fun c => if decide (c ∈ shared) then cell_at other_cols c other_row
                    else None) (columns df)
  end.

(** The row an indexer points at, empty when it points at none. *)
Definition row_at (df : DataFrame) (i : option nat) : list cell :=
  default [] (i ≫= fun i => rows df !! i).

Section merge.

(** The indexers of an inner and of an outer join. Their row order differs
    between releases of the engine; nothing below depends on it. *)
Context (inner_outer_indexers : how -> list (list cell) -> list (list cell) -> indexers).

Definition join_indexers (h : how) (lkeys rkeys : list (list cell)) : indexers :=
  match h with
  | Left => left_indexers lkeys rkeys
  | Right => right_indexers lkeys rkeys
  | _ => inner_outer_indexers h lkeys rkeys
  end.

(** [pd.merge(left, right, left_on=, right_on=, how=, suffixes=)], together
    with the indicator of every output row. [on=keys] is
    [left_on=right_on=keys]. A key column carrying the same label on both
    sides appears once: the right one is dropped (the left one when the left
    frame has no row). *)
Definition merge_indicated (left right : DataFrame) (left_on right_on : list label)
    (h : how) (suffixes : string * string)
  : result (DataFrame * list indicator) :=
  match left_on, filter (fun k => k ∉ columns left) left_on,
        filter (fun k => k ∉ columns right) right_on with
  | [], _, _ => Raise (MergeError "No columns to perform merge on")
  | _, k :: ks, _ => Raise (KeyError (k :: ks))
  | _, _, k :: ks => Raise (KeyError (k :: ks))
  | _, [], [] =>
      let lkeys := map (key_cells (columns left) left_on) (rows left) in
      let rkeys := map (key_cells (columns right) right_on) (rows right) in
      let idx := join_indexers h lkeys rkeys in
      let shared := (filter (fun p => p.1 = p.2) (zip left_on right_on)).*1 in
      let left' := if decide (rows left = []) then without_columns left shared else left in
      let right' := if decide (rows left = []) then right else without_columns right shared in
      '(lnames, rnames) ← items_overlap_with_suffix (columns left') (columns right') suffixes;
      Ok (mkDataFrame (lnames ++ rnames)
            (map (fun p =>
                    take_side left' p.1 shared (columns right) (row_at right p.2)
                    ++ take_side right' p.2 [] [] [])
                 idx),
          map indicator_of idx)
  end.

Definition merge (left right : DataFrame) (left_on right_on : list label)
    (h : how) (suffixes : string * string) : result DataFrame :=
  fst <$> merge_indicated left right left_on right_on h suffixes.

(** [pd.merge(left, right, how="cross", suffixes=)]: every left row with
    every right row, left rows outermost. *)
Definition merge_cross (left right : DataFrame) (suffixes : string * string)
  : result DataFrame :=
  '(lnames, rnames) ← items_overlap_with_suffix (columns left) (columns right) suffixes;
  Ok (mkDataFrame (lnames ++ rnames)
        (l ← rows left; r ← rows right; [l ++ r])).

(** [pd.merge] given neither [on] nor [left_on]/[right_on]: the key is the
    labels the two frames share. *)
Definition common_columns (left right : DataFrame) : result (list label) :=
  match filter (fun c => c ∈ columns right) (columns left) with
  | [] => Raise (MergeError "No common columns to perform merge on")
  | common => Ok common
  end.

End merge.

(** *** Float columns

    Numeric columns hold IEEE doubles. They are modelled by exact rationals
    extended with NaN (also the missing value) and the two infinities;
    rounding is not modelled. *)
Inductive float64 :=
| F_nan
| F_inf (negative : bool)
| F_fin (q : Q).

Definition Qltb (a b : Q) : bool :=
  match (a ?= b)%Q with Lt => true | _ => false end.

Definition isnull (a : float64) : bool :=
  match a with F_nan => true | _ => false end.

Definition of_Z (z : Z) : float64 := F_fin (inject_Z z).
Definition of_nat (n : nat) : float64 := of_Z (Z.of_nat n).

(** A float column read from data: a missing entry is NaN. *)
Definition of_data (v : option Q) : float64 :=
  match v with Some q => F_fin q | None => F_nan end.

Definition fsub (a b : float64) : float64 :=
  match a, b with
  | F_nan, _ | _, F_nan => F_nan
  | F_fin x, F_fin y => F_fin (x - y)
  | F_inf s, F_fin _ => F_inf s
  | F_fin _, F_inf s => F_inf (negb s)
  | F_inf s, F_inf t => if Bool.eqb s t then F_nan else F_inf s
  end.

Definition fdiv (a b : float64) : float64 :=
  match a, b with
  | F_nan, _ | _, F_nan => F_nan
  | F_fin x, F_fin y =>
      if Qeq_bool y 0 then
        if Qeq_bool x 0 then F_nan else F_inf (Qltb x 0)
      else F_fin (x / y)
  | F_inf s, F_fin y => F_inf (xorb s (Qltb y 0))
  | F_fin _, F_inf _ => F_fin 0
  | F_inf _, F_inf _ => F_nan
  end.

(** [a < b]; false as soon as one side is NaN. *)
Definition fltb (a b : float64) : bool :=
  match a, b with
  | F_fin x, F_fin y => Qltb x y
  | F_inf true, F_fin _ | F_inf true, F_inf false => true
  | F_fin _, F_inf false => true
  | _, _ => false
  end.

(** [a <= b]; false as soon as one side is NaN. *)
Definition fleb (a b : float64) : bool :=
  match a, b with
  | F_nan, _ | _, F_nan => false
  | _, _ => negb (fltb b a)
  end.

(** [Series.min()] and [Series.max()] with the default [skipna=True]: the
    extremum of the entries that are not NaN, NaN when there is none. *)
Definition fmin (a b : float64) : float64 :=
  match a, b with
  | F_nan, _ => b
  | _, F_nan => a
  | _, _ => if fltb b a then b else a
  end.

Definition fmax (a b : float64) : float64 :=
  match a, b with
  | F_nan, _ => b
  | _, F_nan => a
  | _, _ => if fltb a b then b else a
  end.

Definition series_min (s : list float64) : float64 := foldr fmin F_nan s.
Definition series_max (s : list float64) : float64 := foldr fmax F_nan s.

(** Equality of float columns up to the representation of a rational. *)
Definition feq (a b : float64) : Prop :=
  match a, b with
  | F_nan, F_nan => True
  | F_inf s, F_inf t => s = t
  | F_fin x, F_fin y => (x == y)%Q
  | _, _ => False
  end.

(** Canonical representative, for printing computed columns. *)
Definition fcanon (a : float64) : float64 :=
  match a with F_fin q => F_fin (Qred q) | _ => a end.

(** A rank [r] out of [c] ranked entries, as a fraction. *)
Definition pct_of (c r : nat) : Q :=
  (inject_Z (Z.of_nat r) / inject_Z (Z.of_nat c))%Q.

(** A float column holding the given integers. *)
Definition of_ints (l : list Z) : list (option Q) :=
  map (fun z => Some (inject_Z z)) l.

(** *** [Series.rank] *)

Inductive rank_method := RankMin | RankFirst.
Inductive na_option := NaOptKeep | NaOptTop | NaOptBottom.

(** The order ranks follow: missing values sort first under ["top"] and last
    otherwise. *)
Definition key_lt (na : na_option) (a b : option Q) : bool :=
  match a, b with
  | Some x, Some y => Qltb x y
  | None, Some _ => match na with NaOptTop => true | _ => false end
  | Some _, None => match na with NaOptTop => false | _ => true end
  | None, None => false
  end.

Definition key_eq (a b : option Q) : bool :=
  match a, b with
  | Some x, Some y => Qeq_bool x y
  | None, None => true
  | _, _ => false
  end.

(** The entries that receive a rank: under ["keep"] only the present ones. *)
Definition ranked (na : na_option) (data : list (option Q)) : list (option Q) :=
  match na with
  | NaOptKeep => filter (fun v => is_Some v) data
  | _ => data
  end.

Definition count_if {A} (p : A -> bool) (l : list A) : nat :=
  length (filter (fun a => p a = true) l).

(** The rank of the entry [v] found at position [i] of [data]: one more than
    the number of ranked entries before it in the order; ["first"] breaks ties
    by position. *)
Definition rank_at (method : rank_method) (na : na_option)
    (data : list (option Q)) (i : nat) (v : option Q) : nat :=
  let below := count_if (fun w => key_lt na w v) (ranked na data) in
  let ties :=
    match method with
    | RankMin => 0
    | RankFirst => count_if (fun w => key_eq w v) (take i data)
    end in
  S (below + ties).

(** [Series.rank(method=, pct=, na_option=)] *)
Definition rank (method : rank_method) (pct : bool) (na : na_option)
    (data : list (option Q)) : list float64 :=
  let total := length (ranked na data) in
  imap (fun i v =>
          match na, v with
          | NaOptKeep, None => F_nan
          | _, _ =>
              let r := of_nat (rank_at method na data i v) in
              if pct then fdiv r (of_nat total) else r
          end) data.

(** *** Grouped columns

    A grouped column pairs every row with the code of its group. *)
Abbreviation SeriesGroupBy A := (list (nat * A)%type).

Definition occurrences (c : nat) (codes : list nat) : nat :=
  length (filter (fun c' => c' = c) codes).

(** The rows of group [c], in row order. *)
Definition group_rows {A} (c : nat) (g : SeriesGroupBy A) : list A :=
  (filter (fun r => r.1 = c) g).*2.

(** The group codes in order of first appearance. *)
Definition group_codes {A} (g : SeriesGroupBy A) : list nat :=
  remove_dups g.*1.

(** [GroupBy.cumcount()]: the number of earlier rows of the same group. *)
Fixpoint cumcount_from (seen codes : list nat) : list nat :=
  match codes with
  | [] => []
  | c :: codes' => occurrences c seen :: cumcount_from (seen ++ [c]) codes'
  end.

Definition cumcount (codes : list nat) : list nat := cumcount_from [] codes.

(** A group-wise operation that keeps one output per row ([GroupBy.rank],
    [transform]): [f] runs on each group's rows, and every row receives the
    entry of its group's output at its place within the group. *)
Definition per_group {A B} (d : B) (f : list A -> list B)
    (g : SeriesGroupBy A) : list B :=
  zip_with (fun c k => nth k (f (group_rows c g)) d) g.*1 (cumcount g.*1).

(** [GroupBy.transform(f)] for an [f] that may raise: the first group on
    which [f] raises aborts the call. *)
Definition transform {A B} (d : B) (f : list A -> result (list B))
    (g : SeriesGroupBy A) : result (list B) :=
  _ ← result_mapM (fun c => f (group_rows c g)) (group_codes g);
  Ok (per_group d (fun grp => match f grp with Ok l => l | Raise _ => [] end) g).

(** *** [pandas.cut] with an integer number of bins *)

(** [numpy.linspace(start, stop, num + 1)] *)
Definition linspace (start stop : Q) (num : nat) : list Q :=
  map (fun i => (start + inject_Z (Z.of_nat i) * ((stop - start) / inject_Z (Z.of_nat num)))%Q)
      (seq 0 (S num)).

(** [edges.searchsorted(v, side="left")] on ascending edges. *)
Fixpoint searchsorted_left (edges : list Q) (v : Q) : nat :=
  match edges with
  | [] => 0
  | e :: edges' => if Qltb e v then S (searchsorted_left edges' v) else 0
  end.

Definition present (x : list (option Q)) : list Q := omap id x.

Definition Qmin_list (a : Q) (l : list Q) : Q :=
  foldr (fun b m => if Qltb b m then b else m) a l.
Definition Qmax_list (a : Q) (l : list Q) : Q :=
  foldr (fun b m => if Qltb m b then b else m) a l.

(** The bin edges [cut] derives from the range of the data: [bins]
    equal-width intervals from the minimum to the maximum, the lowest edge
    moved down by 0.1% of the range so that the minimum falls in the first
    bin; a single-valued range is first widened by 0.1% of the value. *)
Definition cut_edges (mn mx : Q) (bins : nat) : list Q :=
  if Qeq_bool mn mx then
    let pad (v : Q) : Q :=
      if Qeq_bool v 0 then (1 # 1000)%Q else ((1 # 1000) * Qabs v)%Q in
    linspace (mn - pad mn)%Q (mx + pad mx)%Q bins
  else
    match linspace mn mx bins with
    | [] => []
    | e0 :: es => (e0 - (mx - mn) * (1 # 1000))%Q :: es
    end.

(** [nanops.nanmin] and [nanops.nanmax]: the extrema of the present entries. *)
Definition nanmin (x : list (option Q)) : option Q :=
  match present x with
  | [] => None
  | v :: vs => Some (Qmin_list v vs)
  end.
Definition nanmax (x : list (option Q)) : option Q :=
  match present x with
  | [] => None
  | v :: vs => Some (Qmax_list v vs)
  end.

(** The code [labels=range(bins)] gives an entry: the place of the interval
    it falls in, missing when it falls outside every interval. *)
Definition cut_label (edges : list Q) (q : Q) : option Z :=
  let ids := searchsorted_left edges q in
  if decide (ids = 0 \/ ids = length edges) then None
  else Some (Z.of_nat ids - 1)%Z.

(** [pd.cut(x, bins, labels=range(bins))]: the code of the interval each
    entry falls in, missing for a missing entry. With no present entry the
    edges are all NaN, which is refused as duplicate edges unless there are
    only two of them. *)
Definition cut (x : list (option Q)) (bins : Z) : result (list (option Z)) :=
  if decide (bins < 1)%Z then Raise (ValueError "`bins` should be a positive integer.")
  else if decide (length x = 0) then Raise (ValueError "Cannot cut empty array")
  else
    match nanmin x, nanmax x with
    | Some mn, Some mx =>
        let edges := cut_edges mn mx (Z.to_nat bins) in
        Ok (map (fun v => v ≫= cut_label edges) x)
    | _, _ =>
        if decide (bins = 1)%Z then Ok (map (fun _ => None) x)
        else Raise (ValueError "Bin edges must be unique")
    end.

End Pandas.

(** ** Grouped tables (datar2.core.tibble) *)

Module Tibble.
Import Pandas.

(** Modelled from the spec: the Group Index of datar2.core.tibble, which is
    not among the sources. It is an ordered sequence of distinct group keys
    (tuples of grouping-column values), each with the positions of its
    rows. *)
Abbreviation GroupIndex := (list (list cell * list nat)).

(** Missing values sort last. *)
Definition cell_ltb (a b : cell) : bool :=
  match a, b with
  | Some x, Some y => bool_decide (x < y)%Z
  | Some _, None => true
  | None, _ => false
  end.

Fixpoint key_ltb (a b : list cell) : bool :=
  match a, b with
  | [], _ :: _ => true
  | x :: a', y :: b' =>
      if cell_ltb x y then true
      else if cell_ltb y x then false
      else key_ltb a' b'
  | _, [] => false
  end.

Fixpoint insert_key (k : list cell) (ks : list (list cell)) : list (list cell) :=
  match ks with
  | [] => [k]
  | k' :: ks' => if key_ltb k' k then k' :: insert_key k ks' else k :: ks
  end.

Definition sort_keys (ks : list (list cell)) : list (list cell) :=
  foldr insert_key [] ks.

(** Modelled from the spec: [build(table, group_vars)] partitions the row
    positions by the distinct key combinations, in first-occurrence order
    unless [sort] asks for lexicographic order; [dropna] leaves the rows
    whose key has a missing value out of every group. *)
Definition build (df : DataFrame) (gvars : list label) (sort dropna : bool)
  : GroupIndex :=
  let keys := map (key_cells (columns df) gvars) (rows df) in
  let kept := filter (fun k => dropna = true -> None ∉ k) keys in
  let distinct := remove_dups kept in
  let ordered := if sort then sort_keys distinct else distinct in
  map (fun k => (k, positions k keys)) ordered.

(** Modelled from the spec: a row-wise table has one singleton group per
    row, in row order. *)
Definition build_rowwise (df : DataFrame) : GroupIndex :=
  imap (fun i r => (@nil cell, [i])) (rows df).

(** The grouping a table carries. *)
Inductive grouping :=
| Plain
| Grouped (group_vars : list label) (drop sort dropna : bool) (index : GroupIndex)
| Rowwise (group_vars : list label) (index : GroupIndex).

Inductive grouping_kind := PLAIN | GROUPED | ROWWISE.

Record Tibble := mkTibble {
  frame : DataFrame;
  grouping_of : grouping;
}.

Definition kind_of (t : Tibble) : grouping_kind :=
  match grouping_of t with
  | Plain => PLAIN
  | Grouped _ _ _ _ _ => GROUPED
  | Rowwise _ _ => ROWWISE
  end.

Definition group_vars (t : Tibble) : list label :=
  match grouping_of t with
  | Plain => []
  | Grouped gvars _ _ _ _ => gvars
  | Rowwise gvars _ => gvars
  end.

(** What a verb receives: a pandas frame, or a tibble of any kind. *)
Inductive Table :=
| PyDataFrame (df : DataFrame)
| PyTibble (t : Tibble).

(** [DataFrame(x, copy=False)] *)
Definition to_frame (x : Table) : DataFrame :=
  match x with
  | PyDataFrame df => df
  | PyTibble t => frame t
  end.

(** The grouping of a table; a pandas frame has none. *)
Definition table_grouping (x : Table) : grouping :=
  match x with
  | PyDataFrame _ => Plain
  | PyTibble t => grouping_of t
  end.

(** [Tibble(out, copy=False)] *)
Definition as_tibble (df : DataFrame) : Tibble := mkTibble df Plain.

(** Modelled from the spec: [as_rowwise(table, group_vars)]; the variables
    are kept for display and propagation, the partition is one row per
    group. *)
Definition rowwise (t : Tibble) (gvars : list label) : result Tibble :=
  Ok (mkTibble (frame t) (Rowwise gvars (build_rowwise (frame t)))).

(** Modelled from the spec: [from_source(table, group_vars, sort, dropna)],
    which fails with [InvalidGroupVars] when a name is not a column. *)
Definition group_by (t : Tibble) (gvars : list label) (drop sort dropna : bool)
  : result Tibble :=
  match filter (fun g => g ∉ columns (frame t)) gvars with
  | [] =>
      Ok (mkTibble (frame t)
            (Grouped gvars drop sort dropna (build (frame t) gvars sort dropna)))
  | missing => Raise (InvalidGroupVars missing)
  end.

(** Modelled from the spec: [intersect(x, y)] of datar2.base, the elements
    of [x] found in [y], in the order of [x]. *)
Definition intersect (x y : list label) : list label :=
  filter (fun l => l ∈ y) x.

End Tibble.

(** ** datar/core/grouped.py: the group-by wrapper and its copy *)

Module Grouped.
Import Pandas.

(** Frames and group-by objects live in a store and are shared by
    reference: two wrappers may point at the same group-by object, and a
    group-by object points at the frame it groups. *)
Abbreviation loc := nat.

(** A pandas [DataFrameGroupBy]: the frame it was taken of, and how. *)
Record DataFrameGroupBy := mkGroupBy {
  obj : loc;
  grouper : list label;
  observed : bool;
  sort : bool;
}.

Record store := mkStore {
  frames : list DataFrame;
  groupbys : list DataFrameGroupBy;
}.

Definition alloc_frame (df : DataFrame) (h : store) : loc * store :=
  (length (frames h), mkStore (frames h ++ [df]) (groupbys h)).

Definition alloc_groupby (g : DataFrameGroupBy) (h : store) : loc * store :=
  (length (groupbys h), mkStore (frames h) (groupbys h ++ [g])).

(** A value held in [attrs]. *)
Inductive attr :=
| AGroupBy (g : loc)
| ANames (names : list label)
| AText (text : string).

Inductive wrapper_class := DatarGroupBy | DatarRowwise.

(** An instance of [DatarGroupBy] or of [DatarRowwise]: a frame (its data
    block, by reference) with an [attrs] dict. *)
Record wrapper := mkWrapper {
  cls : wrapper_class;
  data : loc;
  attrs : gmap string attr;
}.

(** The first argument of [from_groupby]. *)
Inductive grouped_arg :=
| OfGroupBy (g : loc)
| OfWrapper (w : wrapper).

Definition label_text (l : label) : string :=
  match l with
  | LStr s => s
  | LInt z => pretty z
  end.

(** [', '.join(names)] *)
Fixpoint join_names (names : list label) : string :=
  match names with
  | [] => ""
  | [n] => label_text n
  | n :: names' => label_text n +:+ ", " +:+ join_names names'
  end.

(** [grouper.ngroups]: the number of distinct keys without a missing value. *)
Definition ngroups (df : DataFrame) (by_ : list label) : nat :=
  length (remove_dups
            (filter (fun k => None ∉ k)
                    (map (key_cells (columns df) by_) (rows df)))).

Definition lookup_attr (w : wrapper) (key : string) : result attr :=
  match attrs w !! key with
  | Some a => Ok a
  | None => Raise (KeyError [LStr key])
  end.

(** [from_groupby] of [DatarGroupBy] and, through [super()], of
    [DatarRowwise] for a wrapper argument. [cls(frame)] wraps the frame's
    data without copying it. *)
Definition from_groupby (c : wrapper_class) (grouped : grouped_arg)
    (group_vars : option (list label)) (h : store) : result wrapper :=
  match grouped with
  | OfGroupBy g =>
      match groupbys h !! g ≫= fun gb => pair gb <$> frames h !! obj gb with
      | None => Raise (KeyError [])
      | Some (gb, df) =>
          let vars :=
            match c, group_vars with
            | _, Some (v :: vs) => v :: vs
            | DatarGroupBy, _ => grouper gb
            | DatarRowwise, _ => []
            end in
          let summary :=
            match c with
            | DatarGroupBy =>
                "Groups: " +:+ join_names vars
                  +:+ " (n=" +:+ pretty (ngroups df (grouper gb)) +:+ ")"
            | DatarRowwise =>
                "Rowwise: " +:+ join_names vars
                  +:+ " (n=" +:+ pretty (nrows df) +:+ ")"
            end in
          Ok (mkWrapper c (obj gb)
                (<["_grouped" := AGroupBy g]>
                   (<["_group_vars" := ANames vars]>
                      (<["_html_footer" := AText ("<p>" +:+ summary +:+ "</p>")]>
                         (<["_str_footer" := AText ("[" +:+ summary +:+ "]")]> ∅)))))
      end
  | OfWrapper w =>
      g ← lookup_attr w "_grouped";
      vars ← lookup_attr w "_group_vars";
      html ← lookup_attr w "_html_footer";
      str ← lookup_attr w "_str_footer";
      Ok (mkWrapper c (data w)
            (<["_grouped" := g]>
               (<["_group_vars" := vars]>
                  (<["_html_footer" := html]>
                     (<["_str_footer" := str]> ∅)))))
  end.

(** [DataFrame.copy(deep)] as the wrappers inherit it: a deep copy owns a
    fresh copy of the data, a shallow one shares it; [__finalize__] hands
    over the entries of [attrs] as they are. *)
Definition frame_copy (w : wrapper) (deep : bool) (h : store)
  : result (wrapper * store) :=
  if deep then
    match frames h !! data w with
    | Some df =>
        let '(l, h') := alloc_frame df h in
        Ok (mkWrapper (cls w) l (attrs w), h')
    | None => Raise (KeyError [])
    end
  else Ok (mkWrapper (cls w) (data w) (attrs w), h).

(** [DatarGroupBy.copy(self, deep=True)] *)
Definition copy (self : wrapper) (deep : bool) (h : store)
  : result (wrapper * store) :=
  if decide (attrs self !! "_grouepd"%string = None) then frame_copy self deep h
  else if negb deep then
    out ← from_groupby (cls self) (OfWrapper self) None h; Ok (out, h)
  else
    match attrs self !! "_grouped"%string, attrs self !! "_group_vars"%string with
    | Some (AGroupBy g), Some (ANames vars) =>
        match groupbys h !! g ≫= fun gb => pair gb <$> frames h !! obj gb with
        | Some (gb, df) =>
            let '(l, h) := alloc_frame df h in
            let '(g', h) :=
              alloc_groupby (mkGroupBy l (grouper gb) (observed gb) (sort gb)) h in
            out ← from_groupby (cls self) (OfGroupBy g') (Some vars) h;
            Ok (out, h)
        | None => Raise (KeyError [])
        end
    | _, _ => Raise (KeyError [LStr "_grouped"])
    end.

(** The group-by object a wrapper answers group queries with, and the frame
    that object looks at. *)
Definition group_index_of (w : wrapper) : option loc :=
  match attrs w !! "_grouped"%string with
  | Some (AGroupBy g) => Some g
  | _ => None
  end.

Definition indexed_frame (w : wrapper) (h : store) : option loc :=
  group_index_of w ≫= fun g => obj <$> groupbys h !! g.

End Grouped.

(** ** datar2/dplyr/join.py: the joins and tibble reconstruction *)

Module Join.
Import Pandas Tibble.

(** The [by] argument: [None], one label, a list of labels, or a dict from
    the labels of [x] to those of [y]. *)
Inductive by_arg :=
| ByNone
| ByScalar (l : label)
| ByList (l : list label)
| ByDict (d : list (label * label)).

(** [by is not None and not by] *)
Definition by_is_empty (by_ : by_arg) : bool :=
  match by_ with
  | ByNone => false
  | ByScalar l => negb (label_truthy l)
  | ByList l => bool_decide (l = [])
  | ByDict d => bool_decide (d = [])
  end.

(** Iterating [by]: the elements of a list, the characters of a string; an
    integer cannot be iterated. *)
Definition iterate (l : label) : result (list label) :=
  match l with
  | LStr s => Ok (map (fun a => LStr (String a EmptyString)) (String.list_ascii_of_string s))
  | LInt _ => Raise (TypeError "'int' object is not iterable")
  end.

(** [_reconstruct_tibble(orig, out)] *)
Definition _reconstruct_tibble (orig out : Table) : result Tibble :=
  let out :=
    match out with
    | PyDataFrame df => as_tibble df
    | PyTibble t => t
    end in
  match table_grouping orig with
  | Rowwise orig_vars _ =>
      let gvars := intersect orig_vars (columns (frame out)) in
      rowwise out gvars
  | Grouped orig_vars drop sort dropna _ =>
      let gvars := intersect orig_vars (columns (frame out)) in
      if decide (0 < length gvars) then group_by out gvars drop sort dropna
      else Ok out
  | Plain => Ok out
  end.

Section joins.

Context (inner_outer_indexers : how -> list (list cell) -> list (list cell) -> indexers).

(** [_join(x, y, how, by, copy, suffix, keep)]. [copy] only tells the engine
    whether it may share buffers. *)
Definition _join (x y : Table) (h : how) (by_ : by_arg) (copy : bool)
    (suffix : string * string) (keep : bool) : result Tibble :=
  let newx := to_frame x in
  let y := to_frame y in
  ret ←
    (if by_is_empty by_ then merge_cross newx y suffix
     else
       match by_ with
       | ByDict d =>
           let right_on := d.*2 in
           ret ← merge inner_outer_indexers newx y d.*1 right_on h suffix;
           if keep then Ok ret else drop_columns ret right_on
       | _ =>
           if keep then
             by_ ← match by_ with
                   | ByNone => Ok (intersect (columns newx) (columns y))
                   | ByScalar l => iterate l
                   | ByList l => Ok l
                   | ByDict d => Ok d.*1
                   end;
             let left_on := map (fun col => label_append col suffix.1) by_ in
             let right_on := map (fun col => label_append col suffix.2) by_ in
             let newx := rename_columns newx (zip by_ left_on) in
             let y := rename_columns y (zip by_ right_on) in
             merge inner_outer_indexers newx y left_on right_on h suffix
           else
             let by_ :=
               match by_ with
               | ByNone => intersect (columns newx) (columns y)
               | ByScalar l => [l]
               | ByList l => l
               | ByDict d => d.*1
               end in
             merge inner_outer_indexers newx y by_ by_ h suffix
       end);
  _reconstruct_tibble x (PyDataFrame ret).

(** What [_join] hands to [pd.merge] when [by] is not empty: the two frames
    (with the key columns renamed under [keep]) and the key columns of each. *)
Definition merge_operands (newx y : DataFrame) (by_ : by_arg)
    (suffix : string * string) (keep : bool)
  : result (DataFrame * DataFrame * list label * list label) :=
  match by_ with
  | ByDict d => Ok (newx, y, d.*1, d.*2)
  | _ =>
      if keep then
        by_ ← match by_ with
              | ByNone => Ok (intersect (columns newx) (columns y))
              | ByScalar l => iterate l
              | ByList l => Ok l
              | ByDict d => Ok d.*1
              end;
        let left_on := map (fun col => label_append col suffix.1) by_ in
        let right_on := map (fun col => label_append col suffix.2) by_ in
        Ok (rename_columns newx (zip by_ left_on),
            rename_columns y (zip by_ right_on), left_on, right_on)
      else
        let by_ :=
          match by_ with
          | ByNone => intersect (columns newx) (columns y)
          | ByScalar l => [l]
          | ByList l => l
          | ByDict d => d.*1
          end in
        Ok (newx, y, by_, by_)
  end.

(** [ret.drop(columns=right_on)], which only the dict form of [by] asks for,
    and only without [keep]. *)
Definition drops_right_keys (by_ : by_arg) (keep : bool) : bool :=
  match by_ with
  | ByDict _ => negb keep
  | _ => false
  end.

(** The default [suffix=("_x", "_y")]. *)
Definition default_suffix : string * string := ("_x"%string, "_y"%string).

Definition inner_join (x y : Table) (by_ : by_arg) (copy : bool)
    (suffix : string * string) (keep : bool) : result Tibble :=
  _join x y Inner by_ copy suffix keep.

Definition left_join (x y : Table) (by_ : by_arg) (copy : bool)
    (suffix : string * string) (keep : bool) : result Tibble :=
  _join x y Left by_ copy suffix keep.

Definition right_join (x y : Table) (by_ : by_arg) (copy : bool)
    (suffix : string * string) (keep : bool) : result Tibble :=
  _join x y Right by_ copy suffix keep.

Definition full_join (x y : Table) (by_ : by_arg) (copy : bool)
    (suffix : string * string) (keep : bool) : result Tibble :=
  _join x y Outer by_ copy suffix keep.

(** The keyword arguments [_merge_on(by)] hands to [pd.merge]. *)
Inductive merge_on :=
| OnNothing
| OnLeftRight (left_on right_on : list label)
| On (names : list label).

(** [_merge_on(by)] *)
Definition _merge_on (by_ : by_arg) : merge_on :=
  match by_ with
  | ByNone => OnNothing
  | ByDict d => OnLeftRight d.*1 d.*2
  | ByScalar l => On [l]
  | ByList l => On l
  end.

(** [pd.merge(left, right, how="left", indicator=name, **on)] with
    [suffixes=["", "_y"]]. Neither the indicator nor the two helper columns
    the engine adds for it may carry the label of an existing column. *)
Definition merge_left_on (left right : DataFrame) (indicator_name : string)
    (on : merge_on) : result (DataFrame * list indicator) :=
  if decide (LStr "_left_indicator" ∈ columns left ++ columns right
             \/ LStr "_right_indicator" ∈ columns left ++ columns right)
  then Raise (ValueError "Cannot use `indicator=True` option when data contains a column named _left_indicator or _right_indicator")
  else if decide (LStr indicator_name ∈ columns left ++ columns right)
  then Raise (ValueError "Cannot use name of an existing column for indicator column")
  else
    '(left_on, right_on) ←
      match on with
      | OnNothing => common ← common_columns left right; Ok (common, common)
      | OnLeftRight l r => Ok (l, r)
      | On names => Ok (names, names)
      end;
    merge_indicated inner_outer_indexers left right left_on right_on Left
      (""%string, "_y"%string).

(** [semi_join(x, y, by, copy)] *)
Definition semi_join (x y : Table) (by_ : by_arg) (copy : bool) : result Tibble :=
  let on := _merge_on by_ in
  let right_on :=
    match on with
    | OnLeftRight _ r => r
    | On names => names
    | OnNothing => columns (to_frame y)
    end in
  deduplicated ← drop_duplicates (to_frame y) right_on;
  '(ret, merged) ← merge_left_on (to_frame x) deduplicated "__merge__" on;
  ret ← loc ret (map (fun m => bool_decide (m = Both)) merged) (columns (to_frame x));
  _reconstruct_tibble x (PyDataFrame ret).

(** [anti_join(x, y, by, copy)] *)
Definition anti_join (x y : Table) (by_ : by_arg) (copy : bool) : result Tibble :=
  '(ret, merged) ← merge_left_on (to_frame x) (to_frame y) "_merge" (_merge_on by_);
  ret ← loc ret (map (fun m => bool_decide (m <> Both)) merged) (columns (to_frame x));
  _reconstruct_tibble x (PyDataFrame ret).

End joins.

End Join.

(** ** datar2/dplyr/_rank.py: the rank family *)

Module Rank.
Import Pandas.

(** The [na_last] argument: ["keep"], [True] or [False]. *)
Inductive na_last_arg :=
| NaKeep
| NaLast (b : bool).

(** ["keep" if na_last == "keep" else "top" if not na_last else "bottom"] *)
Definition na_option_of (na_last : na_last_arg) : na_option :=
  match na_last with
  | NaKeep => NaOptKeep
  | NaLast false => NaOptTop
  | NaLast true => NaOptBottom
  end.

(** An argument that is either one scalar or a sequence. *)
Inductive scalar_or_seq :=
| Scalar (v : option Q)
| Sequence (l : list (option Q)).

(** [[x] if is_scalar(x) else x] *)
Definition as_sequence (x : scalar_or_seq) : list (option Q) :=
  match x with
  | Scalar v => [v]
  | Sequence l => l
  end.

(** [range(a, b)] *)
Definition py_range (a b : Z) : list Z :=
  map (fun i => (a + Z.of_nat i)%Z) (seq 0 (Z.to_nat (b - a))).

(** [_rank(data, na_last, method, percent)] on a sequence or a Series. *)
Definition _rank (data : list (option Q)) (na_last : na_last_arg)
    (method : rank_method) (percent : bool) : list float64 :=
  rank method percent (na_option_of na_last) data.

(** [_rank] registered for [GroupBy]: the ranks are taken within each group. *)
Definition _rank_GroupBy (data : SeriesGroupBy (option Q)) (na_last : na_last_arg)
    (method : rank_method) (percent : bool) : list float64 :=
  per_group F_nan (rank method percent (na_option_of na_last)) data.

(** [_row_number(x)], the default. *)
Definition _row_number (x : list (option Q)) : list float64 :=
  _rank x NaKeep RankFirst false.

(** [_row_number] registered for [GroupBy]: [x.cumcount() + 1]. *)
Definition _row_number_GroupBy {A} (x : SeriesGroupBy A) : list Z :=
  map (fun k => (Z.of_nat k + 1)%Z) (cumcount x.*1).

(** [_row_number] registered for [TibbleGrouped]; [grouped] is the tibble's
    [_datar["grouped"]]. *)
Definition _row_number_TibbleGrouped {A} (grouped : SeriesGroupBy A) : list Z :=
  _row_number_GroupBy grouped.

(** [_row_number] registered for [NDFrame] (a frame or a Series):
    [Series(range(1, x.shape[0] + 1))]. *)
Definition _row_number_NDFrame (x : DataFrame) : list Z :=
  py_range 1 (Z.of_nat (nrows x) + 1).

(** [_ntile] registered for [np.ndarray]. *)
Definition _ntile_ndarray (x : list (option Q)) (n : Z) : result (list (option Z)) :=
  if decide (length x = 0) then Ok []
  else if forallb (fun v => bool_decide (v = None)) x
       then Ok (map (fun _ => None) x)
  else
    let n := Z.min n (Z.of_nat (length x)) in
    cut x n.

(** [_ntile(x, n)], the default. *)
Definition _ntile (x : scalar_or_seq) (n : Z) : result (list (option Z)) :=
  _ntile_ndarray (as_sequence x) n.

(** [_ntile] registered for generators and for [NDFrame]. *)
Definition _ntile_GeneratorType (x : list (option Q)) (n : Z) := _ntile_ndarray x n.
Definition _ntile_NDFrame (x : list (option Q)) (n : Z) := _ntile_ndarray x n.

(** [_ntile] registered for [GroupBy]. *)
Definition _ntile_GroupBy (x : SeriesGroupBy (option Q)) (n : Z)
  : result (list (option Z)) :=
  transform None
    (fun grup => cut grup (Z.min n (Z.of_nat (length grup)))) x.

(** [_percent_rank] registered for [NDFrame]. *)
Definition _percent_rank_NDFrame (x : list (option Q)) (na_last : na_last_arg)
  : list float64 :=
  let ranking := _rank x na_last RankMin true in
  let minrank := series_min ranking in
  let maxrank := series_max ranking in
  let ret := map (fun r => fdiv (fsub r minrank) (fsub maxrank minrank)) ranking in
  zip_with (fun r v => if isnull r then F_nan else v) ranking ret.

(** [_percent_rank(x, na_last="keep")], the default. *)
Definition _percent_rank (x : list (option Q)) (na_last : na_last_arg)
  : list float64 :=
  if decide (length x = 0) then map of_data x
  else _percent_rank_NDFrame x na_last.

(** [_percent_rank] registered for [GroupBy]. Inside the last [transform]
    the lambda subtracts whole-column series from a group's ranks; the
    operations align on the row index and [transform] keeps the group's rows,
    so row by row the result is [(r - mins) / (maxs - mins)]. *)
Definition _percent_rank_GroupBy (x : SeriesGroupBy (option Q))
    (na_last : na_last_arg) : list float64 :=
  let ranking : SeriesGroupBy float64 := zip x.*1 (_rank_GroupBy x na_last RankMin true) in
  let maxs := per_group F_nan (fun r => replicate (length r) (series_max r)) ranking in
  let mins := per_group F_nan (fun r => replicate (length r) (series_min r)) ranking in
  let ret :=
    zip_with (fun r mm => fdiv (fsub r mm.1) (fsub mm.2 mm.1))
             ranking.*2 (zip mins maxs) in
  zip_with (fun r v => if isnull r then F_nan else v) ranking.*2 ret.

(** [_cume_dist] registered for [NDFrame]. *)
Definition _cume_dist_NDFrame (x : list (option Q)) (na_last : na_last_arg)
  : list float64 :=
  let ranking := _rank x na_last RankMin false in
  let total := length x in
  let ret :=
    map (fun r => fdiv (of_nat (count_if (fun r' => fleb r' r) ranking))
                       (of_nat total)) ranking in
  zip_with (fun r v => if isnull r then F_nan else v) ranking ret.

(** [_cume_dist(x, na_last="keep")], the default. *)
Definition _cume_dist (x : scalar_or_seq) (na_last : na_last_arg) : list float64 :=
  let x := as_sequence x in
  if decide (length x = 0) then map of_data x
  else _cume_dist_NDFrame x na_last.

(** [_cume_dist] registered for [GroupBy]. [apply] runs the lambda on the
    ranks of each group, in the order of the group codes, and keeps one array
    per group; [explode] lays these arrays end to end, so the values come
    group after group rather than in row order. *)
Definition _cume_dist_GroupBy (x : SeriesGroupBy (option Q)) (na_last : na_last_arg)
  : list float64 :=
  let ranking : SeriesGroupBy float64 :=
    zip x.*1 (_rank_GroupBy x na_last RankMin false) in
  let codes := filter (fun c => c ∈ x.*1) (seq 0 (S (max_list x.*1))) in
  mjoin (map (fun c =>
                let ranks := group_rows c ranking in
                map (fun r =>
                       fdiv (if isnull r then F_nan
                             else of_nat (count_if (fun r' => fleb r' r) ranks))
                            (of_nat (length ranks)))
                    ranks)
             codes).

End Rank.

(** ** The rank family as the specification words it *)

Module RankSpec.
Import Pandas.

(** The min-method rank of a present value [q] within [x]: one more than the
    number of present values of [x] below it. *)
Definition min_rank (x : list (option Q)) (q : Q) : nat :=
  S (count_if (fun w => Qltb w q) (present x)).

Definition least (l : list nat) : option nat :=
  foldr (fun a m => Some (from_option (Nat.min a) a m)) None l.
Definition greatest (l : list nat) : option nat :=
  foldr (fun a m => Some (from_option (Nat.max a) a m)) None l.

(** [(rank - min_rank) / (max_rank - min_rank)] on the min-method ranks of
    the present values; a missing entry stays missing. *)
Definition percent_rank (x : list (option Q)) : list float64 :=
  let ranks := map (min_rank x) (present x) in
  map (fun v =>
         match v, least ranks, greatest ranks with
         | Some q, Some lo, Some hi =>
             fdiv (of_Z (Z.of_nat (min_rank x q) - Z.of_nat lo))
                  (of_Z (Z.of_nat hi - Z.of_nat lo))
         | _, _, _ => F_nan
         end) x.

(** The [j]-th edge of [K] equal-width intervals spanning [[mn, mx]]. *)
Definition interval_edge (mn mx : Q) (K j : nat) : Q :=
  (mn + inject_Z (Z.of_nat j) * ((mx - mn) / inject_Z (Z.of_nat K)))%Q.

(** [labels] places the entries of [x] in [K] equal-width intervals of the
    value range: a missing entry stays missing, a present one is labelled
    with the place [0 .. K-1] of the interval it falls in (the first interval
    also takes the minimum), and labels never decrease as values grow. *)
Definition equal_width_labels (x : list (option Q)) (K : nat)
    (labels : list (option Z)) : Prop :=
  length labels = length x
  /\ exists mn mx,
      nanmin x = Some mn /\ nanmax x = Some mx
      /\ (forall i, x !! i = Some None -> labels !! i = Some None)
      /\ (forall i q, x !! i = Some (Some q) ->
            exists l : nat,
              labels !! i = Some (Some (Z.of_nat l)) /\ l < K
              /\ ((mn < mx)%Q ->
                  ((interval_edge mn mx K l < q)%Q \/ l = 0)
                  /\ (q <= interval_edge mn mx K (S l))%Q))
      /\ (forall i j q q' l l',
            x !! i = Some (Some q) -> x !! j = Some (Some q') ->
            labels !! i = Some (Some l) -> labels !! j = Some (Some l') ->
            (q <= q')%Q -> (l <= l')%Z).

#[global] Instance Q_eq_dec : EqDecision Q.
Proof. solve_decision. Defined.

(** The number of distinct present values. *)
Definition distinct_count (x : list (option Q)) : nat :=
  length (remove_dups (map Qred (present x))).

(** How many entries carry each of the labels [0 .. k-1]. *)
Definition bucket_sizes (k : nat) (labels : list (option Z)) : list nat :=
  map (fun b => count_if (fun l => bool_decide (l = Some (Z.of_nat b))) labels)
      (seq 0 k).

(** [m] items in [k] buckets of as-equal-as-possible size, the earlier
    buckets absorbing the remainder. *)
Definition balanced_sizes (m k : nat) : list nat :=
  map (fun b => m / k + (if decide (b < m mod k) then 1 else 0)) (seq 0 k).

(** [ntile] as worded: the present values fall into
    [min(n, distinct_count)] buckets of balanced sizes. *)
Definition ntile_balanced (x : list (option Q)) (n : Z)
    (labels : list (option Z)) : Prop :=
  let k := Nat.min (Z.to_nat n) (distinct_count x) in
  bucket_sizes k labels = balanced_sizes (length (present x)) k.

End RankSpec.

(** ** plyrda/funcs.py: the column-name matchers *)

Module Funcs.
Import Pandas.

Section matchers.

(** What is piped in: a frame or a grouped frame. [arithmetize] (from
    plyrda.utils, not part of the sources at hand) turns either into the
    plain frame; the matchers then read only its column labels. *)
Context {Data : Type} (arithmetize : Data -> DataFrame).

(** [all_of(_data, x)] *)
Definition all_of (_data : Data) (x : list label) : result (list label) :=
  let nonexists : gset label :=
    list_to_set x ∖ list_to_set (columns (arithmetize _data)) in
  if decide (nonexists = ∅) then Ok x
  else Raise (ColumnNotExistingError nonexists).

(** [vars or arithmetize(_data).columns]: an absent or empty [vars] is falsy. *)
Definition vars_or (vars : option (list label)) (cols : list label) : list label :=
  match vars with
  | Some (v :: vs) => v :: vs
  | _ => cols
  end.

(** [any_of(_data, x, vars=None)] *)
Definition any_of (_data : Data) (x : list label) (vars : option (list label))
  : result (list label) :=
  let vars := vars_or vars (columns (arithmetize _data)) in
  Ok (filter (fun elem => elem ∈ vars) x).

End matchers.

(** [str(elem)] of an integer. *)
Definition py_str (z : Z) : string := pretty z.

(** ["0" * n] *)
Fixpoint zeros (n : nat) : string :=
  match n with
  | 0 => EmptyString
  | S n' => "0" +:+ zeros n'
  end.

(** [s.zfill(width)]: zeros on the left up to [width] characters, put after
    a leading sign; a string that is long enough stays as it is. *)
Definition zfill (s : string) (width : Z) : string :=
  let fill := zeros (Z.to_nat (width - Z.of_nat (String.length s))) in
  match s with
  | String c s' =>
      if decide (String c "" = "+" \/ String c "" = "-") then String c (fill +:+ s')
      else fill +:+ s
  | EmptyString => fill
  end.

(** [num_range(prefix, range, width=None)]; [not width] holds for [None]
    and for [0]. *)
Definition num_range (prefix : string) (range : list Z) (width : option Z)
  : list string :=
  map (fun elem =>
         prefix +:+ match width with
                    | Some w => if decide (w = 0)%Z then py_str elem
                                else zfill (py_str elem) w
                    | None => py_str elem
                    end)
      range.

(** [seq[i]] for a Python sequence: a negative index counts from the end;
    an index out of range raises [IndexError] (no value). *)
Definition py_index {A} (l : list A) (i : Z) : option A :=
  let n := Z.of_nat (length l) in
  let j := if decide (i < 0)%Z then (i + n)%Z else i in
  if decide (0 <= j)%Z then l !! Z.to_nat j else None.

(** [last_col(_data, offset=0, vars=None)] on a frame. *)
Definition last_col (_data : DataFrame) (offset : Z) (vars : option (list label))
  : option label :=
  let vars := vars_or vars (columns _data) in
  py_index vars (- (offset + 1)).

(** Leading zeros removed. *)
Fixpoint strip_zeros (s : string) : string :=
  match s with
  | String c s' => if decide (String c "" = "0") then strip_zeros s' else s
  | EmptyString => EmptyString
  end.

(** One of the digits 1 to 9. *)
Definition nonzero_digit (c : Ascii.ascii) : Prop :=
  String c "" ∈ ["1"; "2"; "3"; "4"; "5"; "6"; "7"; "8"; "9"]%string.

(** What [_as_date_format] gives back or raises. An [OverflowError] comes
    from the date arithmetic; the loop does not catch it. *)
Inductive date_outcome (date : Type) :=
| ReturnDate (d : date)
| ReturnNaN
| RaiseValueError
| RaiseOverflowError.

Arguments ReturnDate {date} d.
Arguments ReturnNaN {date}.
Arguments RaiseValueError {date}.
Arguments RaiseOverflowError {date}.

Section as_date.

Context {datetime timedelta date : Type}.

(** [datetime.datetime.strptime(x, fmt)]; no value when it raises
    [ValueError]. *)
Context (strptime : string -> string -> option datetime).

(** [dt + offset]; no value when it raises [OverflowError]. *)
Context (add_offset : datetime -> timedelta -> option datetime).

(** [dt.date()] *)
Context (date_of : datetime -> date).

Definition default_try_formats : list string :=
  ["%Y-%m-%d"; "%Y/%m/%d"; "%Y-%m-%d %H:%M:%S"; "%Y/%m/%d %H:%M:%S"]%string.

(** [try_formats or [...]] *)
Definition formats_or_default (try_formats : option (list string)) : list string :=
  match try_formats with
  | Some (f :: fs) => f :: fs
  | _ => default_try_formats
  end.

(** The loop over the formats with its [else] clause. *)
Fixpoint try_each (x : string) (offset : timedelta) (optional : bool)
    (format : list string) : date_outcome date :=
  match format with
  | [] => if optional then ReturnNaN else RaiseValueError
  | fmt :: format' =>
      match strptime x fmt with
      | Some dt =>
          match add_offset dt offset with
          | Some shifted => ReturnDate (date_of shifted)
          | None => RaiseOverflowError
          end
      | None => try_each x offset optional format'
      end
  end.

(** [_as_date_format(x, format, try_formats, optional, offset)] *)
Definition _as_date_format (x : string) (format : option string)
    (try_formats : option (list string)) (optional : bool) (offset : timedelta)
  : date_outcome date :=
  let try_formats := formats_or_default try_formats in
  let format :=
    match format with
    | Some f => if decide (f = ""%string) then try_formats else [f]
    | None => try_formats
    end in
  try_each x offset optional format.

End as_date.

End Funcs.

(** ** datar2/base/testing.py: the type tests *)

Module Testing.

(** The class of a scalar value, as far as the tests tell them apart. *)
Inductive scalar_class :=
| PyBool | PyInt | PyFloat | PyComplex | PyStr | PyNone
| NpBool | NpInteger | NpFloat64 | NpFloating | NpComplex.

(** The kind of a dtype. *)
Inductive dtype_kind :=
| KBool | KInteger | KFloat | KComplex | KObject | KDatetime | KCategory.

(** What is tested: a scalar ([is_scalar(x)]), something with a [dtype]
    attribute, or another iterable, whose elements are scalars of some class
    or other objects. *)
Inductive tested :=
| Scalar (c : scalar_class)
| Array (dtype : dtype_kind)
| Iterable (elems : list (option scalar_class)).

(** [isinstance(x, (int, float, complex, np.number))]; [bool] is a subclass
    of [int], [np.bool_] is not a [np.number]. *)
Definition instance_numeric (c : scalar_class) : bool :=
  match c with
  | PyBool | PyInt | PyFloat | PyComplex
  | NpInteger | NpFloat64 | NpFloating | NpComplex => true
  | PyStr | PyNone | NpBool => false
  end.

(** [isinstance(x, (int, np.integer))] *)
Definition instance_integer (c : scalar_class) : bool :=
  match c with
  | PyBool | PyInt | NpInteger => true
  | _ => false
  end.

(** [isinstance(x, (float, np.float_))]; [np.float64] is a subclass of
    [float]. *)
Definition instance_double (c : scalar_class) : bool :=
  match c with
  | PyFloat | NpFloat64 => true
  | _ => false
  end.

(** [is_numeric_dtype], [is_integer_dtype], [is_float_dtype] *)
Definition is_numeric_dtype (d : dtype_kind) : bool :=
  match d with
  | KBool | KInteger | KFloat | KComplex => true
  | _ => false
  end.

Definition is_integer_dtype (d : dtype_kind) : bool :=
  match d with KInteger => true | _ => false end.

Definition is_float_dtype (d : dtype_kind) : bool :=
  match d with KFloat => true | _ => false end.

(** The function [_register_type_testing] registers. *)
Definition _testing (scalar_types : scalar_class -> bool)
    (dtype_checker : dtype_kind -> bool) (x : tested) : bool :=
  match x with
  | Scalar c => scalar_types c
  | Array d => dtype_checker d
  | Iterable elems =>
      forallb (fun elem => match elem with
                           | Some c => scalar_types c
                           | None => false
                           end) elems
  end.

Definition is_numeric := _testing instance_numeric is_numeric_dtype.
Definition is_integer := _testing instance_integer is_integer_dtype.
Definition is_int := is_integer.
Definition is_double := _testing instance_double is_float_dtype.
Definition is_float := is_double.

End Testing.

(** ** The right join as the specification words it *)

Module JoinSpec.
Import Pandas Join.

(** An output row made of the left row [xrow] and the right row [yrow]:
    cells of the one followed by cells of the other, in their order. *)
Definition joined_row (xrow yrow row : list cell) : Prop :=
  exists xpart ypart,
    row = xpart ++ ypart /\ sublist xpart xrow /\ sublist ypart yrow.

(** An output row for a right row that no left row matches: cells of the
    right row preceded by the left side, which holds nothing but missing
    cells, or the right row's own key under a key column the two tables share
    by name. *)
Definition unmatched_row (yrow row : list cell) : Prop :=
  exists xpart ypart,
    row = xpart ++ ypart
    /\ Forall (fun v => v = None \/ v ∈ yrow) xpart
    /\ sublist ypart yrow.

(** The output rows due to one right row: one per matching left row, in
    the order of the left rows, and a single unmatched row when there is
    none. *)
Definition right_rows (matches : list (list cell)) (yrow : list cell)
    (block : list (list cell)) : Prop :=
  match matches with
  | [] => exists row, block = [row] /\ unmatched_row yrow row
  | _ => Forall2 (fun xrow row => joined_row xrow yrow row) matches block
  end.

(** The rows of [left] whose key equals the key of [yrow]. *)
Definition matching_rows (left right : DataFrame) (left_on right_on : list label)
    (yrow : list cell) : list (list cell) :=
  filter (fun xrow => key_cells (columns left) left_on xrow
                      = key_cells (columns right) right_on yrow)
         (rows left).

(** The key columns of each side that a key specification names; none for
    [by=None], which leaves the key to be inferred. *)
Definition key_columns (by_ : by_arg) : list label * list label :=
  match by_ with
  | ByNone => ([], [])
  | ByScalar l => ([l], [l])
  | ByList l => (l, l)
  | ByDict d => (d.*1, d.*2)
  end.

(** The key columns that carry the same label on both sides. *)
Definition shared_by_name (left_on right_on : list label) : list label :=
  (filter (fun p : label * label => p.1 = p.2) (zip left_on right_on)).*1.

(** A left row has a match: its key is the key of some right row. *)
Definition matched (left right : DataFrame) (left_on right_on : list label)
    (xrow : list cell) : Prop :=
  key_cells (columns left) left_on xrow
  ∈ map (key_cells (columns right) right_on) (rows right).

#[global] Instance matched_dec left right left_on right_on xrow :
  Decision (matched left right left_on right_on xrow).
Proof. unfold matched. apply _. Defined.

(** The suffixes [("", "_y")] of the filtering joins keep the two sides
    apart: a label the frames share outside the keys shared by name stays as
    it is on the left (it is a string), and with ["_y"] appended on the right
    it is not a label of the left frame. *)
Definition suffix_safe (left right : DataFrame) (shared : list label) : Prop :=
  Forall (fun c => c ∈ columns right -> c ∉ shared ->
                   label_append c "" = c /\ label_append c "_y" ∉ columns left)
         (columns left).

(** An output row for a left row that no right row matches: cells of the
    left row followed by missing cells only. *)
Definition left_unmatched_row (xrow row : list cell) : Prop :=
  exists xpart ypart,
    row = xpart ++ ypart /\ sublist xpart xrow /\ Forall (fun v => v = None) ypart.

(** The output rows due to one left row: one per matching right row, in
    the order of the right rows, and a single unmatched row when there is
    none. *)
Definition left_rows (matches : list (list cell)) (xrow : list cell)
    (block : list (list cell)) : Prop :=
  match matches with
  | [] => exists row, block = [row] /\ left_unmatched_row xrow row
  | _ => Forall2 (fun yrow row => joined_row xrow yrow row) matches block
  end.

End JoinSpec.

(** ** Example tables *)

Module Examples.
Import Pandas Tibble.

(** [{a: [1, 2], b: [10, 20]}] and [{a: [2, 3], c: [99, 100]}] *)
Definition left_table : DataFrame :=
  mkDataFrame [LStr "a"; LStr "b"] [[Some 1; Some 10]; [Some 2; Some 20]]%Z.
Definition right_table : DataFrame :=
  mkDataFrame [LStr "a"; LStr "c"] [[Some 2; Some 99]; [Some 3; Some 100]]%Z.

(** The first of them without any row. *)
Definition no_rows : DataFrame := mkDataFrame [LStr "a"; LStr "b"] [].

(** [{a: [1], b: [10]}] and [{a: [1, 1], c: [5, 6]}]: two right rows share
    the key of the one left row. *)
Definition one_row : DataFrame :=
  mkDataFrame [LStr "a"; LStr "b"] [[Some 1; Some 10]]%Z.
Definition two_matches : DataFrame :=
  mkDataFrame [LStr "a"; LStr "c"] [[Some 1; Some 5]; [Some 1; Some 6]]%Z.

(** [{g: [1, 1, 2], v: [10, 20, 30]}], plain and grouped by [g]. *)
Definition sales : DataFrame :=
  mkDataFrame [LStr "g"; LStr "v"]
    [[Some 1; Some 10]; [Some 1; Some 20]; [Some 2; Some 30]]%Z.
Definition sales_by_g : Tibble :=
  mkTibble sales
    (Grouped [LStr "g"] false false false (build sales [LStr "g"] false false)).

(** A store holding [sales] and one group-by object over it, by [g]. *)
Definition sales_store : Grouped.store :=
  Grouped.mkStore [sales] [Grouped.mkGroupBy 0 [LStr "g"] false true].

(** One admissible engine for the inner and the outer join, to run
    examples with: the inner join in the order of the left rows, the outer
    join as the left join followed by the unmatched right rows. *)
Definition reference_indexers (h : how) (lkeys rkeys : list (list cell)) : indexers :=
  match h with
  | Outer =>
      left_indexers lkeys rkeys
      ++ filter (fun p => p.1 = None) (right_indexers lkeys rkeys)
  | _ => filter (fun p => is_Some p.2) (left_indexers lkeys rkeys)
  end.

End Examples.

(** * Properties *)

(** ** Rational arithmetic *)

Section rationals.
Import Pandas.

Lemma Qltb_lt (a b : Q) : Qltb a b = true <-> (a < b)%Q.
Proof.
  unfold Qltb. rewrite Qlt_alt. destruct (a ?= b)%Q; split; congruence.
Qed.

Lemma Qltb_ge (a b : Q) : Qltb a b = false <-> (b <= a)%Q.
Proof.
  rewrite <- not_true_iff_false, Qltb_lt. split; [apply Qnot_lt_le|apply Qle_not_lt].
Qed.

Lemma Qeq_bool_false (a b : Q) : Qeq_bool a b = false <-> ~ (a == b)%Q.
Proof. rewrite <- not_true_iff_false, Qeq_bool_iff. done. Qed.

Lemma feq_refl a : feq a a.
Proof. destruct a; simpl; done. Qed.

(** Scaling numerator and denominator by the same positive count does not
    change a quotient. *)
Lemma fdiv_scale (a b a' b' c : Q) :
  (0 < c)%Q -> (a == a' / c)%Q -> (b == b' / c)%Q ->
  feq (fdiv (F_fin a) (F_fin b)) (fdiv (F_fin a') (F_fin b')).
Proof.
  intros Hc Ha Hb. unfold fdiv.
  assert (Hb' : (b' == b * c)%Q) by (rewrite Hb; field; lra).
  assert (Ha' : (a' == a * c)%Q) by (rewrite Ha; field; lra).
  assert (Hb0 : (b == 0 <-> b' == 0)%Q) by (split; intros H; nra).
  assert (Ha0 : (a == 0 <-> a' == 0)%Q) by (split; intros H; nra).
  assert (Hal : (a < 0 <-> a' < 0)%Q) by (split; intros H; nra).
  assert (Eb : Qeq_bool b 0 = Qeq_bool b' 0)
    by (apply Bool.eq_true_iff_eq; by rewrite !Qeq_bool_iff).
  assert (Ea : Qeq_bool a 0 = Qeq_bool a' 0)
    by (apply Bool.eq_true_iff_eq; by rewrite !Qeq_bool_iff).
  assert (El : Qltb a 0 = Qltb a' 0)
    by (apply Bool.eq_true_iff_eq; by rewrite !Qltb_lt).
  rewrite Eb, Ea, El.
  destruct (Qeq_bool b' 0) eqn:Eb'.
  - destruct (Qeq_bool a' 0); simpl; done.
  - simpl. apply Qeq_bool_false in Eb'. rewrite Ha, Hb. field. split; lra.
Qed.

Lemma inject_nat_pos c : 0 < c -> (0 < inject_Z (Z.of_nat c))%Q.
Proof. intros Hc. change 0%Q with (inject_Z 0). rewrite <- Zlt_Qlt. lia. Qed.

Lemma inject_Z_sub (a b : Z) : (inject_Z (a - b) == inject_Z a - inject_Z b)%Q.
Proof. unfold Z.sub. rewrite inject_Z_plus, inject_Z_opp. lra. Qed.

End rationals.

(** ** Grouped columns: a group's rows of a group-wise result *)

Section grouped_columns.
Import Pandas.

Lemma occurrences_app c l1 l2 : occurrences c (l1 ++ l2) = occurrences c l1 + occurrences c l2.
Proof. unfold occurrences. by rewrite filter_app, length_app. Qed.

Lemma occurrences_cons c a l :
  occurrences c (a :: l) = (if decide (a = c) then 1 else 0) + occurrences c l.
Proof. unfold occurrences. rewrite filter_cons. by destruct (decide (a = c)). Qed.

Lemma group_rows_cons {A} c a (v : A) (g : SeriesGroupBy A) :
  group_rows c ((a, v) :: g) =
  if decide (a = c) then v :: group_rows c g else group_rows c g.
Proof.
  unfold group_rows. rewrite filter_cons. simpl. by destruct (decide (a = c)).
Qed.

Lemma group_rows_length {A} c (g : SeriesGroupBy A) :
  length (group_rows c g) = occurrences c g.*1.
Proof.
  unfold group_rows, occurrences. rewrite length_fmap.
  induction g as [|[a v] g IH]; [done|]. simpl.
  rewrite !filter_cons. simpl. destruct (decide (a = c)); simpl; by rewrite IH.
Qed.

Lemma take_drop_nth {A} (d : A) n k (L : list A) :
  k < length L -> take (S n) (drop k L) = nth k L d :: take n (drop (S k) L).
Proof.
  revert k. induction L as [|x L IH]; intros k Hk; simpl in *; [lia|].
  destruct k as [|k]; simpl; [by rewrite drop_0|].
  rewrite <- IH by lia. done.
Qed.

Lemma occurrences_snoc c a l :
  occurrences c (l ++ [a]) = occurrences c l + (if decide (a = c) then 1 else 0).
Proof. rewrite occurrences_app, occurrences_cons. unfold occurrences at 2. simpl. lia. Qed.

Lemma per_group_slice_from {B} (d : B) (F : nat -> list B) c codes seen :
  occurrences c seen + occurrences c codes <= length (F c) ->
  group_rows c (zip codes (zip_with (fun c k => nth k (F c) d) codes (cumcount_from seen codes)))
  = take (occurrences c codes) (drop (occurrences c seen) (F c)).
Proof.
  revert seen. induction codes as [|a codes IH]; intros seen Hlen; [done|].
  simpl. rewrite group_rows_cons. rewrite occurrences_cons in *.
  pose proof (occurrences_snoc c a seen) as Hs.
  destruct (decide (a = c)) as [->|Hne].
  - rewrite IH by lia. rewrite Hs, Nat.add_1_r. simpl.
    by rewrite (take_drop_nth d) by lia.
  - rewrite IH by lia. rewrite Hs, Nat.add_0_r. done.
Qed.

Lemma per_group_slice_at {A B} (d : B) (f : list A -> list B) (g : SeriesGroupBy A) c :
  length (f (group_rows c g)) = length (group_rows c g) ->
  group_rows c (zip g.*1 (per_group d f g)) = f (group_rows c g).
Proof.
  intros Hf. unfold per_group, cumcount.
  rewrite (per_group_slice_from d (fun c => f (group_rows c g))).
  - simpl. rewrite drop_0. apply take_ge. by rewrite Hf, group_rows_length.
  - rewrite Hf, group_rows_length. unfold occurrences at 1. simpl. lia.
Qed.

Lemma per_group_slice {A B} (d : B) (f : list A -> list B) (g : SeriesGroupBy A) c :
  (forall l, length (f l) = length l) ->
  group_rows c (zip g.*1 (per_group d f g)) = f (group_rows c g).
Proof. intros Hf. by apply per_group_slice_at. Qed.

Lemma cumcount_from_length seen codes : length (cumcount_from seen codes) = length codes.
Proof. revert seen. induction codes as [|a l IH]; intros seen; simpl; [done|]. by rewrite IH. Qed.

Lemma per_group_length {A B} (d : B) (f : list A -> list B) (g : SeriesGroupBy A) :
  length (per_group d f g) = length g.
Proof.
  unfold per_group, cumcount.
  rewrite length_zip_with, cumcount_from_length, length_fmap. lia.
Qed.

Lemma group_rows_zip_with {A B C} (f : A -> B -> C) c codes (a : list A) (b : list B) :
  length a = length codes -> length b = length codes ->
  group_rows c (zip codes (zip_with f a b))
  = zip_with f (group_rows c (zip codes a)) (group_rows c (zip codes b)).
Proof.
  revert a b. induction codes as [|k codes IH]; intros [|va a] [|vb b] Ha Hb;
    simplify_eq/=; [done|].
  rewrite !group_rows_cons. destruct (decide (k = c)); simpl; by rewrite IH.
Qed.

Lemma zip_with_replicate_pair {A B C D} (f : A -> B * C -> D) (l : list A) n (b : B) (c : C) :
  n = length l ->
  zip_with f l (zip (replicate n b) (replicate n c)) = map (fun a => f a (b, c)) l.
Proof. intros ->. induction l; simpl; by f_equal. Qed.

Lemma per_group_slice_codes {A B} (d : B) (f : list A -> list B)
    (g : SeriesGroupBy A) codes c :
  g.*1 = codes -> (forall l, length (f l) = length l) ->
  group_rows c (zip codes (per_group d f g)) = f (group_rows c g).
Proof. intros <-. apply per_group_slice. Qed.

Lemma result_mapM_Ok {A B} (f : A -> result B) (l : list A) :
  Forall (fun a => raises (f a) = false) l -> raises (result_mapM f l) = false.
Proof.
  induction 1 as [|a l Ha _ IH]; [done|]. simpl.
  destruct (f a); [|done]. simpl. by destruct (result_mapM f l).
Qed.

Lemma group_rows_nonempty {A} c (g : SeriesGroupBy A) : c ∈ g.*1 -> group_rows c g <> [].
Proof.
  intros Hc Hnil. apply (f_equal length) in Hnil. rewrite group_rows_length in Hnil.
  unfold occurrences in Hnil. simpl in Hnil. apply nil_length_inv in Hnil.
  assert (c ∈ filter (fun c' => c' = c) g.*1) as Hin by (by apply list_elem_of_filter).
  rewrite Hnil in Hin. by apply not_elem_of_nil in Hin.
Qed.

End grouped_columns.

(** ** row_number *)

Section row_number.
Import Pandas Rank.

Lemma cumcount_slice {B} (f : nat -> B) c codes seen :
  group_rows c (zip codes (map f (cumcount_from seen codes)))
  = map f (seq (occurrences c seen) (occurrences c codes)).
Proof.
  revert seen. induction codes as [|a codes IH]; intros seen; [done|].
  simpl. rewrite group_rows_cons, occurrences_cons, IH, occurrences_snoc.
  destruct (decide (a = c)) as [->|Hne]; simpl.
  - by rewrite Nat.add_1_r.
  - by rewrite Nat.add_0_r.
Qed.

Lemma py_range_from_one (n : nat) :
  py_range 1 (Z.of_nat n + 1) = map Z.of_nat (seq 1 n).
Proof.
  unfold py_range. replace (Z.to_nat (Z.of_nat n + 1 - 1)) with n by lia.
  generalize 0 as k. induction n as [|n IH]; intros k; [done|].
  simpl. rewrite IH. f_equal. lia.
Qed.

(** C7. On an ungrouped table of [n] rows [row_number] is exactly
    [1, 2, ..., n]; on a grouped column the numbers handed to the rows of
    each group, read in row order, are [1, 2, ...] up to the size of the
    group: the numbering restarts at 1 within each group. *)
Theorem row_number_restarts_per_group :
  (forall x : DataFrame,
     _row_number_NDFrame x = map Z.of_nat (seq 1 (nrows x)))
  /\ (forall (A : Type) (x : SeriesGroupBy A) (c : nat),
        group_rows c (zip x.*1 (_row_number_GroupBy x))
        = map Z.of_nat (seq 1 (length (group_rows c x))))
  /\ (forall (A : Type) (x : SeriesGroupBy A),
        length (_row_number_GroupBy x) = length x
        /\ _row_number_TibbleGrouped x = _row_number_GroupBy x).
Proof.
  split; [|split].
  - intros x. apply py_range_from_one.
  - intros A x c. unfold _row_number_GroupBy, cumcount.
    rewrite cumcount_slice, group_rows_length. simpl.
    rewrite <- (fmap_S_seq 0). rewrite <- !list_fmap_compose.
    apply list_fmap_ext. intros _ k _. simpl. lia.
  - intros A x. split; [|done].
    unfold _row_number_GroupBy, cumcount.
    by rewrite length_map, cumcount_from_length, length_fmap.
Qed.

(** C8. No kernel of the rank family raises on an empty input, and each
    returns an empty output. ([pd.cut] itself refuses an empty array: the
    kernels return before reaching it.) *)
Theorem rank_family_empty_input :
  _row_number [] = []
  /\ (forall A, _row_number_GroupBy (@nil (nat * A)) = [])
  /\ (forall x : DataFrame, rows x = [] -> _row_number_NDFrame x = [])
  /\ (forall n, _ntile (Sequence []) n = Ok [])
  /\ (forall n, _ntile_ndarray [] n = Ok [])
  /\ (forall n, _ntile_GroupBy [] n = Ok [])
  /\ (forall na_last, _percent_rank [] na_last = [])
  /\ (forall na_last, _percent_rank_NDFrame [] na_last = [])
  /\ (forall na_last, _percent_rank_GroupBy [] na_last = [])
  /\ (forall na_last, _cume_dist (Sequence []) na_last = [])
  /\ (forall na_last, _cume_dist_NDFrame [] na_last = [])
  /\ (forall na_last, _cume_dist_GroupBy [] na_last = [])
  /\ (forall n, raises (cut [] n) = true).
Proof.
  repeat split; try done.
  - intros x Hx. unfold _row_number_NDFrame, nrows. by rewrite Hx.
  - intros n. unfold cut. by destruct (decide _).
Qed.

Lemma rank_family_empty_input_witness :
  _row_number_NDFrame (mkDataFrame [LStr "a"; LStr "b"] []) = [].
Proof.
  apply (proj1 (proj2 (proj2 rank_family_empty_input))). reflexivity.
Defined.

End row_number.

(** ** percent_rank *)

Section percent_rank.
Import Pandas Rank.

Lemma count_if_cons {A} (p : A -> bool) a l :
  count_if p (a :: l) = (if p a then 1 else 0) + count_if p l.
Proof.
  unfold count_if. rewrite filter_cons.
  destruct (decide (p a = true)) as [->|Hn]; [done|].
  by apply not_true_is_false in Hn as ->.
Qed.

Lemma ranked_keep_length x : length (ranked NaOptKeep x) = length (present x).
Proof.
  unfold ranked, present. induction x as [|[q|] x IH]; [done| |].
  - rewrite filter_cons_True by done. simpl. by rewrite IH.
  - rewrite filter_cons_False by (by intros []). done.
Qed.

Lemma ranked_keep_below x q :
  count_if (fun w => key_lt NaOptKeep w (Some q)) (ranked NaOptKeep x)
  = count_if (fun w => Qltb w q) (present x).
Proof.
  unfold ranked, present. induction x as [|[w|] x IH]; [done| |].
  - rewrite filter_cons_True by done.
    change (omap id (Some w :: x)) with (w :: omap id x).
    rewrite !count_if_cons. simpl key_lt. by rewrite IH.
  - rewrite filter_cons_False by (by intros []). done.
Qed.

Lemma rank_min_keep pct x :
  rank RankMin pct NaOptKeep x =
  map (fun v =>
         match v with
         | None => F_nan
         | Some q =>
             let r := of_nat (RankSpec.min_rank x q) in
             if pct then fdiv r (of_nat (length (present x))) else r
         end) x.
Proof.
  unfold rank. rewrite ranked_keep_length, <- imap_const.
  apply imap_ext. intros i [q|] _; [|done].
  unfold rank_at, RankSpec.min_rank.
  by rewrite ranked_keep_below, Nat.add_0_r.
Qed.

Section scaled_extrema.
Context (h : nat -> Q) (r : Q -> nat).
Hypothesis h_mono : forall a b, Qltb (h a) (h b) = bool_decide (a < b).

Lemma series_min_scaled l :
  series_min
    (map (fun v => match v with None => F_nan | Some q => F_fin (h (r q)) end) l) =
  match RankSpec.least (map r (present l)) with
  | None => F_nan
  | Some m => F_fin (h m)
  end.
Proof.
  unfold series_min, present. induction l as [|[q|] l IH]; [done| |].
  - change (omap id (Some q :: l)) with (q :: omap id l).
    cbn [map foldr RankSpec.least]. fold (RankSpec.least (map r (omap id l))).
    rewrite IH. destruct (RankSpec.least _) as [m|]; simpl; [|done].
    rewrite h_mono. case_bool_decide.
    + by rewrite Nat.min_r by lia.
    + by rewrite Nat.min_l by lia.
  - cbn [map foldr]. rewrite IH. simpl. by destruct (RankSpec.least _).
Qed.

Lemma series_max_scaled l :
  series_max
    (map (fun v => match v with None => F_nan | Some q => F_fin (h (r q)) end) l) =
  match RankSpec.greatest (map r (present l)) with
  | None => F_nan
  | Some m => F_fin (h m)
  end.
Proof.
  unfold series_max, present. induction l as [|[q|] l IH]; [done| |].
  - change (omap id (Some q :: l)) with (q :: omap id l).
    cbn [map foldr RankSpec.greatest]. fold (RankSpec.greatest (map r (omap id l))).
    rewrite IH. destruct (RankSpec.greatest _) as [m|]; simpl; [|done].
    rewrite h_mono. case_bool_decide.
    + by rewrite Nat.max_r by lia.
    + by rewrite Nat.max_l by lia.
  - cbn [map foldr]. rewrite IH. simpl. by destruct (RankSpec.greatest _).
Qed.

End scaled_extrema.


Lemma pct_of_mono c a b : 0 < c -> Qltb (pct_of c a) (pct_of c b) = bool_decide (a < b).
Proof.
  intros Hc. apply inject_nat_pos in Hc.
  apply Bool.eq_true_iff_eq. rewrite Qltb_lt, bool_decide_eq_true. unfold pct_of.
  rewrite Nat2Z.inj_lt, Zlt_Qlt.
  generalize (inject_Z (Z.of_nat a)) (inject_Z (Z.of_nat b)) (inject_Z (Z.of_nat c)) Hc.
  intros qa qb qc Hqc. split; intros H.
  - assert (qa == qa / qc * qc)%Q as -> by (field; lra).
    assert (qb == qb / qc * qc)%Q as -> by (field; lra). nra.
  - apply Qlt_shift_div_l; [done|].
    assert (qa / qc * qc == qa)%Q as -> by (field; lra). done.
Qed.

Lemma fdiv_count c r : 0 < c -> fdiv (of_nat r) (of_nat c) = F_fin (pct_of c r).
Proof.
  intros Hc. apply inject_nat_pos in Hc. unfold fdiv, of_nat, of_Z.
  destruct (Qeq_bool _ 0) eqn:E; [|done].
  apply Qeq_bool_iff in E. lra.
Qed.

Lemma present_nil_iff (x : list (option Q)) : present x = [] <-> Forall (fun v => v = None) x.
Proof.
  unfold present. induction x as [|[q|] x IH]; simpl.
  - split; [constructor|done].
  - split; [done|]. by inversion 1.
  - rewrite IH. split; [by constructor|by inversion 1].
Qed.

Lemma least_is_Some l : l <> [] -> is_Some (RankSpec.least l).
Proof. destruct l; [done|]. simpl. eauto. Qed.
Lemma greatest_is_Some l : l <> [] -> is_Some (RankSpec.greatest l).
Proof. destruct l; [done|]. simpl. eauto. Qed.

Lemma zip_with_map_diag {A B C} (f : A -> B -> C) (g : A -> B) l :
  zip_with f l (map g l) = map (fun a => f a (g a)) l.
Proof. induction l; simpl; by f_equal. Qed.


Lemma percent_rank_NDFrame_spec (x : list (option Q)) :
  Forall2 feq (_percent_rank_NDFrame x NaKeep) (RankSpec.percent_rank x).
Proof.
  unfold _percent_rank_NDFrame, _rank, RankSpec.percent_rank. simpl na_option_of.
  rewrite rank_min_keep.
  set (ranks := map (RankSpec.min_rank x) (present x)).
  destruct (decide (present x = [])) as [Hnil|Hne].
  - apply present_nil_iff in Hnil. rewrite zip_with_map_diag, map_map.
    apply Forall2_fmap, Forall_Forall2_diag.
    eapply Forall_impl; [exact Hnil|]. by intros v ->.
  - assert (0 < length (present x)) as Hc by (destruct (present x); [done|simpl; lia]).
    set (c := length (present x)) in *.
    rewrite (map_ext _ (fun v => match v with
                                 | None => F_nan
                                 | Some q => F_fin (pct_of c (RankSpec.min_rank x q))
                                 end)); cycle 1.
    { intros [q|]; [|done]. by apply fdiv_count. }
    rewrite (series_min_scaled (pct_of c) (RankSpec.min_rank x)) by (intros; by apply pct_of_mono).
    rewrite (series_max_scaled (pct_of c) (RankSpec.min_rank x)) by (intros; by apply pct_of_mono).
    fold ranks.
    destruct (least_is_Some ranks) as [lo ->]; [subst ranks; by destruct (present x)|].
    destruct (greatest_is_Some ranks) as [hi ->]; [subst ranks; by destruct (present x)|].
    rewrite zip_with_map_diag, map_map.
    apply Forall2_fmap, Forall_Forall2_diag, Forall_forall.
    intros [q|] _; [|done]. simpl isnull. cbn [fsub].
    apply (fdiv_scale _ _ _ _ (inject_Z (Z.of_nat c))).
    + by apply inject_nat_pos.
    + unfold pct_of. unfold of_Z. rewrite inject_Z_sub. field. apply inject_nat_pos in Hc. lra.
    + unfold pct_of. unfold of_Z. rewrite inject_Z_sub. field. apply inject_nat_pos in Hc. lra.
Qed.

Lemma rank_length method pct na x : length (rank method pct na x) = length x.
Proof. unfold rank. by rewrite length_imap. Qed.

Lemma percent_rank_GroupBy_slice (x : SeriesGroupBy (option Q)) na_last c :
  group_rows c (zip x.*1 (_percent_rank_GroupBy x na_last))
  = _percent_rank_NDFrame (group_rows c x) na_last.
Proof.
  unfold _percent_rank_GroupBy, _percent_rank_NDFrame, _rank_GroupBy, _rank.
  set (rk := rank RankMin true (na_option_of na_last)).
  set (R := per_group F_nan rk x).
  assert (HR : length R = length x) by (subst R; by rewrite per_group_length).
  assert (H1 : (zip x.*1 R).*1 = x.*1) by (apply fst_zip; rewrite length_fmap; lia).
  assert (H2 : (zip x.*1 R).*2 = R) by (apply snd_zip; rewrite length_fmap; lia).
  assert (HRc : group_rows c (zip x.*1 R) = rk (group_rows c x)).
  { subst R. apply per_group_slice. intros l. subst rk. apply rank_length. }
  rewrite H2.
  rewrite !group_rows_zip_with; rewrite ?length_zip_with, ?per_group_length,
    ?length_zip_with, ?length_fmap; try lia.
  rewrite HRc.
  rewrite !(per_group_slice_codes _ _ _ _ _ H1) by (intros; by rewrite length_replicate).
  rewrite HRc.
  by rewrite zip_with_replicate_pair.
Qed.



End percent_rank.

(** ** ntile *)

Section ntile.
Import Pandas Rank.

Lemma searchsorted_left_bound edges q : searchsorted_left edges q <= length edges.
Proof. induction edges as [|e es IH]; simpl; [lia|]. destruct (Qltb e q); lia. Qed.

Lemma searchsorted_left_below edges q j e :
  j < searchsorted_left edges q -> edges !! j = Some e -> (e < q)%Q.
Proof.
  revert j. induction edges as [|e' es IH]; intros j Hj He; simpl in *; [lia|].
  destruct (Qltb e' q) eqn:E; [|lia].
  destruct j as [|j]; simplify_eq/=; [by apply Qltb_lt|]. apply (IH j); [lia|done].
Qed.

Lemma searchsorted_left_at edges q e :
  edges !! searchsorted_left edges q = Some e -> (q <= e)%Q.
Proof.
  induction edges as [|e' es IH]; intros He; simpl in *; [done|].
  destruct (Qltb e' q) eqn:E; simplify_eq/=; [by apply IH|by apply Qltb_ge].
Qed.

Lemma searchsorted_left_mono edges q q' :
  (q <= q')%Q -> searchsorted_left edges q <= searchsorted_left edges q'.
Proof.
  intros Hq. induction edges as [|e es IH]; simpl; [lia|].
  destruct (Qltb e q) eqn:E; [|lia].
  apply Qltb_lt in E. assert (Qltb e q' = true) as -> by (apply Qltb_lt; lra). lia.
Qed.

Lemma linspace_length a b K : length (linspace a b K) = S K.
Proof. unfold linspace. by rewrite length_map, length_seq. Qed.

Lemma linspace_lookup a b K j :
  j <= K ->
  linspace a b K !! j
  = Some (a + inject_Z (Z.of_nat j) * ((b - a) / inject_Z (Z.of_nat K)))%Q.
Proof.
  intros Hj. unfold linspace.
  change (map ?f ?l) with (f <$> l). rewrite list_lookup_fmap.
  rewrite lookup_seq_lt by lia. done.
Qed.

Lemma cut_edges_length mn mx K : length (cut_edges mn mx K) = S K.
Proof.
  unfold cut_edges. destruct (Qeq_bool mn mx); [apply linspace_length|].
  pose proof (linspace_length mn mx K) as H.
  destruct (linspace mn mx K); simpl in *; lia.
Qed.

Lemma cut_edges_first mn mx K :
  (mn <= mx)%Q -> exists e0, cut_edges mn mx K !! 0 = Some e0 /\ (e0 < mn)%Q.
Proof.
  intros Hle. unfold cut_edges. destruct (Qeq_bool mn mx) eqn:E.
  - rewrite linspace_lookup by lia. eexists; split; [done|].
    cbv beta zeta. change (inject_Z (Z.of_nat 0)) with 0%Q.
    assert (0 < (if Qeq_bool mn 0 then 1 # 1000 else (1 # 1000) * Qabs mn))%Q.
    { destruct (Qeq_bool mn 0) eqn:E0; [lra|].
      apply Qeq_bool_neq in E0. pose proof (Qabs_nonneg mn).
      assert (~ Qabs mn == 0)%Q.
      { intros H0. apply E0. revert H0. apply Qabs_case; intros; lra. }
      lra. }
    revert H. generalize (if Qeq_bool mn 0 then 0.001 else 0.001 * Qabs mn)%Q.
    intros p Hp.
    match goal with |- context [(?a / ?b)%Q] => generalize (a / b)%Q end.
    intros t. lra.
  - apply Qeq_bool_neq in E.
    pose proof (linspace_lookup mn mx K 0 ltac:(lia)) as H0.
    destruct (linspace mn mx K) as [|e0 es]; simplify_eq/=.
    eexists; split; [done|].
    assert (mn < mx)%Q by (destruct (Qlt_le_dec mn mx); [done|exfalso; apply E; lra]).
    change (inject_Z (Z.of_nat 0)) with 0%Q.
    match goal with |- context [(?a / ?b)%Q] => generalize (a / b)%Q end.
    intros t. lra.
Qed.

Lemma edge_last mn mx K : 0 < K -> (RankSpec.interval_edge mn mx K K == mx)%Q.
Proof. intros HK. apply inject_nat_pos in HK. unfold RankSpec.interval_edge. field. lra. Qed.

Lemma cut_edges_inner mn mx K j :
  (mn < mx)%Q -> 0 < j <= K -> cut_edges mn mx K !! j = Some (RankSpec.interval_edge mn mx K j).
Proof.
  intros Hlt Hj. unfold cut_edges.
  assert (Qeq_bool mn mx = false) as -> by (apply Qeq_bool_false; lra).
  pose proof (linspace_lookup mn mx K j ltac:(lia)) as H.
  destruct (linspace mn mx K) as [|e0 es]; [done|].
  destruct j as [|j]; [lia|]. done.
Qed.

Lemma cut_edges_last mn mx K :
  (mn <= mx)%Q -> 0 < K ->
  exists eK, cut_edges mn mx K !! K = Some eK /\ (mx <= eK)%Q.
Proof.
  intros Hle HK. destruct (Qlt_le_dec mn mx) as [Hlt|Hge].
  - rewrite cut_edges_inner by (done || lia). eexists; split; [done|].
    rewrite edge_last by done. lra.
  - unfold cut_edges. assert (Qeq_bool mn mx = true) as -> by (apply Qeq_bool_iff; lra).
    rewrite linspace_lookup by lia. eexists; split; [done|].
    apply inject_nat_pos in HK. revert HK. generalize (inject_Z (Z.of_nat K)). intros k Hk.
    assert (0 <= (if Qeq_bool mx 0 then 1 # 1000 else (1 # 1000) * Qabs mx))%Q as Hp.
    { destruct (Qeq_bool mx 0); [lra|]. pose proof (Qabs_nonneg mx). lra. }
    revert Hp. generalize (if Qeq_bool mx 0 then 1 # 1000 else (1 # 1000) * Qabs mx)%Q.
    generalize (if Qeq_bool mn 0 then 1 # 1000 else (1 # 1000) * Qabs mn)%Q.
    intros p p' Hp.
    assert (mn - p + k * ((mx + p' - (mn - p)) / k) == mx + p')%Q as -> by (field; lra).
    lra.
Qed.

Lemma Qmin_list_le v vs q : q ∈ v :: vs -> (Qmin_list v vs <= q)%Q.
Proof.
  unfold Qmin_list. revert q. induction vs as [|w vs IH]; intros q Hq.
  - apply list_elem_of_singleton in Hq as ->. simpl. lra.
  - simpl. assert (q = w \/ q ∈ v :: vs) as [->|Hin] by (rewrite !elem_of_cons in *; tauto).
    + destruct (Qltb w _) eqn:E; [lra|]. by apply Qltb_ge in E.
    + specialize (IH q Hin). destruct (Qltb w _) eqn:E; [|done].
      apply Qltb_lt in E. lra.
Qed.

Lemma Qmax_list_ge v vs q : q ∈ v :: vs -> (q <= Qmax_list v vs)%Q.
Proof.
  unfold Qmax_list. revert q. induction vs as [|w vs IH]; intros q Hq.
  - apply list_elem_of_singleton in Hq as ->. simpl. lra.
  - simpl. assert (q = w \/ q ∈ v :: vs) as [->|Hin] by (rewrite !elem_of_cons in *; tauto).
    + destruct (Qltb _ w) eqn:E; [lra|]. by apply Qltb_ge in E.
    + specialize (IH q Hin). destruct (Qltb _ w) eqn:E; [|done].
      apply Qltb_lt in E. lra.
Qed.

Lemma present_elem (x : list (option Q)) q : Some q ∈ x <-> q ∈ present x.
Proof.
  unfold present. rewrite list_elem_of_omap. split.
  - intros Hq. by exists (Some q).
  - intros (y & Hy & Hq). destruct y; by simplify_eq/=.
Qed.

Lemma nan_extrema_bounds x mn mx q :
  nanmin x = Some mn -> nanmax x = Some mx -> Some q ∈ x -> (mn <= q <= mx)%Q.
Proof.
  unfold nanmin, nanmax. intros Hmn Hmx Hq. apply present_elem in Hq.
  destruct (present x) as [|v vs]; simplify_eq.
  split; [by apply Qmin_list_le|by apply Qmax_list_ge].
Qed.

(** The label of a value inside the data range. *)
Lemma cut_label_in_range mn mx K q :
  0 < K -> (mn <= q <= mx)%Q ->
  exists l : nat,
    cut_label (cut_edges mn mx K) q = Some (Z.of_nat l)
    /\ l < K
    /\ searchsorted_left (cut_edges mn mx K) q = S l
    /\ ((mn < mx)%Q ->
        ((RankSpec.interval_edge mn mx K l < q)%Q \/ l = 0) /\ (q <= RankSpec.interval_edge mn mx K (S l))%Q).
Proof.
  intros HK [Hlo Hhi]. unfold cut_label.
  set (edges := cut_edges mn mx K). set (s := searchsorted_left edges q).
  destruct (cut_edges_first mn mx K) as (e0 & He0 & Hlt0); [lra|].
  destruct (cut_edges_last mn mx K) as (eK & HeK & HgeK); [lra|done|].
  pose proof (searchsorted_left_bound edges q) as Hb. fold s in Hb.
  subst edges. rewrite cut_edges_length in *.
  assert (s <> 0) as Hs0.
  { intros Hs. pose proof (searchsorted_left_at (cut_edges mn mx K) q e0) as H.
    fold s in H. rewrite Hs in H. specialize (H He0). lra. }
  assert (s <> S K) as HsK.
  { intros Hs. pose proof (searchsorted_left_below (cut_edges mn mx K) q K eK) as H.
    fold s in H. rewrite Hs in H. specialize (H ltac:(lia) HeK). lra. }
  destruct s as [|l] eqn:Es; [done|]. exists l.
  rewrite decide_False by lia. repeat split.
  - f_equal. lia.
  - lia.
  - destruct l as [|l']; [by right|left].
    apply (searchsorted_left_below (cut_edges mn mx K) q (S l')).
    + fold s. lia.
    + apply cut_edges_inner; [done|lia].
  - apply (searchsorted_left_at (cut_edges mn mx K)). fold s. rewrite Es.
    apply cut_edges_inner; [done|lia].
Qed.

Lemma present_cons_Some q (x : list (option Q)) : present (Some q :: x) = q :: present x.
Proof. done. Qed.

Lemma not_all_missing (x : list (option Q)) :
  present x <> [] -> forallb (fun v => bool_decide (v = None)) x = false.
Proof.
  intros Hp. apply not_true_iff_false. intros Hall. apply Hp.
  apply present_nil_iff. apply Forall_forall. intros v Hv.
  rewrite forallb_forall in Hall. specialize (Hall v).
  rewrite <- list_elem_of_In in Hall. apply Hall in Hv. by apply bool_decide_eq_true in Hv.
Qed.

Lemma present_length_nonzero (x : list (option Q)) : present x <> [] -> length x <> 0.
Proof. by destruct x. Qed.

Lemma nan_extrema_Some x : present x <> [] -> exists mn mx, nanmin x = Some mn /\ nanmax x = Some mx.
Proof. unfold nanmin, nanmax. destruct (present x); [done|]. eauto. Qed.

(** [cut] on data with a present entry returns equal-width labels. *)
Lemma cut_equal_width (x : list (option Q)) (bins : Z) :
  (1 <= bins)%Z -> present x <> [] ->
  exists labels, cut x bins = Ok labels
    /\ RankSpec.equal_width_labels x (Z.to_nat bins) labels.
Proof.
  intros Hb Hp. unfold cut.
  rewrite decide_False by lia.
  rewrite decide_False by (by apply present_length_nonzero).
  destruct (nan_extrema_Some x Hp) as (mn & mx & Hmn & Hmx). rewrite Hmn, Hmx.
  set (K := Z.to_nat bins). assert (0 < K) as HK by lia.
  eexists. split; [done|]. split; [by rewrite length_map|].
  exists mn, mx. repeat split; try done.
  - intros i Hi. change (map ?f ?l) with (f <$> l).
    by rewrite list_lookup_fmap, Hi.
  - intros i q Hi. change (map ?f ?l) with (f <$> l).
    rewrite list_lookup_fmap, Hi. simpl.
    assert (mn <= q <= mx)%Q as Hq.
    { eapply nan_extrema_bounds; [done..|]. by eapply list_elem_of_lookup_2. }
    destruct (cut_label_in_range mn mx K q HK Hq) as (l & Hl & HlK & _ & Hint).
    exists l. by rewrite Hl.
  - intros i j q q' l l' Hi Hj. change (map ?f ?l) with (f <$> l).
    rewrite !list_lookup_fmap, Hi, Hj. simpl. intros Hl Hl' Hqq.
    assert (mn <= q <= mx)%Q as Hq.
    { eapply nan_extrema_bounds; [done..|]. by eapply list_elem_of_lookup_2. }
    assert (mn <= q' <= mx)%Q as Hq'.
    { eapply nan_extrema_bounds; [done..|]. by eapply list_elem_of_lookup_2. }
    destruct (cut_label_in_range mn mx K q HK Hq) as (k & Hk & _ & Hs & _).
    destruct (cut_label_in_range mn mx K q' HK Hq') as (k' & Hk' & _ & Hs' & _).
    pose proof (searchsorted_left_mono (cut_edges mn mx K) q q' Hqq).
    simplify_eq. lia.
Qed.

Lemma ntile_ndarray_is_cut (x : list (option Q)) (n : Z) :
  present x <> [] ->
  _ntile_ndarray x n = cut x (Z.min n (Z.of_nat (length x))).
Proof.
  intros Hp. unfold _ntile_ndarray.
  rewrite decide_False by (by apply present_length_nonzero).
  by rewrite not_all_missing.
Qed.



Lemma ntile_GroupBy_per_group (x : SeriesGroupBy (option Q)) (n : Z) :
  (1 <= n)%Z ->
  (forall c, c ∈ x.*1 -> present (group_rows c x) <> []) ->
  exists labels,
    _ntile_GroupBy x n = Ok labels
    /\ length labels = length x
    /\ forall c, c ∈ x.*1 ->
         let grup := group_rows c x in
         cut grup (Z.min n (Z.of_nat (length grup)))
         = Ok (group_rows c (zip x.*1 labels)).
Proof.
  intros Hn Hgroups. unfold _ntile_GroupBy, transform.
  set (f := fun grup : list (option Q) => cut grup (Z.min n (Z.of_nat (length grup)))).
  assert (Hok : forall c, c ∈ x.*1 ->
            exists l, f (group_rows c x) = Ok l /\ length l = length (group_rows c x)).
  { intros c Hc. specialize (Hgroups c Hc).
    destruct (cut_equal_width (group_rows c x) (Z.min n (Z.of_nat (length (group_rows c x)))))
      as (l & Hl & Hlen & _); [|done|by exists l].
    pose proof (present_length_nonzero _ Hgroups). lia. }
  assert (raises (result_mapM (fun c => f (group_rows c x)) (group_codes x)) = false) as Hm.
  { apply result_mapM_Ok, Forall_forall. intros c Hc.
    unfold group_codes in Hc. rewrite elem_of_remove_dups in Hc.
    destruct (Hok c Hc) as (l & -> & _). done. }
  destruct (result_mapM _ _) as [bs|]; [|done]. simpl.
  eexists. split; [done|]. split; [apply per_group_length|].
  intros c Hc. cbv zeta. destruct (Hok c Hc) as (l & Hl & Hlen). fold (f (group_rows c x)).
  etrans; [exact Hl|]. f_equal.
  change (fun grp : list (option Q) => match cut grp _ with Ok l0 => l0 | Raise _ => [] end)
    with (fun grp => match f grp with Ok l0 => l0 | Raise _ => [] end).
  pose proof (per_group_slice_at None
    (fun grp => match f grp with Ok l0 => l0 | Raise _ => [] end) x c) as Hs.
  cbv beta in Hs. rewrite Hs; destruct (f (group_rows c x)); by simplify_eq.
Qed.




End ntile.

(** ** Tibble reconstruction *)

Section reconstruction.
Import Pandas Tibble Join.

Lemma intersect_elem (x y : list label) l : l ∈ intersect x y <-> l ∈ x /\ l ∈ y.
Proof. unfold intersect. rewrite list_elem_of_filter. tauto. Qed.

Lemma intersect_sublist (x y : list label) : sublist (intersect x y) x.
Proof. apply sublist_filter. Qed.

Lemma filter_none {A} (P : A -> Prop) `{!forall a, Decision (P a)} (l : list A) :
  Forall (fun a => ~ P a) l -> filter P l = [].
Proof. induction 1; [done|]. by rewrite filter_cons_False. Qed.

Lemma group_by_intersect (t : Tibble) (vars : list label) drop sort dropna :
  let gvars := intersect vars (columns (frame t)) in
  group_by t gvars drop sort dropna
  = Ok (mkTibble (frame t)
          (Grouped gvars drop sort dropna (build (frame t) gvars sort dropna))).
Proof.
  intros gvars. unfold group_by.
  rewrite filter_none; [done|].
  apply Forall_forall. intros l Hl Hn. apply intersect_elem in Hl. tauto.
Qed.

(** Reconstruction of a result that carries no grouping of its own. *)
Lemma reconstruct_plain_result (orig out : Table) :
  table_grouping out = Plain ->
  exists t,
    _reconstruct_tibble orig out = Ok t
    /\ frame t = to_frame out
    /\ match table_grouping orig with
       | Rowwise orig_vars _ =>
           kind_of t = ROWWISE
           /\ group_vars t = intersect orig_vars (columns (to_frame out))
       | Grouped orig_vars drop sort dropna _ =>
           let gvars := intersect orig_vars (columns (to_frame out)) in
           (gvars <> [] ->
            grouping_of t
            = Grouped gvars drop sort dropna (build (to_frame out) gvars sort dropna))
           /\ (gvars = [] -> kind_of t = PLAIN)
       | Plain => kind_of t = PLAIN
       end.
Proof.
  intros Hout. unfold _reconstruct_tibble.
  set (out' := match out with PyDataFrame df => as_tibble df | PyTibble t => t end).
  assert (frame out' = to_frame out) as Hf by (by destruct out).
  assert (grouping_of out' = Plain) as Hg by (by destruct out).
  destruct (table_grouping orig) as [|orig_vars drop sort dropna idx|orig_vars idx].
  - exists out'. by rewrite <- Hf; unfold kind_of; rewrite Hg.
  - rewrite <- Hf. cbv zeta.
    destruct (decide (0 < length _)) as [Hlen|Hlen].
    + rewrite group_by_intersect. eexists. split; [done|]. split; [done|].
      split; [done|]. intros Hnil. rewrite Hnil in Hlen. simpl in Hlen. lia.
    + exists out'. split; [done|]. split; [done|]. split.
      * intros Hne. destruct (intersect _ _); [done|simpl in Hlen; lia].
      * intros _. unfold kind_of. by rewrite Hg.
  - rewrite <- Hf. unfold rowwise. eexists. split; [done|]. done.
Qed.

(** C1. Reconstruction of a result table that carries no grouping of its own
    (the raw frame a verb produced, or a plain tibble): a ROWWISE source gives
    a ROWWISE result whose group variables are the source's that are columns
    of the result, in the source's order; a GROUPED source gives a result
    GROUPED over that intersection when it is not empty, with an index built
    afresh from the result under the source's sort and dropna policies (and
    its drop flag), and a PLAIN result when it is empty; a PLAIN source gives
    a PLAIN result. The result always holds the result table's data. *)
Theorem reconstruct_tibble_rule (orig out : Table) :
  table_grouping out = Plain ->
  let cols := columns (to_frame out) in
  exists t,
    _reconstruct_tibble orig out = Ok t
    /\ frame t = to_frame out
    /\ match table_grouping orig with
       | Rowwise orig_vars _ =>
           kind_of t = ROWWISE
           /\ group_vars t = intersect orig_vars cols
       | Grouped orig_vars drop sort dropna _ =>
           let gvars := intersect orig_vars cols in
           (gvars <> [] ->
            grouping_of t
            = Grouped gvars drop sort dropna (build (to_frame out) gvars sort dropna))
           /\ (gvars = [] -> kind_of t = PLAIN)
       | Plain => kind_of t = PLAIN
       end
    /\ (forall vars : list label,
          sublist (intersect vars cols) vars
          /\ forall l, l ∈ intersect vars cols <-> l ∈ vars /\ l ∈ cols).
Proof.
  intros Hout cols.
  destruct (reconstruct_plain_result orig out Hout) as (t & Ht & Hf & Hrule).
  exists t. split; [done|]. split; [done|]. split; [exact Hrule|].
  intros vars. split; [apply intersect_sublist|intros l; apply intersect_elem].
Qed.

Lemma reconstruct_tibble_rule_witness :
  exists t,
    _reconstruct_tibble (PyTibble Examples.sales_by_g) (PyDataFrame Examples.sales) = Ok t
    /\ grouping_of t
       = Grouped [LStr "g"] false false false
           (build Examples.sales [LStr "g"] false false).
Proof.
  destruct (reconstruct_tibble_rule (PyTibble Examples.sales_by_g)
              (PyDataFrame Examples.sales) eq_refl) as (t & Ht & _ & Hrule & _).
  exists t. split; [exact Ht|]. by apply Hrule.
Defined.

(** A result that is already a grouped tibble is handed back as it is when
    the source is plain: the rule above is about results without grouping. *)
Lemma reconstruct_grouped_result_kept (df : DataFrame) (t : Tibble) :
  _reconstruct_tibble (PyDataFrame df) (PyTibble t) = Ok t.
Proof. done. Qed.

Lemma reconstruct_frame (orig : Table) (ret : DataFrame) :
  exists t, _reconstruct_tibble orig (PyDataFrame ret) = Ok t /\ frame t = ret.
Proof.
  destruct (reconstruct_plain_result orig (PyDataFrame ret)) as (t & Ht & Hf & _); [done|].
  by exists t.
Qed.

Lemma length_product {A} (xs ys : list (list A)) :
  length (l ← xs; r ← ys; [l ++ r]) = length xs * length ys.
Proof.
  induction xs as [|l xs IH]; [done|].
  rewrite bind_cons, length_app, IH. simpl. f_equal.
  clear IH. induction ys as [|r ys IHy]; [done|].
  rewrite bind_cons. simpl. by rewrite IHy.
Qed.

Lemma items_overlap_Ok (lcols rcols : list label) (suffixes : string * string) :
  suffixes.1 <> ""%string \/ suffixes.2 <> ""%string \/ intersect lcols rcols = [] ->
  exists lnames rnames,
    items_overlap_with_suffix lcols rcols suffixes = Ok (lnames, rnames)
    /\ length lnames = length lcols /\ length rnames = length rcols.
Proof.
  intros Hs. unfold items_overlap_with_suffix. fold (intersect lcols rcols).
  destruct (intersect lcols rcols) as [|c cs] eqn:E; [by eauto|].
  rewrite decide_False by (intros [??]; destruct Hs as [?|[?|?]]; done).
  eexists _, _. split; [done|]. by rewrite !length_map.
Qed.

End reconstruction.

(** ** Joins *)

Section join_properties.
Import Pandas Tibble Join.

Context (io : how -> list (list cell) -> list (list cell) -> indexers).

Lemma join_cross (x y : Table) (h : how) (by_ : by_arg) (copy : bool)
    (suffix : string * string) (keep : bool) :
  by_is_empty by_ = true ->
  suffix.1 <> ""%string \/ suffix.2 <> ""%string
    \/ intersect (columns (to_frame x)) (columns (to_frame y)) = [] ->
  exists t,
    _join io x y h by_ copy suffix keep = Ok t
    /\ rows (frame t) = (l ← rows (to_frame x); r ← rows (to_frame y); [l ++ r])
    /\ nrows (frame t) = nrows (to_frame x) * nrows (to_frame y)
    /\ length (columns (frame t))
       = length (columns (to_frame x)) + length (columns (to_frame y)).
Proof.
  intros Hby Hs. unfold _join. rewrite Hby. unfold merge_cross.
  destruct (items_overlap_Ok _ _ _ Hs) as (ln & rn & -> & Hl & Hr).
  cbn [mbind result_bind].
  match goal with |- context [PyDataFrame ?r] =>
    destruct (reconstruct_frame x r) as (t & Ht & Hf) end.
  exists t. rewrite Hf. split; [exact Ht|]. split; [done|]. split.
  - unfold nrows. simpl. apply length_product.
  - simpl. rewrite length_app. lia.
Qed.

Lemma join_infers_only_None (x y : Table) (h : how) (copy : bool)
    (suffix : string * string) (keep : bool) :
  let common := intersect (columns (to_frame x)) (columns (to_frame y)) in
  (common <> [] ->
   _join io x y h ByNone copy suffix keep
   = _join io x y h (ByList common) copy suffix keep)
  /\ (common = [] -> raises (_join io x y h ByNone copy suffix keep) = true).
Proof.
  intros common. split.
  - intros Hne. unfold _join. simpl by_is_empty.
    rewrite bool_decide_eq_false_2 by done. by destruct keep.
  - intros Hnil. unfold _join. simpl by_is_empty. fold common. rewrite Hnil.
    by destruct keep.
Qed.

(** C10. A mutating join called with an explicitly empty [by] (not [None])
    is a cross join: every row of [x] is paired with every row of [y], so the
    result has [|x| * |y|] rows, whatever the join type. Keys are inferred as
    the common column names only for [by=None], which is then the same call
    as with that list; with no common column it raises instead of crossing. *)
Theorem explicit_empty_by_is_cross_join :
  (forall (x y : Table) (h : how) (by_ : by_arg) (copy : bool)
          (suffix : string * string) (keep : bool),
     by_is_empty by_ = true ->
     suffix.1 <> ""%string \/ suffix.2 <> ""%string
       \/ intersect (columns (to_frame x)) (columns (to_frame y)) = [] ->
     exists t,
       _join io x y h by_ copy suffix keep = Ok t
       /\ rows (frame t) = (l ← rows (to_frame x); r ← rows (to_frame y); [l ++ r])
       /\ nrows (frame t) = nrows (to_frame x) * nrows (to_frame y))
  /\ (forall (x y : Table) (h : how) (copy : bool)
             (suffix : string * string) (keep : bool),
        let common := intersect (columns (to_frame x)) (columns (to_frame y)) in
        (common <> [] ->
         _join io x y h ByNone copy suffix keep
         = _join io x y h (ByList common) copy suffix keep)
        /\ (common = [] -> raises (_join io x y h ByNone copy suffix keep) = true))
  /\ (forall (x y : Table) (by_ : by_arg) (copy : bool)
             (suffix : string * string) (keep : bool),
        inner_join io x y by_ copy suffix keep = _join io x y Inner by_ copy suffix keep
        /\ left_join io x y by_ copy suffix keep = _join io x y Left by_ copy suffix keep
        /\ right_join io x y by_ copy suffix keep = _join io x y Right by_ copy suffix keep
        /\ full_join io x y by_ copy suffix keep = _join io x y Outer by_ copy suffix keep).
Proof.
  split; [|split].
  - intros x y h by_ copy suffix keep Hby Hs.
    destruct (join_cross x y h by_ copy suffix keep Hby Hs) as (t & ? & ? & ? & ?).
    by exists t.
  - intros. apply join_infers_only_None.
  - done.
Qed.

(** C5, the example: [anti_join] of [{a:[1,2], b:[10,20]}] and
    [{a:[2,3], c:[99,100]}] on [a] is exactly the left row [a=1, b=10]. *)
Lemma anti_join_example :
  anti_join io (PyDataFrame Examples.left_table) (PyDataFrame Examples.right_table)
    (ByList [LStr "a"]) false
  = Ok (mkTibble (mkDataFrame [LStr "a"; LStr "b"] [[Some 1; Some 10]]%Z) Plain).
Proof. vm_compute. reflexivity. Qed.

(** C5, where the code departs from it: with the key inferred ([by=None])
    the right side is de-duplicated on all of its columns, not on the key, so
    two right rows that share a key and differ elsewhere both match, and
    [semi_join] returns the left row twice. With the key given, the same
    tables give the row once. *)
Lemma semi_join_inferred_key_duplicates :
  semi_join io (PyDataFrame Examples.one_row) (PyDataFrame Examples.two_matches)
    ByNone false
  = Ok (mkTibble (mkDataFrame [LStr "a"; LStr "b"]
                    [[Some 1; Some 10]; [Some 1; Some 10]]%Z) Plain)
  /\ semi_join io (PyDataFrame Examples.one_row) (PyDataFrame Examples.two_matches)
       (ByList [LStr "a"]) false
     = Ok (mkTibble (mkDataFrame [LStr "a"; LStr "b"] [[Some 1; Some 10]]%Z) Plain).
Proof. split; vm_compute; reflexivity. Qed.

End join_properties.

Section right_join_properties.
Import Pandas Tibble Join.

Lemma positions_elem_from (k : list cell) (keys : list (list cell)) (n i : nat) :
  i ∈ (filter (fun p => p.2 = k) (imap (fun a b => (n + a, b)) keys)).*1
  <-> exists i', i = n + i' /\ keys !! i' = Some k.
Proof.
  revert n i. induction keys as [|k' keys IH]; intros n i.
  - simpl. split; [by intros ?%elem_of_nil|]. by intros (? & _ & ?).
  - rewrite imap_cons, filter_cons. cbn [snd].
    assert (forall i, i ∈ (filter (fun p : nat * list cell => p.2 = k)
                             (imap ((fun a b => (n + a, b)) ∘ S) keys)).*1
                      <-> exists i', i = S n + i' /\ keys !! i' = Some k) as IH'.
    { intros i0. rewrite <- (IH (S n)). erewrite imap_ext; [done|].
      intros; simpl; f_equal; lia. }
    destruct (decide (k' = k)) as [->|Hne].
    + rewrite fmap_cons, elem_of_cons, IH'. cbn [fst]. split.
      * intros [->|(i' & -> & Hi')]; [exists 0|exists (S i')]; split; (lia || done).
      * intros ([|i'] & -> & Hi'); [left; lia|right; exists i'; split; [lia|done]].
    + rewrite IH'. split.
      * intros (i' & -> & Hi'). exists (S i'). split; [lia|done].
      * intros ([|i'] & -> & Hi'); simplify_eq/=. exists i'. split; [lia|done].
Qed.

Lemma positions_elem (k : list cell) (keys : list (list cell)) (i : nat) :
  i ∈ positions k keys <-> keys !! i = Some k.
Proof.
  unfold positions.
  rewrite (imap_ext pair (fun a b => (0 + a, b))) by done.
  rewrite positions_elem_from. split; [by intros (? & -> & ?)|]. intros ?. by exists i.
Qed.

Lemma positions_nil (k : list cell) (keys : list (list cell)) :
  positions k keys = [] <-> k ∉ keys.
Proof.
  split.
  - intros Hnil Hin. apply list_elem_of_lookup in Hin as [i Hi].
    apply positions_elem in Hi. rewrite Hnil in Hi. by apply elem_of_nil in Hi.
  - intros Hn. destruct (positions k keys) as [|i ps] eqn:E; [done|].
    assert (i ∈ positions k keys) as Hi by (rewrite E; left).
    apply positions_elem in Hi. destruct Hn. by eapply list_elem_of_lookup_2.
Qed.

Lemma right_block_elem lkeys j k p :
  p ∈ right_block lkeys j k <->
  p.2 = Some j
  /\ match p.1 with
     | Some i => lkeys !! i = Some k
     | None => k ∉ lkeys
     end.
Proof.
  unfold right_block. destruct (positions k lkeys) as [|i0 ps] eqn:E.
  - apply positions_nil in E. rewrite list_elem_of_singleton. destruct p as [[i|] r]; simpl.
    + split; [done|]. intros [_ Hi]. destruct E. by eapply list_elem_of_lookup_2.
    + split; [by intros [= <-]|]. by intros [-> _].
  - rewrite <- E. change (map ?f ?l) with (f <$> l). rewrite list_elem_of_fmap.
    destruct p as [[i|] r]; simpl.
    + split.
      * intros (i' & [= -> ->] & Hi'). split; [done|]. by apply positions_elem.
      * intros [-> Hi]. exists i. split; [done|]. by apply positions_elem.
    + split; [by intros (? & ? & _)|]. intros [_ Hn].
      apply positions_nil in Hn. by rewrite Hn in E.
Qed.

Lemma right_block_nonempty lkeys j k : right_block lkeys j k <> [].
Proof. unfold right_block. by destruct (positions k lkeys). Qed.

(** Column selection. *)

Lemma select_sublist {A} (mask : list bool) (l : list A) : sublist (select mask l) l.
Proof.
  revert l. induction mask as [|b mask IH]; intros [|a l]; simpl;
    try apply sublist_nil_l.
  destruct b; [by apply sublist_skip|by apply sublist_cons].
Qed.

Lemma select_app {A} (mask : list bool) (a b : list A) :
  select mask (a ++ b)
  = select (take (length a) mask) a ++ select (drop (length a) mask) b.
Proof.
  revert mask. induction a as [|x a IH]; intros mask; simpl.
  - by rewrite drop_0.
  - destruct mask as [|m mask]; simpl; [by destruct b|].
    rewrite IH. by destruct m.
Qed.

Lemma Forall_select {A} (P : A -> Prop) (mask : list bool) (l : list A) :
  Forall P l -> Forall P (select mask l).
Proof.
  intros Hl. revert mask. induction Hl as [|a l Ha _ IH]; intros [|b mask]; simpl;
    try apply Forall_nil_2.
  destruct b; [apply Forall_cons_2; [done|apply IH]|apply IH].
Qed.

Lemma fmap_mjoin {A B} (f : A -> B) (ls : list (list A)) :
  f <$> mjoin ls = mjoin (fmap f <$> ls).
Proof. induction ls as [|l ls IH]; [done|]. simpl. by rewrite fmap_app, IH. Qed.

(** The rows a right row is joined with. *)

Lemma positions_rows_from {A} (f : A -> list cell) (k : list cell) (pre l : list A) :
  omap (fun i => (pre ++ l) !! i)
       (filter (fun p => p.2 = k) (imap (fun a b => (length pre + a, b)) (f <$> l))).*1
  = filter (fun x => f x = k) l.
Proof.
  revert pre. induction l as [|x l IH]; intros pre; [done|].
  rewrite fmap_cons, imap_cons, !filter_cons. cbn [snd].
  assert (omap (fun i => (pre ++ x :: l) !! i)
            (filter (fun p : nat * list cell => p.2 = k)
               (imap ((fun a b => (length pre + a, b)) ∘ S) (f <$> l))).*1
          = filter (fun x => f x = k) l) as Hrest.
  { rewrite <- (IH (pre ++ [x])), <- app_assoc. simpl. f_equal. f_equal. f_equal.
    apply imap_ext. intros; simpl. rewrite length_app. simpl. f_equal. lia. }
  destruct (decide (f x = k)); [|done].
  rewrite fmap_cons. cbn [fst]. rewrite Nat.add_0_r.
  rewrite <- Hrest.
  change (omap ?g (?a :: ?l')) with
    (match g a with Some y => y :: omap g l' | None => omap g l' end).
  cbv beta. by rewrite list_lookup_middle.
Qed.

Lemma positions_rows {A} (f : A -> list cell) (k : list cell) (l : list A) :
  omap (fun i => l !! i) (positions k (f <$> l)) = filter (fun x => f x = k) l.
Proof.
  unfold positions. rewrite <- (positions_rows_from f k [] l). simpl.
  f_equal.
Qed.

(** The right join of the engine. *)

Lemma cell_at_from (cols : list label) (c : label) (row : list cell) :
  cell_at cols c row = None \/ cell_at cols c row ∈ row.
Proof.
  unfold cell_at. destruct (col_index c cols) as [i|]; simpl; [|by left].
  destruct (row !! i) as [v|] eqn:E; simpl; [|by left].
  right. by eapply list_elem_of_lookup_2.
Qed.

Lemma take_side_None_cells (df : DataFrame) shared ocols orow :
  Forall (fun v => v = None \/ v ∈ orow) (take_side df None shared ocols orow).
Proof.
  unfold take_side. apply Forall_forall. intros v Hv.
  change (map ?f ?l) with (f <$> l) in Hv.
  apply list_elem_of_fmap in Hv as (c & -> & _).
  destruct (decide (c ∈ shared)); [apply cell_at_from|by left].
Qed.

Lemma take_side_Some (df : DataFrame) i r shared ocols orow :
  rows df !! i = Some r -> take_side df (Some i) shared ocols orow = r.
Proof. intros Hr. unfold take_side. cbv beta iota. by rewrite Hr. Qed.

Lemma without_columns_lookup (df : DataFrame) names i r :
  rows df !! i = Some r ->
  exists mask, rows (without_columns df names) !! i = Some (select mask r).
Proof.
  intros Hr. unfold without_columns. cbn [rows].
  exists (map (fun c => bool_decide (c ∉ names)) (columns df)).
  by rewrite list_lookup_fmap, Hr.
Qed.

Section right_merge.
Context (io : how -> list (list cell) -> list (list cell) -> indexers).

Lemma merge_right_rows (left right : DataFrame) (lon ron : list label)
    (sfx : string * string) (df : DataFrame) (ind : list indicator) :
  merge_indicated io left right lon ron Right sfx = Ok (df, ind) ->
  exists blocks,
    rows df = mjoin blocks
    /\ Forall2 (fun yrow block =>
                  JoinSpec.right_rows
                    (JoinSpec.matching_rows left right lon ron yrow) yrow block)
               (rows right) blocks.
Proof.
  unfold merge_indicated. intros Hm.
  destruct lon as [|l0 lon]; [done|].
  destruct (filter _ (l0 :: lon)); [|done].
  destruct (filter _ ron); [|done].
  set (shared := (filter (fun p : label * label => p.1 = p.2) (zip (l0 :: lon) ron)).*1) in *.
  set (left' := if decide (rows left = []) then without_columns left shared else left) in *.
  set (right' := if decide (rows left = []) then right else without_columns right shared) in *.
  destruct (items_overlap_with_suffix _ _ sfx) as [[ln rn]|]; [|done].
  simpl in Hm. injection Hm as <- _. cbn [rows].
  set (asm := fun p : option nat * option nat =>
                take_side left' p.1 shared (columns right) (row_at right p.2)
                ++ take_side right' p.2 [] [] []).
  set (keyL := key_cells (columns left) (l0 :: lon)).
  set (keyR := key_cells (columns right) ron).
  change (map ?f ?l) with (f <$> l). unfold join_indexers, right_indexers.
  rewrite fmap_mjoin, fmap_imap, imap_fmap.
  eexists. split; [done|].
  apply Forall2_same_length_lookup_2; [by rewrite length_imap|].
  intros j yrow block Hy. rewrite list_lookup_imap, Hy. intros [= <-]. simpl.
  unfold JoinSpec.matching_rows. fold keyL keyR.
  rewrite <- (positions_rows keyL (keyR yrow) (rows left)).
  assert (exists ypart, take_side right' (Some j) [] [] [] = ypart /\ sublist ypart yrow)
    as (ypart & Hyp & Hsub).
  { eexists; split; [done|]. subst right'. destruct (decide (rows left = [])).
    - by rewrite (take_side_Some _ _ yrow).
    - destruct (without_columns_lookup right shared j yrow Hy) as (m & Hm').
      rewrite (take_side_Some _ _ _ _ _ _ Hm'). apply select_sublist. }
  assert (row_at right (Some j) = yrow) as Hrow by (unfold row_at; simpl; by rewrite Hy).
  assert (Forall (fun i => is_Some (rows left !! i)) (positions (keyR yrow) (keyL <$> rows left)))
    as Hvalid.
  { apply Forall_forall. intros i Hi. apply positions_elem in Hi.
    rewrite list_lookup_fmap in Hi. by destruct (rows left !! i). }
  unfold right_block. change (map keyL (rows left)) with (keyL <$> rows left).
  destruct (positions (keyR yrow) (keyL <$> rows left)) as [|i0 ps] eqn:E.
  - rewrite fmap_cons, fmap_nil. eexists. split; [done|]. unfold asm. cbn [fst snd].
    rewrite Hrow, Hyp.
    eexists _, ypart. split; [done|]. split; [apply take_side_None_cells|done].
  - assert (Forall2 (fun xrow row => JoinSpec.joined_row xrow yrow row)
              (omap (fun i => rows left !! i) (i0 :: ps))
              (asm <$> ((fun i => (Some i, Some j)) <$> (i0 :: ps)))) as HF.
    { clear E. induction Hvalid as [|i is' [xrow Hx] _ IH]; [constructor|].
      change (omap ?g (?a :: ?l')) with
        (match g a with Some y => y :: omap g l' | None => omap g l' end).
      cbv beta. rewrite Hx, !fmap_cons. constructor; [|exact IH].
      unfold asm. cbn [fst snd]. rewrite Hyp. eexists _, ypart. split; [done|]. split; [|done].
      subst left'. destruct (decide (rows left = [])) as [Hnil|_].
      - by rewrite Hnil in Hx.
      - by rewrite (take_side_Some _ _ xrow). }
    change (map ?f ?l) with (f <$> l).
    destruct (omap _ (i0 :: ps)) eqn:Eo; [|exact HF].
    apply Forall2_nil_inv_l in HF. by rewrite !fmap_cons in HF.
Qed.

End right_merge.

Lemma drop_columns_rows (df df' : DataFrame) (names : list label) :
  drop_columns df names = Ok df' ->
  exists mask, rows df' = select mask <$> rows df.
Proof.
  unfold drop_columns. destruct (filter _ names); [|done]. intros [= <-]. by eexists.
Qed.

Lemma joined_row_select (mask : list bool) xrow yrow row :
  JoinSpec.joined_row xrow yrow row -> JoinSpec.joined_row xrow yrow (select mask row).
Proof.
  intros (xpart & ypart & -> & Hx & Hy). rewrite select_app.
  eexists _, _. split; [done|].
  split; (etrans; [apply select_sublist|done]).
Qed.

Lemma unmatched_row_select (mask : list bool) yrow row :
  JoinSpec.unmatched_row yrow row -> JoinSpec.unmatched_row yrow (select mask row).
Proof.
  intros (xpart & ypart & -> & Hx & Hy). rewrite select_app.
  eexists _, _. split; [done|].
  split; [by apply Forall_select|etrans; [apply select_sublist|done]].
Qed.

Lemma right_rows_select (mask : list bool) matches yrow block :
  JoinSpec.right_rows matches yrow block ->
  JoinSpec.right_rows matches yrow (select mask <$> block).
Proof.
  unfold JoinSpec.right_rows. destruct matches as [|m ms].
  - intros (row & -> & Hrow). eexists. split; [done|]. by apply unmatched_row_select.
  - intros HF. apply Forall2_fmap_r. eapply Forall2_impl; [exact HF|].
    intros xrow row Hj. by apply joined_row_select.
Qed.

Lemma merge_operands_rows (X Y X' Y' : DataFrame) by_ suffix keep lon ron :
  merge_operands X Y by_ suffix keep = Ok (X', Y', lon, ron) ->
  rows X' = rows X /\ rows Y' = rows Y /\ (keep = false -> X' = X /\ Y' = Y).
Proof.
  unfold merge_operands. intros H.
  destruct by_ as [|l|l|d], keep; simplify_eq/=; try done.
  destruct (iterate l); by simplify_eq/=.
Qed.

Section right_join_theorem.
Context (io : how -> list (list cell) -> list (list cell) -> indexers).

Lemma join_unfold (x y : Table) (h : how) (by_ : by_arg) (copy : bool)
    (suffix : string * string) (keep : bool) :
  by_is_empty by_ = false ->
  _join io x y h by_ copy suffix keep
  = ('(X', Y', lon, ron) ← merge_operands (to_frame x) (to_frame y) by_ suffix keep;
     ret ← merge io X' Y' lon ron h suffix;
     ret ← (if drops_right_keys by_ keep then drop_columns ret ron else Ok ret);
     _reconstruct_tibble x (PyDataFrame ret)).
Proof.
  intros Hby. unfold _join, merge_operands, drops_right_keys. rewrite Hby.
  destruct by_ as [|l|l|d], keep; simpl; try done;
    try (by destruct (merge _ _ _ _ _ _ _)).
  destruct (iterate l); simpl; [|done]. by destruct (merge _ _ _ _ _ _ _).
Qed.

Lemma right_join_rows (x y : Table) (by_ : by_arg) (copy : bool)
    (suffix : string * string) (keep : bool) (t : Tibble) :
  by_is_empty by_ = false ->
  right_join io x y by_ copy suffix keep = Ok t ->
  exists X' Y' lon ron blocks,
    merge_operands (to_frame x) (to_frame y) by_ suffix keep = Ok (X', Y', lon, ron)
    /\ rows X' = rows (to_frame x) /\ rows Y' = rows (to_frame y)
    /\ rows (frame t) = mjoin blocks
    /\ Forall2 (fun yrow block =>
                  JoinSpec.right_rows
                    (JoinSpec.matching_rows X' Y' lon ron yrow) yrow block)
               (rows (to_frame y)) blocks.
Proof.
  intros Hby. unfold right_join. rewrite join_unfold by done.
  destruct (merge_operands _ _ _ _ _) as [[[[X' Y'] lon] ron]|] eqn:Hops; [|done].
  destruct (merge_operands_rows _ _ _ _ _ _ _ _ _ Hops) as (HX & HY & _).
  cbn [mbind result_bind]. unfold merge.
  destruct (merge_indicated io X' Y' lon ron Right suffix) as [[ret ind]|] eqn:Hm; [|done].
  destruct (merge_right_rows io _ _ _ _ _ _ _ Hm) as (blocks & Hrows & HF).
  rewrite HY in HF. cbn [fmap result_fmap fst mbind result_bind].
  destruct (drops_right_keys by_ keep).
  - destruct (drop_columns ret ron) as [ret'|] eqn:Hd; [|done].
    cbn [mbind result_bind]. intros Ht.
    destruct (reconstruct_frame x ret') as (t' & Ht' & Hf). rewrite Ht' in Ht.
    simplify_eq. destruct (drop_columns_rows _ _ _ Hd) as (mask & Hmask).
    exists X', Y', lon, ron, (fmap (M:=list) (select mask) <$> blocks).
    split; [done|]. split; [done|]. split; [done|]. split.
    + by rewrite Hmask, Hrows, fmap_mjoin.
    + apply Forall2_fmap_r. eapply Forall2_impl; [exact HF|].
      intros yrow block. apply right_rows_select.
  - cbn [mbind result_bind]. intros Ht.
    destruct (reconstruct_frame x ret) as (t' & Ht' & Hf). rewrite Ht' in Ht.
    simplify_eq. by exists X', Y', lon, ron, blocks.
Qed.

Lemma right_join_returns (x y : Table) (keys : list label) (copy : bool)
    (suffix : string * string) :
  keys <> [] ->
  Forall (fun k => k ∈ columns (to_frame x)) keys ->
  Forall (fun k => k ∈ columns (to_frame y)) keys ->
  suffix.1 <> ""%string \/ suffix.2 <> ""%string ->
  exists t, right_join io x y (ByList keys) copy suffix false = Ok t.
Proof.
  intros Hne Hx Hy Hs. unfold right_join.
  rewrite join_unfold by (simpl; by rewrite bool_decide_eq_false_2).
  simpl. unfold merge, merge_indicated.
  destruct keys as [|k keys]; [done|].
  rewrite (filter_none (fun k => k ∉ columns (to_frame x)))
    by (eapply Forall_impl; [exact Hx|]; intros ? ? Hn; by apply Hn).
  rewrite (filter_none (fun k => k ∉ columns (to_frame y)))
    by (eapply Forall_impl; [exact Hy|]; intros ? ? Hn; by apply Hn).
  match goal with |- context [items_overlap_with_suffix ?l ?r suffix] =>
    destruct (items_overlap_Ok l r suffix) as (ln & rn & -> & _);
      [destruct Hs; [by left|by right; left]|] end.
  simpl.
  match goal with |- context [PyDataFrame ?r] =>
    destruct (reconstruct_frame x r) as (t & Ht & _) end.
  by exists t.
Qed.


End right_join_theorem.

End right_join_properties.

Section filtering_joins.
Import Pandas Tibble Join JoinSpec.

(** Selections and filters. *)

Lemma filter_mjoin {A} (P : A -> Prop) `{!forall a, Decision (P a)} (ls : list (list A)) :
  filter P (mjoin ls) = mjoin (filter P <$> ls).
Proof. induction ls as [|l ls IH]; [done|]. simpl. by rewrite filter_app, IH. Qed.

Lemma select_fmap_filter {A B} (P : A -> Prop) `{!forall a, Decision (P a)}
    (f : A -> B) (l : list A) :
  select (map (fun a => bool_decide (P a)) l) (map f l) = map f (filter P l).
Proof.
  induction l as [|a l IH]; [done|]. simpl. rewrite filter_cons.
  destruct (decide (P a)) as [Ha|Ha].
  - rewrite bool_decide_eq_true_2 by done. simpl. by rewrite IH.
  - rewrite bool_decide_eq_false_2 by done. by rewrite IH.
Qed.

Lemma select_self_filter {A} (P : A -> Prop) `{!forall a, Decision (P a)} (l : list A) :
  select (map (fun a => bool_decide (P a)) l) l = filter P l.
Proof.
  rewrite <- (map_id l) at 2. rewrite select_fmap_filter. apply map_id.
Qed.

Lemma mjoin_filter_singletons {A} (P : A -> Prop) `{!forall a, Decision (P a)} (l : list A) :
  mjoin (map (fun a => if decide (P a) then [a] else []) l) = filter P l.
Proof.
  induction l as [|a l IH]; [done|]. simpl. rewrite filter_cons, IH.
  by destruct (decide (P a)).
Qed.

Lemma filter_eq_NoDup (n : label) (l : list label) :
  NoDup l -> n ∈ l -> filter (fun c => c = n) l = [n].
Proof.
  induction 1 as [|a l Ha Hl IH]; intros Hn; [by apply elem_of_nil in Hn|].
  rewrite filter_cons. destruct (decide (a = n)) as [->|Hne].
  - f_equal. apply filter_none. apply Forall_forall. by intros c Hc ->.
  - apply IH. apply elem_of_cons in Hn as [->|?]; done.
Qed.

Lemma filter_eq_absent (n : label) (l : list label) :
  n ∉ l -> filter (fun c => c = n) l = [].
Proof. intros Hn. apply filter_none, Forall_forall. by intros c Hc ->. Qed.

Lemma pick_columns (cols names : list label) :
  (forall n, n ∈ names -> filter (fun c => c = n) cols = [n]) ->
  mjoin (map (fun n => filter (fun c => c = n) cols) names) = names.
Proof.
  induction names as [|n names IH]; intros H; [done|]. simpl.
  rewrite H by left. simpl. f_equal. apply IH. intros; apply H; by right.
Qed.

Lemma select_none {A} (mask : list bool) (l : list A) :
  Forall (fun b => b = false) mask -> select mask l = [].
Proof.
  intros H. revert l. induction H as [|b mask -> _ IH]; intros [|a l]; simpl; done.
Qed.

Lemma pick_row_self (cols : list label) (r : list cell) :
  NoDup cols -> length r = length cols ->
  mjoin (map (fun n => select (map (fun c => bool_decide (c = n)) cols) r) cols) = r.
Proof.
  intros Hnd. revert r. induction Hnd as [|a cols Ha Hnd IH]; intros [|v r] Hlen;
    simplify_eq/=; [done|].
  rewrite bool_decide_eq_true_2 by done.
  rewrite select_none; cycle 1.
  { apply Forall_forall. intros b Hb. apply list_elem_of_In, in_map_iff in Hb as (c & <- & Hc).
    apply bool_decide_eq_false_2. intros ->. by apply list_elem_of_In in Hc. }
  simpl. f_equal. etrans; [|by apply (IH r)]. f_equal.
  change (map ?f ?l) with (f <$> l). apply list_fmap_ext. intros i n Hn. simpl.
  rewrite bool_decide_eq_false_2; [done|].
  intros ->. apply Ha. by eapply list_elem_of_lookup_2.
Qed.

Lemma pick_row_left (cols extra : list label) (r ypart : list cell) :
  NoDup cols -> length r = length cols -> Forall (fun c => c ∉ cols) extra ->
  mjoin (map (fun n => select (map (fun c => bool_decide (c = n)) (cols ++ extra))
                              (r ++ ypart)) cols) = r.
Proof.
  intros Hnd Hlen Hextra. etrans; [|by apply (pick_row_self cols r)]. f_equal.
  change (map ?f ?l) with (f <$> l). apply list_fmap_ext. intros i n Hn.
  cbv beta. rewrite select_app, fmap_app.
  rewrite take_app_length' by (by rewrite length_fmap).
  rewrite drop_app_length' by (by rewrite length_fmap).
  rewrite (select_none (_ <$> extra)); [by rewrite app_nil_r|].
  apply Forall_fmap. eapply Forall_impl; [exact Hextra|]. intros c Hc. simpl.
  apply bool_decide_eq_false_2. intros ->. apply Hc. by eapply list_elem_of_lookup_2.
Qed.

(** The column labels of a merge under the suffixes [("", "_y")]. *)

Lemma items_overlap_semi (Lc Rc : list label) :
  exists lnames rnames,
    items_overlap_with_suffix Lc Rc (""%string, "_y"%string) = Ok (lnames, rnames)
    /\ lnames = map (fun c => if decide (c ∈ Lc /\ c ∈ Rc) then label_append c "" else c) Lc
    /\ rnames = map (fun c => if decide (c ∈ Lc /\ c ∈ Rc) then label_append c "_y" else c) Rc.
Proof.
  unfold items_overlap_with_suffix.
  assert (Hin : forall c, c ∈ filter (fun c => c ∈ Rc) Lc <-> c ∈ Lc /\ c ∈ Rc)
    by (intros c; rewrite list_elem_of_filter; tauto).
  destruct (filter (fun c => c ∈ Rc) Lc) as [|a t] eqn:E.
  - eexists _, _. split; [done|].
    change (map ?f ?l) with (f <$> l).
    split; (etrans; [symmetry; apply list_fmap_id|]); apply list_fmap_ext;
      intros i c _; simpl; rewrite decide_False; try done;
      intros H%Hin; by apply elem_of_nil in H.
  - rewrite decide_False by (by intros [_ ?]).
    eexists _, _. split; [done|]. cbn [fst snd].
    change (map ?f ?l) with (f <$> l).
    split; apply list_fmap_ext; intros i c _; simpl; apply decide_ext, Hin.
Qed.

Lemma filter_eq_fmap (f : label -> label) (n : label) (l : list label) :
  (forall c, c ∈ l -> f c = n <-> c = n) ->
  filter (fun c => c = n) (map f l) = filter (fun c => c = n) l.
Proof.
  induction l as [|a l IH]; intros H; [done|]. simpl. rewrite !filter_cons.
  rewrite IH by (intros; apply H; by right).
  pose proof (H a ltac:(left)) as Ha.
  destruct (decide (f a = n)) as [E|E], (decide (a = n)) as [E'|E']; try done.
  - congruence.
  - by apply Ha in E.
  - by apply Ha in E'.
Qed.

Lemma renamed_columns (colsX Lc Rc : list label) :
  NoDup Rc ->
  (forall c, c ∈ Lc -> c ∈ Rc ->
             label_append c "" = c /\ label_append c "_y" ∉ colsX) ->
  let ren (sfx : string) (c : label) :=
    if decide (c ∈ Lc /\ c ∈ Rc) then label_append c sfx else c in
  map (ren ""%string) Lc = Lc
  /\ (forall n, n ∈ colsX -> n ∈ Lc -> n ∉ map (ren "_y"%string) Rc)
  /\ (forall n, n ∈ colsX -> n ∉ Lc -> n ∈ Rc ->
        filter (fun c => c = n) (map (ren "_y"%string) Rc) = [n]).
Proof.
  intros HndR Hsafe ren. split; [|split].
  - change (map ?f ?l) with (f <$> l).
    etrans; [|apply list_fmap_id]. apply list_fmap_ext. intros i c Hc. simpl.
    unfold ren. destruct (decide _) as [[H1 H2]|]; [|done]. by apply Hsafe.
  - intros n HnX HnL Hin. change (map ?f ?l) with (f <$> l) in Hin.
    apply list_elem_of_fmap in Hin as (c & -> & Hc). unfold ren in *.
    destruct (decide _) as [[H1 H2]|Hno].
    + by apply (Hsafe c H1 H2).
    + apply Hno. by split.
  - intros n HnX HnL HnR. rewrite filter_eq_fmap; [by apply filter_eq_NoDup|].
    intros c Hc. unfold ren. destruct (decide _) as [[H1 H2]|Hno].
    + split; [|by intros ->]. intros E. destruct (Hsafe c H1 H2) as [_ Hy].
      by rewrite E in Hy.
    + done.
Qed.

Lemma without_columns_columns (df : DataFrame) (names : list label) :
  columns (without_columns df names) = filter (fun c => c ∉ names) (columns df).
Proof. unfold without_columns. cbn [columns]. apply select_self_filter. Qed.

Lemma shared_by_name_elem (lon ron : list label) (n : label) :
  n ∈ shared_by_name lon ron -> n ∈ lon /\ n ∈ ron.
Proof.
  unfold shared_by_name. intros Hn.
  apply list_elem_of_fmap in Hn as ([a b] & -> & Hp).
  apply list_elem_of_filter in Hp as [Heq Hz]. simpl in *. subst b.
  split; [by eapply elem_of_zip_l|by eapply elem_of_zip_r].
Qed.

(** Matches of a left row, and the keys left by [drop_duplicates]. *)

Lemma positions_NoDup (k : list cell) (keys : list (list cell)) : NoDup (positions k keys).
Proof.
  unfold positions. apply NoDup_fmap_fst.
  - intros i k1 k2 H1 H2.
    apply list_elem_of_filter in H1 as [_ H1]. apply list_elem_of_filter in H2 as [_ H2].
    apply list_elem_of_lookup in H1 as [a H1]. apply list_elem_of_lookup in H2 as [b H2].
    rewrite list_lookup_imap in H1, H2.
    destruct (keys !! a) eqn:Ea, (keys !! b) eqn:Eb; simplify_eq/=. congruence.
  - apply NoDup_filter. apply NoDup_alt. intros a b p Ha Hb.
    rewrite list_lookup_imap in Ha, Hb.
    destruct (keys !! a), (keys !! b); by simplify_eq/=.
Qed.

Lemma positions_unique (k : list cell) (keys : list (list cell)) :
  NoDup keys -> k ∈ keys -> exists j, positions k keys = [j].
Proof.
  intros Hnd Hk. pose proof (positions_NoDup k keys) as Hp.
  destruct (positions k keys) as [|a [|b l]] eqn:E.
  - apply positions_nil in E. done.
  - by exists a.
  - assert (a ∈ positions k keys) as Ha by (rewrite E; left).
    assert (b ∈ positions k keys) as Hb by (rewrite E; right; left).
    apply positions_elem in Ha, Hb.
    assert (a = b) by (eapply (proj1 (NoDup_alt keys) Hnd); eassumption).
    subst b. apply NoDup_cons in Hp as [Hp _]. destruct Hp. left.
Qed.

Lemma left_block_fst rkeys i k : Forall (fun p => p.1 = Some i) (left_block rkeys i k).
Proof.
  unfold left_block. destruct (positions k rkeys); [by repeat constructor|].
  change (map ?f ?l) with (f <$> l). apply Forall_fmap. by apply Forall_true.
Qed.

Lemma left_block_unmatched rkeys i k :
  filter (fun p => indicator_of p <> Both) (left_block rkeys i k)
  = if decide (k ∈ rkeys) then [] else [(Some i, None)].
Proof.
  unfold left_block. destruct (positions k rkeys) as [|j js] eqn:E.
  - apply positions_nil in E. by rewrite decide_False.
  - rewrite decide_True; cycle 1.
    { destruct (decide (k ∈ rkeys)) as [|Hn]; [done|].
      apply positions_nil in Hn. by rewrite Hn in E. }
    apply filter_none. change (map ?f ?l) with (f <$> l).
    apply Forall_fmap, Forall_true. intros j'. simpl. tauto.
Qed.

Lemma left_block_matched rkeys i k :
  NoDup rkeys ->
  length (filter (fun p => indicator_of p = Both) (left_block rkeys i k))
  = if decide (k ∈ rkeys) then 1 else 0.
Proof.
  intros Hnd. unfold left_block. destruct (decide (k ∈ rkeys)) as [Hk|Hk].
  - destruct (positions_unique k rkeys Hnd Hk) as [j ->]. done.
  - apply positions_nil in Hk. by rewrite Hk.
Qed.

Lemma drop_duplicate_rows_keys (cols subset : list label) (seen : list (list cell))
    (rs : list (list cell)) :
  let keys := key_cells cols subset <$> drop_duplicate_rows cols subset seen rs in
  NoDup keys
  /\ forall k, k ∈ keys <-> k ∈ key_cells cols subset <$> rs /\ k ∉ seen.
Proof.
  revert seen. induction rs as [|r rs IH]; intros seen; cbv zeta in *;
    cbn [drop_duplicate_rows].
  - rewrite fmap_nil. split; [constructor|]. intros k. rewrite elem_of_nil. tauto.
  - destruct (decide (key_cells cols subset r ∈ seen)) as [Hs|Hs].
    + destruct (IH seen) as [Hnd Hk]. split; [done|].
      intros k. rewrite Hk, fmap_cons, elem_of_cons. split; [tauto|].
      intros [[->|?] ?]; done.
    + destruct (IH (key_cells cols subset r :: seen)) as [Hnd Hk].
      rewrite fmap_cons. split.
      * apply NoDup_cons. split; [|done]. rewrite Hk, not_elem_of_cons. tauto.
      * intros k. rewrite fmap_cons, !elem_of_cons, Hk, not_elem_of_cons.
        destruct (decide (k = key_cells cols subset r)) as [->|]; tauto.
Qed.

Section filtering_join_theorems.
Context (io : how -> list (list cell) -> list (list cell) -> indexers).

Lemma merge_left_loc (X Y : DataFrame) (lon ron : list label) (name : string)
    (on : merge_on) (Q : indicator -> Prop) `{!forall m, Decision (Q m)} :
  on = On lon /\ ron = lon \/ on = OnLeftRight lon ron ->
  lon <> [] ->
  Forall (fun k => k ∈ columns X) lon -> Forall (fun k => k ∈ columns Y) ron ->
  NoDup (columns X) -> NoDup (columns Y) -> well_formed X ->
  Forall (fun l => l ∉ columns X ++ columns Y)
         [LStr "_left_indicator"; LStr "_right_indicator"; LStr name] ->
  suffix_safe X Y (shared_by_name lon ron) ->
  exists ret merged,
    merge_left_on io X Y name on = Ok (ret, merged)
    /\ loc ret (map (fun m => bool_decide (Q m)) merged) (columns X)
       = Ok (mkDataFrame (columns X)
               (mjoin (imap (fun i r =>
                               (fun _ => r) <$>
                                 filter (fun p => Q (indicator_of p))
                                   (left_block (map (key_cells (columns Y) ron) (rows Y)) i
                                      (key_cells (columns X) lon r)))
                            (rows X)))).
Proof.
  intros Hon Hne HlX HrY HndX HndY Hwf Hnames Hsafe.
  apply Forall_cons in Hnames as [Hn1 Hnames].
  apply Forall_cons in Hnames as [Hn2 Hnames].
  apply Forall_cons in Hnames as [Hn3 _].
  unfold merge_left_on.
  rewrite decide_False by (by intros [?|?]).
  rewrite decide_False by done.
  assert (match on with
          | OnNothing => common ← common_columns X Y; Ok (common, common)
          | OnLeftRight l r => Ok (l, r)
          | On names => Ok (names, names)
          end = Ok (lon, ron)) as -> by (by destruct Hon as [[-> ->]| ->]).
  cbn [mbind result_bind].
  unfold merge_indicated.
  destruct lon as [|l0 lon]; [done|].
  rewrite (filter_none (fun k => k ∉ columns X))
    by (eapply Forall_impl; [exact HlX|]; intros ? ? Hn; by apply Hn).
  rewrite (filter_none (fun k => k ∉ columns Y))
    by (eapply Forall_impl; [exact HrY|]; intros ? ? Hn; by apply Hn).
  fold (shared_by_name (l0 :: lon) ron).
  set (shared := shared_by_name (l0 :: lon) ron) in *.
  set (left' := if decide (rows X = []) then without_columns X shared else X).
  set (right' := if decide (rows X = []) then Y else without_columns Y shared).
  destruct (items_overlap_semi (columns left') (columns right'))
    as (ln & rn & -> & Hln & Hrn).
  cbn [mbind result_bind]. eexists _, _. split; [done|].
  assert (Hsafe' : forall c, c ∈ columns X -> c ∈ columns Y -> c ∉ shared ->
             label_append c "" = c /\ label_append c "_y" ∉ columns X).
  { intros c Hc. unfold suffix_safe in Hsafe. rewrite Forall_forall in Hsafe.
    by apply Hsafe. }
  assert (Hcols : (forall n, n ∈ columns X -> filter (fun c => c = n) (ln ++ rn) = [n])
                  /\ (rows X <> [] -> ln = columns X /\ Forall (fun c => c ∉ columns X) rn)).
  { subst left' right'. destruct (decide (rows X = [])) as [Hnil|Hnn].
    - rewrite without_columns_columns in Hln, Hrn.
      destruct (renamed_columns (columns X)
                  (filter (fun c => c ∉ shared) (columns X)) (columns Y) HndY)
        as (H1 & H2 & H3).
      { intros c [Hs Hc]%list_elem_of_filter HcY. by apply Hsafe'. }
      rewrite H1 in Hln. rewrite <- Hrn in H2, H3. split; [|done].
      intros n Hn. rewrite filter_app.
      destruct (decide (n ∈ shared)) as [Hs|Hs].
      + assert (n ∉ ln) as HnL by (rewrite Hln, list_elem_of_filter; tauto).
        rewrite (filter_eq_absent n ln) by done.
        rewrite H3; [done|done|by rewrite <- Hln|].
        apply shared_by_name_elem in Hs as [_ Hs].
        rewrite Forall_forall in HrY. by apply HrY.
      + assert (n ∈ ln) as HnL by (rewrite Hln, list_elem_of_filter; tauto).
        rewrite (filter_eq_NoDup n ln); [|rewrite Hln; by apply NoDup_filter|done].
        rewrite (filter_eq_absent n rn); [done|]. apply H2; [done|by rewrite <- Hln].
    - rewrite without_columns_columns in Hln, Hrn.
      destruct (renamed_columns (columns X) (columns X)
                  (filter (fun c => c ∉ shared) (columns Y)))
        as (H1 & H2 & H3).
      { by apply NoDup_filter. }
      { intros c Hc [Hs HcY]%list_elem_of_filter. by apply Hsafe'. }
      rewrite H1 in Hln. rewrite <- Hrn in H2, H3.
      assert (Forall (fun c => c ∉ columns X) rn) as Hrn'.
      { apply Forall_forall. intros c Hc Hin. by apply (H2 c Hin Hin). }
      split; [|done].
      intros n Hn. rewrite filter_app, Hln.
      rewrite (filter_eq_NoDup n (columns X)) by done.
      rewrite (filter_eq_absent n rn); [done|]. by apply H2. }
  destruct Hcols as [Hcols Hfull].
  unfold loc. cbn [columns rows].
  rewrite (filter_none (fun n => n ∉ ln ++ rn)); cycle 1.
  { apply Forall_forall. intros n Hn Hno. specialize (Hcols n Hn).
    assert (n ∈ filter (fun c => c = n) (ln ++ rn)) as Hin by (rewrite Hcols; left).
    apply list_elem_of_filter in Hin as [_ Hin]. done. }
  rewrite pick_columns by done. f_equal. f_equal.
  rewrite !map_map, select_fmap_filter, map_map.
  cbn [join_indexers]. unfold left_indexers.
  change (map ?f ?l) with (f <$> l).
  rewrite filter_mjoin, fmap_mjoin, !fmap_imap, imap_fmap.
  f_equal. apply imap_ext. intros i r Hr. cbn [compose].
  destruct Hfull as [-> Hrn']; [by intros Hnil; rewrite Hnil in Hr|].
  apply list_fmap_ext. intros j [p1 p2] Hp.
  apply list_elem_of_lookup_2, list_elem_of_filter in Hp as [_ Hp].
  pose proof (left_block_fst ((key_cells (columns Y) ron) <$> rows Y) i
                (key_cells (columns X) (l0 :: lon) r)) as Hfst.
  rewrite Forall_forall in Hfst. specialize (Hfst _ Hp). simpl in Hfst. subst p1.
  cbn [fst snd]. subst left'.
  rewrite decide_False by (by intros Hnil; rewrite Hnil in Hr).
  rewrite (take_side_Some _ _ r) by done.
  apply pick_row_left; [done| |done].
  unfold well_formed in Hwf. rewrite Forall_forall in Hwf. apply Hwf.
  by eapply list_elem_of_lookup_2.
Qed.


(** The filtering joins select the rows of [x] by key. *)
Lemma filtering_joins_by_key (x y : Table) (by_ : by_arg) (copy : bool) :
  let X := to_frame x in
  let Y := to_frame y in
  let lon := (key_columns by_).1 in
  let ron := (key_columns by_).2 in
  lon <> [] ->
  Forall (fun k => k ∈ columns X) lon -> Forall (fun k => k ∈ columns Y) ron ->
  NoDup (columns X) -> NoDup (columns Y) -> well_formed X ->
  Forall (fun l => l ∉ columns X ++ columns Y)
         [LStr "_left_indicator"; LStr "_right_indicator";
          LStr "__merge__"; LStr "_merge"] ->
  suffix_safe X Y (shared_by_name lon ron) ->
  semi_join io x y by_ copy
  = _reconstruct_tibble x
      (PyDataFrame (mkDataFrame (columns X) (filter (matched X Y lon ron) (rows X))))
  /\ anti_join io x y by_ copy
     = _reconstruct_tibble x
         (PyDataFrame
            (mkDataFrame (columns X)
               (filter (fun r => ~ matched X Y lon ron r) (rows X)))).
Proof.
  intros X Y lon ron Hne HlX HrY HndX HndY Hwf Hnames Hsafe.
  assert (Hon : _merge_on by_ = On lon /\ ron = lon
                \/ _merge_on by_ = OnLeftRight lon ron)
    by (subst lon ron; destruct by_; simpl; auto; done).
  assert (Hright : match _merge_on by_ with
                   | OnLeftRight _ r => r
                   | On names => names
                   | OnNothing => columns Y
                   end = ron)
    by (destruct Hon as [[-> ->]| ->]; done).
  apply Forall_cons in Hnames as [Hn1 Hnames].
  apply Forall_cons in Hnames as [Hn2 Hnames].
  apply Forall_cons in Hnames as [Hn3 Hnames].
  apply Forall_cons in Hnames as [Hn4 _].
  split.
  - unfold semi_join. fold X Y. rewrite Hright. unfold drop_duplicates.
    rewrite (filter_none (fun k => k ∉ columns Y))
      by (eapply Forall_impl; [exact HrY|]; intros ? ? Hn; by apply Hn).
    cbn [mbind result_bind].
    set (Y' := mkDataFrame (columns Y) (drop_duplicate_rows (columns Y) ron [] (rows Y))).
    destruct (merge_left_loc X Y' lon ron "__merge__" (_merge_on by_)
                (fun m => m = Both)) as (ret & merged & Hm & Hl); try done.
    { by repeat constructor. }
    rewrite Hm. cbn [mbind result_bind]. rewrite Hl. cbn [mbind result_bind].
    do 3 f_equal. rewrite <- mjoin_filter_singletons. f_equal.
    change (map ?f ?l) with (f <$> l).
    etrans; [|apply (imap_const (fun r => if decide (matched X Y lon ron r) then [r] else []))].
    apply imap_ext. intros i r _. unfold const. cbn [columns rows Y'].
    destruct (drop_duplicate_rows_keys (columns Y) ron [] (rows Y)) as [Hnd Hk].
    pose proof (left_block_matched _ i (key_cells (columns X) lon r) Hnd) as Hlen.
    assert (key_cells (columns X) lon r
              ∈ key_cells (columns Y) ron <$> drop_duplicate_rows (columns Y) ron [] (rows Y)
            <-> matched X Y lon ron r) as Hiff.
    { rewrite Hk. unfold matched. change (map ?f ?l) with (f <$> l).
      split; [tauto|]. intros ?. split; [done|]. apply not_elem_of_nil. }
    destruct (filter _ (left_block _ i _)) as [|p [|q l]]; simpl in Hlen;
      destruct (decide (matched X Y lon ron r)) as [Hmt|Hmt];
      destruct (decide (_ ∈ _)) as [Hin|Hin]; try done; tauto.
  - unfold anti_join. fold X Y.
    destruct (merge_left_loc X Y lon ron "_merge" (_merge_on by_)
                (fun m => m <> Both)) as (ret & merged & Hm & Hl); try done.
    { by repeat constructor. }
    rewrite Hm. cbn [mbind result_bind]. rewrite Hl. cbn [mbind result_bind].
    do 3 f_equal. rewrite <- mjoin_filter_singletons. f_equal.
    change (map ?f ?l) with (f <$> l).
    etrans; [|apply (imap_const (fun r => if decide (~ matched X Y lon ron r) then [r] else []))].
    apply imap_ext. intros i r _. unfold const.
    rewrite left_block_unmatched. unfold matched.
    change (map ?f ?l) with (f <$> l).
    destruct (decide (_ ∈ _)) as [Hin|Hin].
    + by rewrite decide_False by tauto.
    + by rewrite decide_True.
Qed.

(** X6 (C5, where it holds). With the key columns given ([by] a label, a list
    or a dict) and present, [semi_join] returns exactly the rows of [x] whose
    key is the key of some row of [y], and [anti_join] exactly those whose key
    is not, in the order of [x], each once and with the columns of [x]. *)
Theorem semi_anti_join_on_keys (x y : Table) (by_ : by_arg) (copy : bool) :
  let X := to_frame x in
  let Y := to_frame y in
  let lon := (key_columns by_).1 in
  let ron := (key_columns by_).2 in
  lon <> [] ->
  Forall (fun k => k ∈ columns X) lon -> Forall (fun k => k ∈ columns Y) ron ->
  NoDup (columns X) -> NoDup (columns Y) -> well_formed X ->
  Forall (fun l => l ∉ columns X ++ columns Y)
         [LStr "_left_indicator"; LStr "_right_indicator";
          LStr "__merge__"; LStr "_merge"] ->
  suffix_safe X Y (shared_by_name lon ron) ->
  semi_join io x y by_ copy
  = _reconstruct_tibble x
      (PyDataFrame (mkDataFrame (columns X) (filter (matched X Y lon ron) (rows X))))
  /\ anti_join io x y by_ copy
     = _reconstruct_tibble x
         (PyDataFrame
            (mkDataFrame (columns X)
               (filter (fun r => ~ matched X Y lon ron r) (rows X)))).
Proof. exact (filtering_joins_by_key x y by_ copy). Qed.

End filtering_join_theorems.

End filtering_joins.

Section join_witnesses.
Import Pandas Tibble Join.

Lemma explicit_empty_by_is_cross_join_witness :
  exists t,
    _join Examples.reference_indexers (PyDataFrame Examples.left_table) (PyDataFrame Examples.right_table)
      Right (ByList []) false default_suffix false = Ok t
    /\ nrows (frame t) = 2 * 2.
Proof.
  destruct (proj1 (explicit_empty_by_is_cross_join Examples.reference_indexers)
              (PyDataFrame Examples.left_table) (PyDataFrame Examples.right_table)
              Right (ByList []) false default_suffix false eq_refl)
    as (t & Ht & _ & Hn); [by left|].
  by exists t.
Defined.



(** The filtering joins on the key [a], through [semi_anti_join_on_keys]:
    the left row that two right rows match comes out once, and [anti_join]
    of [{a:[1,2], b:[10,20]}] and [{a:[2,3], c:[99,100]}] is the row
    [a=1, b=10]. *)
Lemma semi_anti_join_on_keys_example :
  semi_join Examples.reference_indexers
    (PyDataFrame Examples.one_row) (PyDataFrame Examples.two_matches)
    (ByList [LStr "a"]) false
  = Ok (mkTibble (mkDataFrame [LStr "a"; LStr "b"] [[Some 1; Some 10]]%Z) Plain)
  /\ anti_join Examples.reference_indexers
       (PyDataFrame Examples.left_table) (PyDataFrame Examples.right_table)
       (ByList [LStr "a"]) false
     = Ok (mkTibble (mkDataFrame [LStr "a"; LStr "b"] [[Some 1; Some 10]]%Z) Plain).
Proof.
  split.
  - destruct (semi_anti_join_on_keys Examples.reference_indexers
                (PyDataFrame Examples.one_row) (PyDataFrame Examples.two_matches)
                (ByList [LStr "a"]) false) as [-> _];
      try (by apply (bool_decide_unpack _)); done.
  - destruct (semi_anti_join_on_keys Examples.reference_indexers
                (PyDataFrame Examples.left_table) (PyDataFrame Examples.right_table)
                (ByList [LStr "a"]) false) as [_ ->];
      try (by apply (bool_decide_unpack _)); done.
Defined.

End join_witnesses.

(** ** The group-preserving copy *)

Section grouped_copy.
Import Pandas Grouped.

Lemma from_groupby_attrs_keys c grouped vars h w key :
  from_groupby c grouped vars h = Ok w ->
  key ∉ ["_grouped"; "_group_vars"; "_html_footer"; "_str_footer"]%string ->
  attrs w !! key = None.
Proof.
  unfold from_groupby. intros Hw Hkey.
  rewrite !not_elem_of_cons in Hkey. destruct Hkey as (? & ? & ? & ? & _).
  assert (forall a1 a2 a3 a4,
            (<["_grouped"%string := a1]>
               (<["_group_vars"%string := a2]>
                  (<["_html_footer"%string := a3]>
                     (<["_str_footer"%string := a4]> (∅ : gmap string attr))))) !! key
            = None) as Hnone.
  { intros. by rewrite !lookup_insert_ne, lookup_empty. }
  destruct grouped as [g|w0].
  - destruct (groupbys h !! g ≫= _) as [[gb df]|]; [|done].
    simplify_eq. apply Hnone.
  - destruct (lookup_attr w0 "_grouped") as [a1|]; [|done]. simpl in Hw.
    destruct (lookup_attr w0 "_group_vars") as [a2|]; [|done]. simpl in Hw.
    destruct (lookup_attr w0 "_html_footer") as [a3|]; [|done]. simpl in Hw.
    destruct (lookup_attr w0 "_str_footer") as [a4|]; [|done]. simpl in Hw.
    simplify_eq. apply Hnone.
Qed.

(** C3, what the code does. The guard of [copy] looks for the key
    ["_grouepd"], which [from_groupby] never sets, so every copy of a wrapper
    goes through the inherited frame copy: shallow or deep, the copy keeps the
    very group-by object of the original. A deep copy owns a fresh data block
    and still answers group queries from the original's frame. *)
Theorem copy_keeps_group_index c g vars h self deep :
  from_groupby c (OfGroupBy g) vars h = Ok self ->
  exists out h',
    copy self deep h = Ok (out, h')
    /\ group_index_of out = Some g
    /\ group_index_of out = group_index_of self
    /\ indexed_frame out h' = Some (data self)
    /\ (deep = true -> data out <> data self /\ indexed_frame out h' <> Some (data out))
    /\ (deep = false -> data out = data self).
Proof.
  intros Hself.
  pose proof (from_groupby_attrs_keys _ _ _ _ _ "_grouepd"%string Hself) as Hkey.
  unfold copy. rewrite decide_True
    by (apply Hkey; rewrite !not_elem_of_cons; repeat split; try done; apply not_elem_of_nil).
  clear Hkey. unfold from_groupby in Hself.
  destruct (groupbys h !! g) as [gb|] eqn:Hg; [|done]. simpl in Hself.
  destruct (frames h !! obj gb) as [df|] eqn:Hdf; [|done]. simpl in Hself.
  pose proof (lookup_lt_Some _ _ _ Hdf) as Hlt.
  assert (group_index_of self = Some g) as Hidx.
  { simplify_eq. unfold group_index_of. simpl. by rewrite lookup_insert_eq. }
  assert (data self = obj gb) as Hdata by (by simplify_eq).
  clear Hself. unfold frame_copy, indexed_frame, group_index_of in *.
  destruct deep.
  - rewrite Hdata, Hdf. eexists _, _. split; [done|]. cbn [attrs data alloc_frame].
    destruct (attrs self !! "_grouped"%string) as [[]|]; simplify_eq.
    cbn [mbind option_bind groupbys]. rewrite Hg.
    repeat split; try done; intros ?; simplify_eq/=; lia.
  - eexists _, _. split; [done|]. cbn [attrs data].
    destruct (attrs self !! "_grouped"%string) as [[]|]; simplify_eq.
    cbn [mbind option_bind]. rewrite Hg. by rewrite Hdata.
Qed.

Lemma copy_keeps_group_index_witness :
  exists self out h',
    from_groupby DatarGroupBy (OfGroupBy 0) None Examples.sales_store = Ok self
    /\ copy self true Examples.sales_store = Ok (out, h')
    /\ group_index_of out = group_index_of self
    /\ indexed_frame out h' = Some (data self)
    /\ data out <> data self.
Proof.
  assert (exists self,
            from_groupby DatarGroupBy (OfGroupBy 0) None Examples.sales_store = Ok self)
    as [self Hself] by (eexists; reflexivity).
  destruct (copy_keeps_group_index _ _ _ _ self true Hself)
    as (out & h' & Hcopy & _ & Hidx & Hframe & Hdeep & _).
  exists self, out, h'. repeat split; try done. by apply Hdeep.
Defined.

End grouped_copy.

(** ** The column-name matchers *)

Section matcher_properties.
Import Pandas Funcs.
Context {Data : Type} (arithmetize : Data -> DataFrame).

Lemma all_of_nonexists_empty (cols x : list label) :
  (list_to_set x ∖ list_to_set cols : gset label) = ∅ <->
  Forall (fun elem => elem ∈ cols) x.
Proof.
  rewrite Forall_forall. split.
  - intros He elem Hin.
    destruct (decide (elem ∈ cols)) as [|Hn]; [done|].
    assert (elem ∈ (list_to_set x ∖ list_to_set cols : gset label)) as Hd
      by (apply elem_of_difference; split; set_solver).
    rewrite He in Hd. set_solver.
  - intros Hall. apply set_eq. intros elem.
    rewrite elem_of_difference, !elem_of_list_to_set.
    split; [|set_solver]. intros [Hx Hn]. destruct Hn. by apply Hall.
Qed.

(** C9. The strict matcher [all_of] raises the unknown-column error exactly
    when some requested name is not a column of the table (and otherwise
    returns the request unchanged); the permissive matcher [any_of] never
    raises: it returns the requested names that exist, in request order, and
    the empty selection when none of them exists. *)
Theorem all_of_strict_any_of_permissive (_data : Data) (x : list label) :
  let cols := columns (arithmetize _data) in
  ((exists elem, elem ∈ x /\ elem ∉ cols) <->
     exists missing, missing <> ∅ /\
       all_of arithmetize _data x = Raise (ColumnNotExistingError missing))
  /\ (Forall (fun elem => elem ∈ cols) x <-> all_of arithmetize _data x = Ok x)
  /\ raises (any_of arithmetize _data x None) = false
  /\ any_of arithmetize _data x None = Ok (filter (fun elem => elem ∈ cols) x)
  /\ (Forall (fun elem => elem ∉ cols) x ->
        any_of arithmetize _data x None = Ok []).
Proof.
  intros cols. unfold all_of, any_of. fold cols. simpl.
  pose proof (all_of_nonexists_empty cols x) as Hempty.
  repeat split.
  - intros (elem & Hin & Hnin).
    destruct (decide _) as [He|Hne].
    + apply Hempty in He. rewrite Forall_forall in He. destruct Hnin. by apply He.
    + eauto.
  - intros (missing & Hm & Hr). destruct (decide _) as [He|Hne]; [done|].
    destruct (decide (Forall (fun elem => elem ∈ cols) x)) as [Hall|Hnall].
    { by apply Hempty in Hall. }
    apply not_Forall_Exists in Hnall; [|intros ?; apply _].
    apply Exists_exists in Hnall. naive_solver.
  - intros Hall. apply Hempty in Hall. by destruct (decide _).
  - destruct (decide _) as [He|Hne]; [by intros _; apply Hempty|done].
  - intros Hall. f_equal. clear Hempty.
    induction Hall as [|e l Hn _ IH]; [done|].
    rewrite filter_cons_False by done. exact IH.
Qed.

End matcher_properties.

Section matcher_witness.
Import Pandas Funcs.

Lemma all_of_strict_any_of_permissive_witness :
  any_of id Examples.left_table [LStr "z"; LInt 3] None = Ok [].
Proof.
  apply (all_of_strict_any_of_permissive id Examples.left_table [LStr "z"; LInt 3]).
  apply (bool_decide_unpack _). vm_compute. exact I.
Defined.

End matcher_witness.

(** * Further properties of the code *)

(** ** The rank family *)

Section rank_order.
Import Pandas Rank.

Lemma count_if_app {A} (p : A -> bool) l1 l2 :
  count_if p (l1 ++ l2) = count_if p l1 + count_if p l2.
Proof. unfold count_if. by rewrite filter_app, length_app. Qed.

Lemma count_if_nil {A} (p : A -> bool) : count_if p [] = 0.
Proof. done. Qed.

Lemma present_app (x1 x2 : list (option Q)) : present (x1 ++ x2) = present x1 ++ present x2.
Proof. unfold present. apply omap_app. Qed.

Lemma count_if_length {A} (p : A -> bool) l : count_if p l <= length l.
Proof. unfold count_if. apply length_filter. Qed.

Lemma count_if_disjoint {A} (p q r : A -> bool) l :
  (forall a, p a = true -> r a = true) ->
  (forall a, q a = true -> r a = true) ->
  (forall a, p a = true -> q a = true -> False) ->
  count_if p l + count_if q l <= count_if r l.
Proof.
  intros Hp Hq Hpq. induction l as [|a l IH]; [done|].
  rewrite !count_if_cons.
  specialize (Hp a). specialize (Hq a). specialize (Hpq a).
  destruct (p a), (q a), (r a); simpl; try lia;
    try (by exfalso; auto); try (by discriminate Hp); try (by discriminate Hq).
Qed.

Lemma count_if_ext {A} (p q : A -> bool) l :
  (forall a, p a = q a) -> count_if p l = count_if q l.
Proof.
  intros H. induction l as [|a l IH]; [done|]. by rewrite !count_if_cons, H, IH.
Qed.

Lemma keep_ties x q :
  count_if (fun w => key_eq w (Some q)) x
  = count_if (fun w => Qeq_bool w q) (present x).
Proof.
  unfold present. induction x as [|[w|] x IH]; [done| |].
  - change (omap id (Some w :: x)) with (w :: omap id x).
    rewrite !count_if_cons. simpl key_eq. by rewrite IH.
  - rewrite count_if_cons. simpl. exact IH.
Qed.

Lemma rank_first_keep x i q :
  rank_at RankFirst NaOptKeep x i (Some q)
  = S (count_if (fun w => Qltb w q) (present x)
       + count_if (fun w => Qeq_bool w q) (present (take i x))).
Proof. unfold rank_at. by rewrite ranked_keep_below, keep_ties. Qed.

Lemma row_number_lookup x i :
  _row_number x !! i
  = (fun v => match v with
              | None => F_nan
              | Some q => of_nat (rank_at RankFirst NaOptKeep x i (Some q))
              end) <$> x !! i.
Proof.
  unfold _row_number, _rank, rank. simpl na_option_of.
  rewrite list_lookup_imap. by destruct (x !! i) as [[q|]|].
Qed.

Lemma of_nat_inj a b : of_nat a = of_nat b -> a = b.
Proof. unfold of_nat, of_Z, inject_Z. intros [= H]. lia. Qed.

Lemma split_at {A} (x : list A) i v : x !! i = Some v -> x = take i x ++ v :: drop (S i) x.
Proof. intros H. by rewrite take_drop_middle. Qed.

Lemma first_rank_bounds x i q :
  x !! i = Some (Some q) ->
  1 <= rank_at RankFirst NaOptKeep x i (Some q) <= length (present x).
Proof.
  intros Hi. rewrite rank_first_keep. split; [lia|].
  rewrite (split_at x i _ Hi) at 1 3. rewrite !present_app.
  change (present (Some q :: ?l)) with (q :: present l).
  rewrite !count_if_app, !length_app, count_if_cons. cbn [length].
  assert (Qltb q q = false) as -> by (apply Qltb_ge; lra).
  pose proof (count_if_disjoint (fun w => Qltb w q) (fun w => Qeq_bool w q)
                (fun _ => true) (present (take i x))) as H1.
  pose proof (count_if_length (fun _ : Q => true) (present (take i x))).
  pose proof (count_if_length (fun w => Qltb w q) (present (drop (S i) x))).
  assert (count_if (fun w => Qltb w q) (present (take i x))
          + count_if (fun w => Qeq_bool w q) (present (take i x))
          <= count_if (fun _ => true) (present (take i x))) as H2.
  { apply H1; try done. intros a Hl%Qltb_lt He%Qeq_bool_iff. lra. }
  lia.
Qed.

Lemma first_rank_mono x i j q q' :
  x !! i = Some (Some q) -> x !! j = Some (Some q') ->
  (q < q')%Q \/ (q == q')%Q /\ i < j ->
  rank_at RankFirst NaOptKeep x i (Some q) < rank_at RankFirst NaOptKeep x j (Some q').
Proof.
  intros Hi Hj Hlt. rewrite !rank_first_keep.
  destruct Hlt as [Hlt|[Heq Hij]].
  - assert (count_if (fun w => Qltb w q) (present x)
            + count_if (fun w => Qeq_bool w q) (present x)
            <= count_if (fun w => Qltb w q') (present x)) as H1.
    { apply count_if_disjoint.
      - intros a Ha%Qltb_lt. apply Qltb_lt. lra.
      - intros a Ha%Qeq_bool_iff. apply Qltb_lt. lra.
      - intros a Hl%Qltb_lt He%Qeq_bool_iff. lra. }
    assert (S (count_if (fun w => Qeq_bool w q) (present (take i x)))
            <= count_if (fun w => Qeq_bool w q) (present x)) as H2.
    { rewrite (split_at x i _ Hi) at 2. rewrite present_app.
      change (present (Some q :: ?l)) with (q :: present l).
      rewrite count_if_app, count_if_cons.
      assert (Qeq_bool q q = true) as -> by (by apply Qeq_bool_iff). lia. }
    lia.
  - assert (count_if (fun w => Qltb w q) (present x)
            = count_if (fun w => Qltb w q') (present x)) as ->.
    { apply count_if_ext. intros a. apply Bool.eq_true_iff_eq.
      rewrite !Qltb_lt. split; lra. }
    assert (S (count_if (fun w => Qeq_bool w q) (present (take i x)))
            <= count_if (fun w => Qeq_bool w q') (present (take j x))); [|lia].
    assert (take j x = take i x ++ Some q :: drop (S i) (take j x)) as Hsplit.
    { rewrite <- (Nat.min_l i j) at 1 by lia. rewrite <- take_take.
      apply split_at. by rewrite lookup_take_lt by lia. }
    rewrite Hsplit, present_app. change (present (Some q :: ?l)) with (q :: present l).
    rewrite count_if_app, count_if_cons.
    assert (Qeq_bool q q' = true) as -> by (by apply Qeq_bool_iff).
    rewrite (count_if_ext (fun w => Qeq_bool w q) (fun w => Qeq_bool w q')); [lia|].
    intros a. apply Bool.eq_true_iff_eq. rewrite !Qeq_bool_iff. split; intros ->; lra.
Qed.

End rank_order.

Section rank_extras.
Import Pandas Rank.

(** X1. [row_number] on a plain sequence numbers the present entries
    [1 .. m] by value, ties by position: a smaller value, or an equal value
    placed earlier, gets a smaller number, every number lies between 1 and the
    count of present entries, and a missing entry stays missing. *)
Theorem row_number_orders_by_value_then_position (x : list (option Q)) :
  length (_row_number x) = length x
  /\ (forall i, x !! i = Some None -> _row_number x !! i = Some F_nan)
  /\ (forall i q, x !! i = Some (Some q) ->
        exists r, _row_number x !! i = Some (of_nat r)
                  /\ 1 <= r <= length (present x))
  /\ (forall i j q q' r r',
        x !! i = Some (Some q) -> x !! j = Some (Some q') ->
        _row_number x !! i = Some (of_nat r) ->
        _row_number x !! j = Some (of_nat r') ->
        (q < q')%Q \/ (q == q')%Q /\ i < j ->
        r < r').
Proof.
  split; [|split; [|split]].
  - unfold _row_number, _rank. apply rank_length.
  - intros i Hi. by rewrite row_number_lookup, Hi.
  - intros i q Hi. rewrite row_number_lookup, Hi. eexists. split; [done|].
    by apply first_rank_bounds.
  - intros i j q q' r r' Hi Hj. rewrite !row_number_lookup, Hi, Hj. simpl.
    intros [= Hr%Nat2Z.inj] [= Hr'%Nat2Z.inj] Hlt. subst r r'.
    by eapply first_rank_mono.
Qed.

Lemma fleb_of_nat a b : fleb (of_nat a) (of_nat b) = bool_decide (a <= b).
Proof.
  unfold fleb, fltb, of_nat, of_Z. cbn.
  apply Bool.eq_true_iff_eq. rewrite negb_true_iff, Qltb_ge, bool_decide_eq_true.
  rewrite <- Zle_Qle. lia.
Qed.

Lemma min_rank_le (x : list (option Q)) (w q : Q) :
  q ∈ present x ->
  RankSpec.min_rank x w <= RankSpec.min_rank x q <-> (w <= q)%Q.
Proof.
  intros Hq. unfold RankSpec.min_rank. split.
  - intros Hle. destruct (Qlt_le_dec q w) as [Hlt|]; [|done]. exfalso.
    assert (count_if (fun v => Qltb v q) (present x)
            + count_if (fun v => Qeq_bool v q) (present x)
            <= count_if (fun v => Qltb v w) (present x)) as H1.
    { apply count_if_disjoint.
      - intros a Ha%Qltb_lt. apply Qltb_lt. lra.
      - intros a Ha%Qeq_bool_iff. apply Qltb_lt. lra.
      - intros a Hl%Qltb_lt He%Qeq_bool_iff. lra. }
    assert (1 <= count_if (fun v => Qeq_bool v q) (present x)) as H2.
    { apply list_elem_of_lookup in Hq as [k Hk].
      rewrite (split_at _ k _ Hk), count_if_app, count_if_cons.
      assert (Qeq_bool q q = true) as -> by (by apply Qeq_bool_iff). lia. }
    lia.
  - intros Hle. apply le_n_S.
    pose proof (count_if_disjoint (fun v => Qltb v w) (fun _ => false)
                  (fun v => Qltb v q) (present x)) as H.
    etrans; [|apply H]; [lia| |done|done].
    intros a Ha%Qltb_lt. apply Qltb_lt. lra.
Qed.

Lemma cume_dist_count (x l : list (option Q)) (q : Q) :
  q ∈ present x ->
  count_if (fun r' => fleb r' (of_nat (RankSpec.min_rank x q)))
    (map (fun v => match v with
                   | None => F_nan
                   | Some w => of_nat (RankSpec.min_rank x w)
                   end) l)
  = count_if (fun w => negb (Qltb q w)) (present l).
Proof.
  intros Hq. induction l as [|[w|] l IH]; [done| |].
  - change (present (Some w :: l)) with (w :: present l).
    cbn [map]. rewrite !count_if_cons, IH. f_equal.
    rewrite fleb_of_nat.
    assert (bool_decide (RankSpec.min_rank x w <= RankSpec.min_rank x q)
            = negb (Qltb q w)) as ->; [|done].
    apply Bool.eq_true_iff_eq.
    rewrite bool_decide_eq_true, negb_true_iff, Qltb_ge. by apply min_rank_le.
  - cbn [map]. rewrite count_if_cons. exact IH.
Qed.

(** X2. [cume_dist] (default [na_last]) gives a present entry the number of
    present entries not above it divided by the length of the whole input:
    missing entries count in the denominator, so with a missing entry even the
    largest value stays below 1. A missing entry stays missing. *)
Theorem cume_dist_counts_missing_rows (x : list (option Q)) :
  length (_cume_dist (Sequence x) NaKeep) = length x
  /\ (forall i, x !! i = Some None ->
        _cume_dist (Sequence x) NaKeep !! i = Some F_nan)
  /\ (forall i q, x !! i = Some (Some q) ->
        let c := count_if (fun w => negb (Qltb q w)) (present x) in
        _cume_dist (Sequence x) NaKeep !! i = Some (F_fin (pct_of (length x) c))
        /\ 1 <= c <= length (present x) /\ length (present x) <= length x).
Proof.
  assert (Hform : x <> [] ->
            _cume_dist (Sequence x) NaKeep
            = map (fun v => match v with
                            | None => F_nan
                            | Some q =>
                                fdiv (of_nat (count_if
                                        (fun r' => fleb r' (of_nat (RankSpec.min_rank x q)))
                                        (map (fun v => match v with
                                                       | None => F_nan
                                                       | Some w => of_nat (RankSpec.min_rank x w)
                                                       end) x)))
                                     (of_nat (length x))
                            end) x).
  { intros Hne. unfold _cume_dist, as_sequence.
    rewrite decide_False by (by destruct x).
    unfold _cume_dist_NDFrame, _rank. simpl na_option_of.
    rewrite rank_min_keep. cbv zeta.
    rewrite zip_with_map_diag, map_map.
    change (map ?f ?l) with (f <$> l). apply list_fmap_ext.
    by intros i [q|] _. }
  split; [|split].
  - destruct x as [|v x]; [done|]. by rewrite Hform, length_map.
  - intros i Hi. rewrite Hform by (by intros ->).
    change (map ?f ?l) with (f <$> l). by rewrite list_lookup_fmap, Hi.
  - intros i q Hi c.
    assert (q ∈ present x) as Hq.
    { apply present_elem. by eapply list_elem_of_lookup_2. }
    split; [|split].
    + rewrite Hform by (by intros ->).
      change (map ?f ?l) with (f <$> l). rewrite list_lookup_fmap, Hi. simpl.
      f_equal. change (?f <$> ?l) with (map f l).
      rewrite (cume_dist_count x x q Hq).
      apply fdiv_count. apply lookup_lt_Some in Hi. lia.
    + subst c. split; [|apply count_if_length].
      apply list_elem_of_lookup in Hq as [k Hk].
      rewrite (split_at _ k _ Hk), count_if_app, count_if_cons.
      assert (Qltb q q = false) as -> by (apply Qltb_ge; lra). simpl. lia.
    + rewrite <- ranked_keep_length. unfold ranked. apply length_filter.
Qed.


Lemma count_if_true_length {A} (l : list A) : count_if (fun _ => true) l = length l.
Proof. unfold count_if. induction l; [done|]. rewrite filter_cons_True by done. simpl. lia. Qed.

Lemma bottom_below (x : list (option Q)) (v : option Q) :
  count_if (fun w => key_lt NaOptBottom w v) x
  = match v with
    | Some q => count_if (fun w => Qltb w q) (present x)
    | None => length (present x)
    end.
Proof.
  induction x as [|[w|] x IH].
  - by destruct v.
  - change (present (Some w :: x)) with (w :: present x).
    rewrite count_if_cons, IH. destruct v; simpl; [by rewrite count_if_cons|done].
  - rewrite count_if_cons, IH. by destruct v.
Qed.

Lemma top_below (x : list (option Q)) (v : option Q) :
  count_if (fun w => key_lt NaOptTop w v) x
  = match v with
    | Some q => (length x - length (present x)) + count_if (fun w => Qltb w q) (present x)
    | None => 0
    end.
Proof.
  assert (Hle : forall l : list (option Q), length (present l) <= length l).
  { intros l. rewrite <- ranked_keep_length. unfold ranked. apply length_filter. }
  induction x as [|[w|] x IH].
  - by destruct v.
  - change (present (Some w :: x)) with (w :: present x).
    rewrite count_if_cons, IH. destruct v; simpl; [rewrite count_if_cons; lia|done].
  - rewrite count_if_cons, IH. change (present (None :: x)) with (present x).
    specialize (Hle x). destruct v; simpl; lia.
Qed.

(** X4. Where [_rank] (min method) places missing entries: with
    [na_last=True] after the present ones, all at [count + 1]; with
    [na_last=False] first, all at 1, every present rank moved up by their
    number; with ["keep"] they stay missing. *)
Theorem rank_places_missing_values (x : list (option Q)) :
  _rank x (NaLast true) RankMin false
  = map (fun v => match v with
                  | Some q => of_nat (RankSpec.min_rank x q)
                  | None => of_nat (S (length (present x)))
                  end) x
  /\ _rank x (NaLast false) RankMin false
     = map (fun v => match v with
                     | Some q =>
                         of_nat ((length x - length (present x)) + RankSpec.min_rank x q)
                     | None => of_nat 1
                     end) x
  /\ _rank x NaKeep RankMin false
     = map (fun v => match v with
                     | Some q => of_nat (RankSpec.min_rank x q)
                     | None => F_nan
                     end) x.
Proof.
  split; [|split].
  - unfold _rank, rank. simpl na_option_of. rewrite <- imap_const.
    apply imap_ext. intros i v _. unfold rank_at, ranked, RankSpec.min_rank.
    rewrite bottom_below, Nat.add_0_r. by destruct v.
  - unfold _rank, rank. simpl na_option_of. rewrite <- imap_const.
    apply imap_ext. intros i v _. unfold rank_at, ranked, RankSpec.min_rank.
    rewrite top_below, Nat.add_0_r. destruct v; simpl; [|done].
    do 2 f_equal. lia.
  - unfold _rank. simpl na_option_of. rewrite rank_min_keep.
    change (map ?f ?l) with (f <$> l). apply list_fmap_ext. by intros i [q|] _.
Qed.

Lemma feq_trans a b c : feq a b -> feq b c -> feq a c.
Proof. destruct a, b, c; simpl; try done; [congruence|intros -> ->; reflexivity]. Qed.

Lemma percent_rank_spec (x : list (option Q)) :
  Forall2 feq (_percent_rank x NaKeep) (RankSpec.percent_rank x).
Proof.
  unfold _percent_rank. destruct (decide (length x = 0)) as [Hx|_].
  - apply nil_length_inv in Hx as ->. constructor.
  - apply percent_rank_NDFrame_spec.
Qed.

Lemma least_spec l m :
  RankSpec.least l = Some m -> m ∈ l /\ Forall (fun a => m <= a) l.
Proof.
  revert m. induction l as [|a l IH]; intros m; [done|]. simpl.
  destruct (RankSpec.least l) as [m'|] eqn:E; simpl; intros [= <-].
  - destruct (IH m' eq_refl) as [Hin Hall]. split.
    + destruct (Nat.min_spec a m') as [[_ ->]|[_ ->]]; [left|by right].
    + constructor; [lia|]. eapply Forall_impl; [exact Hall|]. simpl. lia.
  - destruct l; [|done]. split; [left|]. by repeat constructor.
Qed.

Lemma greatest_spec l m :
  RankSpec.greatest l = Some m -> m ∈ l /\ Forall (fun a => a <= m) l.
Proof.
  revert m. induction l as [|a l IH]; intros m; [done|]. simpl.
  destruct (RankSpec.greatest l) as [m'|] eqn:E; simpl; intros [= <-].
  - destruct (IH m' eq_refl) as [Hin Hall]. split.
    + destruct (Nat.max_spec a m') as [[_ ->]|[_ ->]]; [by right|left].
    + constructor; [lia|]. eapply Forall_impl; [exact Hall|]. simpl. lia.
  - destruct l; [|done]. split; [left|]. by repeat constructor.
Qed.

Lemma min_rank_lt (x : list (option Q)) (v w : Q) :
  v ∈ present x -> (v < w)%Q -> RankSpec.min_rank x v < RankSpec.min_rank x w.
Proof.
  intros Hv Hlt. pose proof (min_rank_le x w v Hv) as H.
  destruct (decide (RankSpec.min_rank x w <= RankSpec.min_rank x v)) as [Hle|]; [|lia].
  apply H in Hle. lra.
Qed.

Lemma min_rank_of_least (x : list (option Q)) (m : Q) :
  (forall w, w ∈ present x -> (m <= w)%Q) -> RankSpec.min_rank x m = 1.
Proof.
  intros Hmin. unfold RankSpec.min_rank. f_equal.
  unfold count_if. apply length_zero_iff_nil, filter_none, Forall_forall.
  intros w Hw Hlt%Qltb_lt. specialize (Hmin w Hw). lra.
Qed.

(** X5. [percent_rank] when the present values are all equal (a single
    value included) is NaN everywhere, the range of ranks being empty; with
    two distinct present values the least gets 0 and the greatest 1. *)
Theorem percent_rank_endpoints (x : list (option Q)) :
  ((forall v w, v ∈ present x -> w ∈ present x -> (v == w)%Q) ->
   Forall (fun r => r = F_nan) (_percent_rank x NaKeep))
  /\ (forall i m w, x !! i = Some (Some m) ->
        (forall v, v ∈ present x -> (m <= v)%Q) ->
        w ∈ present x -> (m < w)%Q ->
        exists r, _percent_rank x NaKeep !! i = Some r /\ feq r (F_fin 0))
  /\ (forall i m w, x !! i = Some (Some m) ->
        (forall v, v ∈ present x -> (v <= m)%Q) ->
        w ∈ present x -> (w < m)%Q ->
        exists r, _percent_rank x NaKeep !! i = Some r /\ feq r (F_fin 1)).
Proof.
  pose proof (percent_rank_spec x) as Hspec.
  set (ranks := map (RankSpec.min_rank x) (present x)).
  assert (Hat : forall i q, x !! i = Some (Some q) ->
            exists lo hi,
              RankSpec.least ranks = Some lo /\ RankSpec.greatest ranks = Some hi
              /\ RankSpec.percent_rank x !! i
                 = Some (fdiv (of_Z (Z.of_nat (RankSpec.min_rank x q) - Z.of_nat lo))
                              (of_Z (Z.of_nat hi - Z.of_nat lo)))).
  { intros i q Hi.
    assert (ranks <> []) as Hne.
    { assert (q ∈ present x) as Hq by (apply present_elem; by eapply list_elem_of_lookup_2).
      subst ranks. destruct (present x); [by apply elem_of_nil in Hq|done]. }
    destruct (least_is_Some ranks Hne) as [lo Hlo].
    destruct (greatest_is_Some ranks Hne) as [hi Hhi].
    exists lo, hi. split; [done|]. split; [done|].
    unfold RankSpec.percent_rank. fold ranks. change (map ?f ?l) with (f <$> l).
    by rewrite list_lookup_fmap, Hi, Hlo, Hhi. }
  assert (Hin : forall q, q ∈ present x -> RankSpec.min_rank x q ∈ ranks).
  { intros q Hq. subst ranks. change (map ?f ?l) with (f <$> l).
    apply list_elem_of_fmap. by exists q. }
  assert (Hfrom : forall r, r ∈ ranks -> exists q, q ∈ present x /\ r = RankSpec.min_rank x q).
  { intros r Hr. subst ranks. change (map ?f ?l) with (f <$> l) in Hr.
    apply list_elem_of_fmap in Hr as (q & -> & Hq). by exists q. }
  split; [|split].
  - intros Hall. apply Forall_forall. intros r Hr.
    apply list_elem_of_lookup in Hr as [i Hi].
    destruct (Forall2_lookup_l _ _ _ _ _ Hspec Hi) as (s & Hs & Hrs).
    assert (s = F_nan) as ->; [|by destruct r].
    destruct (x !! i) as [[q|]|] eqn:Hx.
    + assert (q ∈ present x) as Hq by (apply present_elem; by eapply list_elem_of_lookup_2).
      destruct (Hat i q Hx) as (lo & hi & Hlo & Hhi & Hval).
      rewrite Hval in Hs. injection Hs as <-.
      assert (forall v, v ∈ present x -> RankSpec.min_rank x v = 1) as Hone.
      { intros v Hv. apply min_rank_of_least. intros w Hw.
        rewrite (Hall v w Hv Hw). lra. }
      destruct (least_spec _ _ Hlo) as [(v & Hv & ->)%Hfrom _].
      destruct (greatest_spec _ _ Hhi) as [(w & Hw & ->)%Hfrom _].
      by rewrite !Hone.
    + unfold RankSpec.percent_rank in Hs. change (map ?f ?l) with (f <$> l) in Hs.
      rewrite list_lookup_fmap, Hx in Hs. by injection Hs as <-.
    + unfold RankSpec.percent_rank in Hs. change (map ?f ?l) with (f <$> l) in Hs.
      by rewrite list_lookup_fmap, Hx in Hs.
  - intros i m w Hi Hmin Hw Hlt.
    assert (m ∈ present x) as Hm by (apply present_elem; by eapply list_elem_of_lookup_2).
    destruct (Hat i m Hi) as (lo & hi & Hlo & Hhi & Hval).
    destruct (Forall2_lookup_r _ _ _ _ _ Hspec Hval) as (r & Hr & Hrs).
    exists r. split; [done|]. eapply feq_trans; [exact Hrs|].
    destruct (least_spec _ _ Hlo) as [(v & Hv & ->)%Hfrom Hlo'].
    destruct (greatest_spec _ _ Hhi) as [_ Hhi'].
    rewrite Forall_forall in Hlo', Hhi'.
    pose proof (Hlo' _ (Hin m Hm)) as H1. pose proof (Hhi' _ (Hin w Hw)) as H2.
    pose proof (min_rank_lt x m w Hm Hlt) as H3.
    rewrite (min_rank_of_least x m Hmin) in *.
    assert (1 <= RankSpec.min_rank x v) by (unfold RankSpec.min_rank; lia).
    replace (RankSpec.min_rank x v) with 1 by lia.
    unfold fdiv, of_Z. simpl (Z.of_nat 1 - Z.of_nat 1)%Z.
    assert (Qeq_bool (inject_Z (Z.of_nat hi - Z.of_nat 1)) 0 = false) as ->.
    { apply Qeq_bool_false. change 0%Q with (inject_Z 0). rewrite inject_Z_injective. lia. }
    cbn [feq]. rewrite Z.sub_diag. unfold Qdiv. by rewrite Qmult_0_l.
  - intros i m w Hi Hmax Hw Hlt.
    assert (m ∈ present x) as Hm by (apply present_elem; by eapply list_elem_of_lookup_2).
    destruct (Hat i m Hi) as (lo & hi & Hlo & Hhi & Hval).
    destruct (Forall2_lookup_r _ _ _ _ _ Hspec Hval) as (r & Hr & Hrs).
    exists r. split; [done|]. eapply feq_trans; [exact Hrs|].
    destruct (least_spec _ _ Hlo) as [_ Hlo'].
    destruct (greatest_spec _ _ Hhi) as [(v & Hv & ->)%Hfrom Hhi'].
    rewrite Forall_forall in Hlo', Hhi'.
    pose proof (Hlo' _ (Hin w Hw)) as H1. pose proof (Hhi' _ (Hin m Hm)) as H2.
    pose proof (min_rank_lt x w m Hw Hlt) as H3.
    pose proof (proj2 (min_rank_le x v m Hm) (Hmax v Hv)) as H4.
    replace (RankSpec.min_rank x v) with (RankSpec.min_rank x m) by lia.
    unfold fdiv, of_Z.
    assert (Qeq_bool (inject_Z (Z.of_nat (RankSpec.min_rank x m) - Z.of_nat lo)) 0 = false) as ->.
    { apply Qeq_bool_false. change 0%Q with (inject_Z 0). rewrite inject_Z_injective. lia. }
    cbn [feq]. apply Qmult_inv_r.
    change 0%Q with (inject_Z 0). rewrite inject_Z_injective. lia.
Qed.

End rank_extras.

Section rank_witnesses.
Import Pandas Rank.

(** [row_number] of [[3, NA, 1, 3]]: the missing entry stays missing and the
    second [3] comes after the first. *)
Lemma row_number_orders_by_value_then_position_example :
  _row_number [Some 3%Q; None; Some 1%Q; Some 3%Q] !! 1 = Some F_nan
  /\ (exists r, _row_number [Some 3%Q; None; Some 1%Q; Some 3%Q] !! 3 = Some (of_nat r)
                /\ 1 <= r <= 3)
  /\ (_row_number [Some 3%Q; None; Some 1%Q; Some 3%Q] !! 0 = Some (of_nat 2)
      /\ _row_number [Some 3%Q; None; Some 1%Q; Some 3%Q] !! 3 = Some (of_nat 3)
      /\ 2 < 3).
Proof.
  destruct (row_number_orders_by_value_then_position
              [Some 3%Q; None; Some 1%Q; Some 3%Q]) as (_ & Hna & Hpres & Hord).
  split; [|split].
  - apply Hna. reflexivity.
  - apply (Hpres 3 3%Q). reflexivity.
  - split; [reflexivity | split; [reflexivity|]].
    apply (Hord 0 3 3%Q 3%Q 2 3); try reflexivity.
    right. split; [reflexivity | lia].
Defined.

(** [cume_dist] of [[3, NA, 1, 3]]: the largest value gets 3/4. *)
Lemma cume_dist_counts_missing_rows_example :
  _cume_dist (Sequence [Some 3%Q; None; Some 1%Q; Some 3%Q]) NaKeep !! 0
  = Some (F_fin (pct_of 4 3))
  /\ _cume_dist (Sequence [Some 3%Q; None; Some 1%Q; Some 3%Q]) NaKeep !! 1
     = Some F_nan.
Proof.
  destruct (cume_dist_counts_missing_rows
              [Some 3%Q; None; Some 1%Q; Some 3%Q]) as (_ & Hna & Hpres).
  split.
  - apply (Hpres 0 3%Q). reflexivity.
  - apply Hna. reflexivity.
Defined.


(** [percent_rank] of [[2, NA, 2]] and of [[1, NA, 5]]. *)
Lemma percent_rank_endpoints_example :
  Forall (fun r => r = F_nan) (_percent_rank [Some 2%Q; None; Some 2%Q] NaKeep)
  /\ (exists r, _percent_rank [Some 1%Q; None; Some 5%Q] NaKeep !! 0 = Some r
                /\ feq r (F_fin 0))
  /\ (exists r, _percent_rank [Some 1%Q; None; Some 5%Q] NaKeep !! 2 = Some r
                /\ feq r (F_fin 1)).
Proof.
  split; [|split].
  - apply (percent_rank_endpoints [Some 2%Q; None; Some 2%Q]).
    intros v w Hv Hw. cbn in Hv, Hw.
    rewrite !elem_of_cons, elem_of_nil in Hv, Hw.
    destruct Hv as [->|[->|[]]], Hw as [->|[->|[]]]; reflexivity.
  - apply (percent_rank_endpoints [Some 1%Q; None; Some 5%Q]) with (m := 1%Q) (w := 5%Q).
    + reflexivity.
    + intros v Hv. cbn in Hv. rewrite !elem_of_cons, elem_of_nil in Hv.
      destruct Hv as [->|[->|[]]]; done.
    + cbn. rewrite !elem_of_cons. auto.
    + reflexivity.
  - apply (percent_rank_endpoints [Some 1%Q; None; Some 5%Q]) with (m := 5%Q) (w := 1%Q).
    + reflexivity.
    + intros v Hv. cbn in Hv. rewrite !elem_of_cons, elem_of_nil in Hv.
      destruct Hv as [->|[->|[]]]; done.
    + cbn. rewrite !elem_of_cons. auto.
    + reflexivity.
Defined.

End rank_witnesses.

(** ** The joins *)

Section join_extras.
Import Pandas Tibble Join JoinSpec.
Context (io : how -> list (list cell) -> list (list cell) -> indexers).

Lemma shared_by_name_diag (l : list label) : shared_by_name l l = l.
Proof.
  unfold shared_by_name. induction l as [|a l IH]; [done|].
  simpl. rewrite filter_cons_True by done. simpl. by f_equal.
Qed.

(** X7. With the key columns given, [semi_join] and [anti_join] split the
    rows of [x]: each keeps the columns of [x] and a sublist of its rows, no
    row is in both, and together they hold the rows of [x]. *)
Theorem semi_anti_join_partition (x y : Table) (by_ : by_arg) (copy : bool) :
  let X := to_frame x in
  let Y := to_frame y in
  let lon := (key_columns by_).1 in
  let ron := (key_columns by_).2 in
  lon <> [] ->
  Forall (fun k => k ∈ columns X) lon -> Forall (fun k => k ∈ columns Y) ron ->
  NoDup (columns X) -> NoDup (columns Y) -> well_formed X ->
  Forall (fun l => l ∉ columns X ++ columns Y)
         [LStr "_left_indicator"; LStr "_right_indicator";
          LStr "__merge__"; LStr "_merge"] ->
  suffix_safe X Y (shared_by_name lon ron) ->
  exists s a,
    semi_join io x y by_ copy = Ok s
    /\ anti_join io x y by_ copy = Ok a
    /\ columns (frame s) = columns X /\ columns (frame a) = columns X
    /\ sublist (rows (frame s)) (rows X) /\ sublist (rows (frame a)) (rows X)
    /\ rows (frame s) ++ rows (frame a) ≡ₚ rows X
    /\ (forall r, r ∈ rows (frame s) -> r ∈ rows (frame a) -> False).
Proof.
  intros X Y lon ron Hne HlX HrY HndX HndY Hwf Hnames Hsafe.
  destruct (filtering_joins_by_key io x y by_ copy Hne HlX HrY HndX HndY Hwf Hnames Hsafe)
    as [Hs Ha].
  fold X Y lon ron in Hs, Ha.
  destruct (reconstruct_frame x
              (mkDataFrame (columns X) (filter (matched X Y lon ron) (rows X))))
    as (s & Hs' & Hfs).
  destruct (reconstruct_frame x
              (mkDataFrame (columns X)
                 (filter (fun r => ~ matched X Y lon ron r) (rows X))))
    as (a & Ha' & Hfa).
  exists s, a. rewrite Hs, Ha, Hfs, Hfa. cbn [columns rows].
  repeat split; try done.
  - apply sublist_filter.
  - apply sublist_filter.
  - apply filter_app_complement.
  - intros r [H1 _]%list_elem_of_filter [H2 _]%list_elem_of_filter. done.
Qed.

(** X8. [anti_join] with [by=None] joins on the labels the two frames
    share: it raises when there is none, is the same call as with that list
    otherwise, and then returns exactly the rows of [x] without a match. *)
Theorem anti_join_inferred_key (x y : Table) (copy : bool) :
  let X := to_frame x in
  let Y := to_frame y in
  let common := intersect (columns X) (columns Y) in
  (common = [] -> raises (anti_join io x y ByNone copy) = true)
  /\ (common <> [] ->
      anti_join io x y ByNone copy = anti_join io x y (ByList common) copy)
  /\ (common <> [] ->
      NoDup (columns X) -> NoDup (columns Y) -> well_formed X ->
      Forall (fun l => l ∉ columns X ++ columns Y)
             [LStr "_left_indicator"; LStr "_right_indicator";
              LStr "__merge__"; LStr "_merge"] ->
      anti_join io x y ByNone copy
      = _reconstruct_tibble x
          (PyDataFrame
             (mkDataFrame (columns X)
                (filter (fun r => ~ matched X Y common common r) (rows X))))).
Proof.
  intros X Y common.
  assert (Heq : common <> [] ->
            anti_join io x y ByNone copy = anti_join io x y (ByList common) copy).
  { intros Hne. unfold anti_join, merge_left_on. fold X Y.
    destruct (decide _); [done|]. destruct (decide _); [done|].
    cbn [_merge_on]. unfold common_columns. fold (intersect (columns X) (columns Y)).
    fold common. by destruct common. }
  split; [|split; [done|]].
  - intros Hnil. unfold anti_join, merge_left_on. fold X Y.
    destruct (decide _); [done|]. destruct (decide _); [done|].
    cbn [_merge_on]. unfold common_columns. fold (intersect (columns X) (columns Y)).
    fold common. by rewrite Hnil.
  - intros Hne HndX HndY Hwf Hnames. rewrite Heq by done.
    assert (Forall (fun k => k ∈ columns X) common /\ Forall (fun k => k ∈ columns Y) common)
      as [HcX HcY].
    { split; apply Forall_forall; intros k Hk; apply intersect_elem in Hk; tauto. }
    apply (filtering_joins_by_key io x y (ByList common) copy); try done.
    cbn [key_columns fst snd]. rewrite shared_by_name_diag.
    apply Forall_forall. intros c Hc HcY' Hn. destruct Hn.
    apply intersect_elem. by split.
Qed.

Lemma merge_left_rows (left right : DataFrame) (lon ron : list label)
    (sfx : string * string) (df : DataFrame) (ind : list indicator) :
  merge_indicated io left right lon ron Left sfx = Ok (df, ind) ->
  exists blocks,
    rows df = mjoin blocks
    /\ Forall2 (fun xrow block =>
                  left_rows (matching_rows right left ron lon xrow) xrow block)
               (rows left) blocks.
Proof.
  unfold merge_indicated. intros Hm.
  destruct lon as [|l0 lon]; [done|].
  destruct (filter _ (l0 :: lon)); [|done].
  destruct (filter _ ron); [|done].
  set (shared := (filter (fun p : label * label => p.1 = p.2) (zip (l0 :: lon) ron)).*1) in *.
  set (left' := if decide (rows left = []) then without_columns left shared else left) in *.
  set (right' := if decide (rows left = []) then right else without_columns right shared) in *.
  destruct (items_overlap_with_suffix _ _ sfx) as [[ln rn]|]; [|done].
  simpl in Hm. injection Hm as <- _. cbn [rows].
  set (asm := fun p : option nat * option nat =>
                take_side left' p.1 shared (columns right) (row_at right p.2)
                ++ take_side right' p.2 [] [] []).
  set (keyL := key_cells (columns left) (l0 :: lon)).
  set (keyR := key_cells (columns right) ron).
  change (map ?f ?l) with (f <$> l). unfold join_indexers, left_indexers.
  rewrite fmap_mjoin, fmap_imap, imap_fmap.
  eexists. split; [done|].
  apply Forall2_same_length_lookup_2; [by rewrite length_imap|].
  intros i xrow block Hx. rewrite list_lookup_imap, Hx. intros [= <-]. simpl.
  unfold matching_rows. fold keyL keyR.
  rewrite <- (positions_rows keyR (keyL xrow) (rows right)).
  assert (rows left <> []) as Hnn by (by intros Hnil; rewrite Hnil in Hx).
  assert (forall o, take_side left' (Some i) shared (columns right) o = xrow) as Hxp.
  { intros o. subst left'. rewrite decide_False by done. by apply take_side_Some. }
  assert (Forall (fun j => is_Some (rows right !! j))
            (positions (keyL xrow) (keyR <$> rows right))) as Hvalid.
  { apply Forall_forall. intros j Hj. apply positions_elem in Hj.
    rewrite list_lookup_fmap in Hj. by destruct (rows right !! j). }
  unfold left_block. change (map keyR (rows right)) with (keyR <$> rows right).
  destruct (positions (keyL xrow) (keyR <$> rows right)) as [|j0 js] eqn:E.
  - rewrite fmap_cons, fmap_nil. eexists. split; [done|]. unfold asm. cbn [fst snd].
    rewrite Hxp. eexists xrow, _. split; [done|]. split; [done|].
    unfold take_side. apply Forall_forall. intros v Hv.
    change (map ?f ?l) with (f <$> l) in Hv.
    apply list_elem_of_fmap in Hv as (c & -> & _).
    destruct (decide (c ∈ [])) as [Hc|]; [by apply elem_of_nil in Hc|done].
  - assert (Forall2 (fun yrow row => joined_row xrow yrow row)
              (omap (fun j => rows right !! j) (j0 :: js))
              (asm <$> ((fun j => (Some i, Some j)) <$> (j0 :: js)))) as HF.
    { clear E. induction Hvalid as [|j js' [yrow Hy] _ IH]; [constructor|].
      change (omap ?g (?a :: ?l')) with
        (match g a with Some y => y :: omap g l' | None => omap g l' end).
      cbv beta. rewrite Hy, !fmap_cons. constructor; [|exact IH].
      unfold asm. cbn [fst snd]. rewrite Hxp.
      eexists xrow, _. split; [done|]. split; [done|].
      subst right'. rewrite decide_False by done.
      destruct (without_columns_lookup right shared j yrow Hy) as (m & Hm').
      rewrite (take_side_Some _ _ _ _ _ _ Hm'). apply select_sublist. }
    change (map ?f ?l) with (f <$> l).
    destruct (omap _ (j0 :: js)) eqn:Eo; [|exact HF].
    apply Forall2_nil_inv_l in HF. by rewrite !fmap_cons in HF.
Qed.

Lemma left_unmatched_row_select (mask : list bool) xrow row :
  left_unmatched_row xrow row -> left_unmatched_row xrow (select mask row).
Proof.
  intros (xpart & ypart & -> & Hx & Hy). rewrite select_app.
  eexists _, _. split; [done|].
  split; [etrans; [apply select_sublist|done]|by apply Forall_select].
Qed.

Lemma left_rows_select (mask : list bool) matches xrow block :
  left_rows matches xrow block -> left_rows matches xrow (select mask <$> block).
Proof.
  unfold left_rows. destruct matches as [|m ms].
  - intros (row & -> & Hrow). eexists. split; [done|]. by apply left_unmatched_row_select.
  - intros HF. apply Forall2_fmap_r. eapply Forall2_impl; [exact HF|].
    intros yrow row Hj. by apply joined_row_select.
Qed.


Lemma rename_by_suffix (keys : list label) (f : label -> label) (c : label) :
  match list_find (fun p : label * label => p.1 = c) (zip keys (map f keys)) with
  | Some (_, (_, new)) => new
  | None => c
  end = if decide (c ∈ keys) then f c else c.
Proof.
  induction keys as [|k keys IH]; [done|].
  cbn [map zip zip_with list_find]. cbn [fst].
  destruct (decide (k = c)) as [->|Hne].
  - by rewrite decide_True by left.
  - rewrite (decide_ext (c ∈ k :: keys) (c ∈ keys))
      by (rewrite elem_of_cons; split; [by intros [->|?]|by right]).
    rewrite <- IH. by destruct (list_find _ (zip keys (map f keys))) as [[i [a b]]|].
Qed.

Lemma rename_columns_by_suffix (df : DataFrame) (keys : list label) (f : label -> label) :
  columns (rename_columns df (zip keys (map f keys)))
  = map (fun c => if decide (c ∈ keys) then f c else c) (columns df)
  /\ rows (rename_columns df (zip keys (map f keys))) = rows df.
Proof.
  unfold rename_columns. cbn [columns rows]. split; [|done].
  change (map ?g ?l) with (g <$> l). apply list_fmap_ext. intros i c _.
  apply (rename_by_suffix keys f c).
Qed.

Lemma string_app_cancel (s a b : string) : s +:+ a = s +:+ b -> a = b.
Proof. induction s as [|c s IH]; simpl; [done|]. intros [= H]. by apply IH. Qed.

Lemma label_append_cancel (l : label) (a b : string) :
  label_append l a = label_append l b -> a = b.
Proof. destruct l; simpl; intros [= H]; by eapply string_app_cancel. Qed.

Lemma shared_by_name_suffixed (keys : list label) (a b : string) :
  a <> b ->
  shared_by_name (map (fun c => label_append c a) keys)
                 (map (fun c => label_append c b) keys) = [].
Proof.
  intros Hab. unfold shared_by_name. induction keys as [|k keys IH]; [done|].
  simpl. rewrite filter_cons_False; [exact IH|].
  simpl. intros H. by apply label_append_cancel in H.
Qed.

Lemma without_no_columns (df : DataFrame) : columns (without_columns df []) = columns df.
Proof.
  rewrite without_columns_columns. induction (columns df) as [|c l IH]; [done|].
  rewrite filter_cons_True by apply not_elem_of_nil. by f_equal.
Qed.

Lemma merge_returns (L R : DataFrame) (lon ron : list label) (h : how)
    (sfx : string * string) :
  lon <> [] ->
  Forall (fun k => k ∈ columns L) lon -> Forall (fun k => k ∈ columns R) ron ->
  sfx.1 <> ""%string \/ sfx.2 <> ""%string ->
  exists df ind,
    merge_indicated io L R lon ron h sfx = Ok (df, ind)
    /\ length (columns df)
       = if decide (rows L = [])
         then length (filter (fun c => c ∉ shared_by_name lon ron) (columns L))
              + length (columns R)
         else length (columns L)
              + length (filter (fun c => c ∉ shared_by_name lon ron) (columns R)).
Proof.
  intros Hne HL HR Hs. unfold merge_indicated.
  destruct lon as [|l0 lon]; [done|].
  rewrite (filter_none (fun k => k ∉ columns L))
    by (eapply Forall_impl; [exact HL|]; intros ? ? Hn; by apply Hn).
  rewrite (filter_none (fun k => k ∉ columns R))
    by (eapply Forall_impl; [exact HR|]; intros ? ? Hn; by apply Hn).
  fold (shared_by_name (l0 :: lon) ron).
  match goal with |- context [items_overlap_with_suffix ?l ?r sfx] =>
    destruct (items_overlap_Ok l r sfx) as (ln & rn & -> & Hln & Hrn);
      [destruct Hs; [by left|by right; left]|] end.
  cbn [mbind result_bind]. eexists _, _. split; [done|].
  cbn [columns]. rewrite length_app, Hln, Hrn.
  destruct (decide (rows L = [])); by rewrite without_columns_columns.
Qed.



Lemma items_overlap_elem (Lc Rc : list label) (sfx : string * string)
    (ln rn : list label) (c' : label) :
  items_overlap_with_suffix Lc Rc sfx = Ok (ln, rn) ->
  c' ∈ ln ++ rn ->
  (c' ∈ Lc ++ Rc /\ ~ (c' ∈ Lc /\ c' ∈ Rc))
  \/ exists c, c ∈ Lc /\ c ∈ Rc
               /\ (c' = label_append c sfx.1 \/ c' = label_append c sfx.2).
Proof.
  unfold items_overlap_with_suffix.
  assert (Hin : forall c, c ∈ filter (fun c => c ∈ Rc) Lc <-> c ∈ Lc /\ c ∈ Rc)
    by (intros c; rewrite list_elem_of_filter; tauto).
  destruct (filter (fun c => c ∈ Rc) Lc) as [|a t] eqn:E.
  - intros [= <- <-] Hc. left. split; [done|]. intros H%Hin. by apply elem_of_nil in H.
  - destruct (decide _); [done|]. intros [= <- <-] Hc.
    change (map ?f ?l) with (f <$> l) in Hc.
    apply elem_of_app in Hc as [Hc|Hc]; apply list_elem_of_fmap in Hc as (c & -> & Hc);
      destruct (decide (c ∈ a :: t)) as [Ht|Ht].
    + right. exists c. apply Hin in Ht. split; [tauto|]. split; [tauto|]. by left.
    + left. split; [apply elem_of_app; by left|]. intros H%Hin. done.
    + right. exists c. apply Hin in Ht. split; [tauto|]. split; [tauto|]. by right.
    + left. split; [apply elem_of_app; by right|]. intros H%Hin. done.
Qed.


End join_extras.

Section join_extras_witnesses.
Import Pandas Tibble Join JoinSpec.

(** The two filtering joins of the example tables on [a]. *)
Lemma semi_anti_join_partition_example :
  exists s a,
    semi_join Examples.reference_indexers
      (PyDataFrame Examples.left_table) (PyDataFrame Examples.right_table)
      (ByList [LStr "a"]) false = Ok s
    /\ anti_join Examples.reference_indexers
         (PyDataFrame Examples.left_table) (PyDataFrame Examples.right_table)
         (ByList [LStr "a"]) false = Ok a
    /\ columns (frame s) = [LStr "a"; LStr "b"]
    /\ columns (frame a) = [LStr "a"; LStr "b"]
    /\ sublist (rows (frame s)) (rows Examples.left_table)
    /\ sublist (rows (frame a)) (rows Examples.left_table)
    /\ rows (frame s) ++ rows (frame a) ≡ₚ rows Examples.left_table
    /\ (forall r, r ∈ rows (frame s) -> r ∈ rows (frame a) -> False).
Proof.
  apply (semi_anti_join_partition Examples.reference_indexers
           (PyDataFrame Examples.left_table) (PyDataFrame Examples.right_table)
           (ByList [LStr "a"]) false);
    by apply (bool_decide_unpack _).
Defined.

(** [anti_join] without [by]: on the shared column [a], and with no shared
    column. *)
Lemma anti_join_inferred_key_example :
  anti_join Examples.reference_indexers
    (PyDataFrame Examples.left_table) (PyDataFrame Examples.right_table) ByNone false
  = Ok (mkTibble (mkDataFrame [LStr "a"; LStr "b"] [[Some 1; Some 10]]%Z) Plain)
  /\ raises (anti_join Examples.reference_indexers
               (PyDataFrame Examples.left_table)
               (PyDataFrame (mkDataFrame [LStr "c"] [[Some 1%Z]])) ByNone false)
     = true.
Proof.
  split.
  - destruct (anti_join_inferred_key Examples.reference_indexers
                (PyDataFrame Examples.left_table) (PyDataFrame Examples.right_table)
                false) as (_ & _ & ->);
      try (by apply (bool_decide_unpack _)); done.
  - by apply (anti_join_inferred_key Examples.reference_indexers
                (PyDataFrame Examples.left_table)
                (PyDataFrame (mkDataFrame [LStr "c"] [[Some 1%Z]])) false).
Defined.





End join_extras_witnesses.

(** ** The group-by wrapper *)

Section grouped_extras.
Import Pandas Grouped.

Lemma from_groupby_attrs c g vars h w :
  from_groupby c (OfGroupBy g) vars h = Ok w ->
  exists a2 a3 a4,
    attrs w = <["_grouped"%string := AGroupBy g]>
                (<["_group_vars"%string := a2]>
                   (<["_html_footer"%string := a3]>
                      (<["_str_footer"%string := a4]> ∅))).
Proof.
  unfold from_groupby. intros Hw.
  destruct (groupbys h !! g ≫= _) as [[gb df]|]; [|done].
  simplify_eq. cbn [attrs]. by eexists _, _, _.
Qed.

(** X13. [from_groupby] of a wrapper made by [from_groupby] gives a wrapper
    of the requested class over the same data with the same [attrs]; the
    [group_vars] argument is not looked at. A wrapper without ["_grouped"]
    raises [KeyError]. *)
Theorem from_groupby_rewraps :
  (forall c g vars h w c' vars' h',
     from_groupby c (OfGroupBy g) vars h = Ok w ->
     from_groupby c' (OfWrapper w) vars' h' = Ok (mkWrapper c' (data w) (attrs w)))
  /\ (forall c' w vars' h',
        attrs w !! "_grouped"%string = None ->
        from_groupby c' (OfWrapper w) vars' h' = Raise (KeyError [LStr "_grouped"])).
Proof.
  split.
  - intros c g vars h w c' vars' h' Hw.
    destruct (from_groupby_attrs _ _ _ _ _ Hw) as (a2 & a3 & a4 & Hattrs).
    assert (attrs w !! "_grouped"%string = Some (AGroupBy g)) as H1
      by (rewrite Hattrs; by simplify_map_eq).
    assert (attrs w !! "_group_vars"%string = Some a2) as H2
      by (rewrite Hattrs; by simplify_map_eq).
    assert (attrs w !! "_html_footer"%string = Some a3) as H3
      by (rewrite Hattrs; by simplify_map_eq).
    assert (attrs w !! "_str_footer"%string = Some a4) as H4
      by (rewrite Hattrs; by simplify_map_eq).
    unfold from_groupby, lookup_attr. rewrite H1, H2, H3, H4.
    cbn [mbind result_bind]. by rewrite Hattrs.
  - intros c' w vars' h' Hnone. unfold from_groupby, lookup_attr. by rewrite Hnone.
Qed.

(** X14. Whatever branch [copy] takes, it keeps the class, leaves every
    existing frame and group-by object as it is, allocates nothing for a
    shallow copy (which shares the data block), and gives a deep copy a
    fresh data block. *)
Theorem copy_extends_store (self : wrapper) (deep : bool) (h : store)
    (out : wrapper) (h' : store) :
  copy self deep h = Ok (out, h') ->
  frames h `prefix_of` frames h'
  /\ groupbys h `prefix_of` groupbys h'
  /\ cls out = cls self
  /\ (deep = false -> h' = h /\ data out = data self)
  /\ (deep = true -> data out = length (frames h) /\ is_Some (frames h' !! data out)).
Proof.
  unfold copy. destruct (decide _) as [_|_].
  - unfold frame_copy. destruct deep.
    + destruct (frames h !! data self) as [df|] eqn:Hdf; [|done].
      cbn [alloc_frame]. intros [= <- <-]. cbn [frames groupbys cls data].
      repeat split; try done.
      * by apply prefix_app_r.
      * rewrite lookup_app_r, Nat.sub_diag by lia. by eexists.
    + intros [= <- <-]. repeat split; done.
  - destruct deep; cbn [negb].
    + destruct (attrs self !! "_grouped"%string) as [[g| |]|]; try done.
      destruct (attrs self !! "_group_vars"%string) as [[|vars|]|]; try done.
      destruct (groupbys h !! g) as [gb|] eqn:Hg; [|done]. cbn [mbind option_bind fmap option_fmap].
      destruct (frames h !! obj gb) as [df|] eqn:Hdf; [|done].
      simpl. unfold from_groupby.
      rewrite lookup_app_r, Nat.sub_diag by (simpl; lia). cbn [lookup list_lookup mbind option_bind obj].
      rewrite lookup_app_r, Nat.sub_diag by lia. simpl.
      intros [= <- <-]. cbn [frames groupbys cls data].
      repeat split; try done.
      * by apply prefix_app_r.
      * by apply prefix_app_r.
      * rewrite lookup_app_r, Nat.sub_diag by lia. by eexists.
    + destruct (from_groupby (cls self) (OfWrapper self) None h) as [w|] eqn:Hw; [|done].
      cbn [mbind result_bind]. intros [= <- <-].
      unfold from_groupby in Hw.
      destruct (lookup_attr self "_grouped"); [|done]. simpl in Hw.
      destruct (lookup_attr self "_group_vars"); [|done]. simpl in Hw.
      destruct (lookup_attr self "_html_footer"); [|done]. simpl in Hw.
      destruct (lookup_attr self "_str_footer"); [|done]. simpl in Hw.
      simplify_eq. repeat split; done.
Qed.


End grouped_extras.

Section grouped_extras_witnesses.
Import Pandas Grouped.

(** A group-by wrapper of the sales store wrapped again as row-wise. *)
Lemma from_groupby_rewraps_example :
  from_groupby DatarRowwise
    (OfWrapper
       (mkWrapper DatarGroupBy 0
          (<["_grouped" := AGroupBy 0]>
             (<["_group_vars" := ANames [LStr "g"]]>
                (<["_html_footer" := AText "<p>Groups: g (n=2)</p>"]>
                   (<["_str_footer" := AText "[Groups: g (n=2)]"]> ∅))))))
    (Some [LStr "v"]) Examples.sales_store
  = Ok (mkWrapper DatarRowwise 0
          (<["_grouped" := AGroupBy 0]>
             (<["_group_vars" := ANames [LStr "g"]]>
                (<["_html_footer" := AText "<p>Groups: g (n=2)</p>"]>
                   (<["_str_footer" := AText "[Groups: g (n=2)]"]> ∅))))).
Proof.
  destruct from_groupby_rewraps as [Hwrap _].
  exact (Hwrap DatarGroupBy 0 None Examples.sales_store
           (mkWrapper DatarGroupBy 0
              (<["_grouped" := AGroupBy 0]>
                 (<["_group_vars" := ANames [LStr "g"]]>
                    (<["_html_footer" := AText "<p>Groups: g (n=2)</p>"]>
                       (<["_str_footer" := AText "[Groups: g (n=2)]"]> ∅)))))
           DatarRowwise (Some [LStr "v"]) Examples.sales_store eq_refl).
Defined.

(** A deep copy in the sales store. *)
Lemma copy_extends_store_example :
  copy (mkWrapper DatarGroupBy 0
          (<["_grouped" := AGroupBy 0]> (<["_group_vars" := ANames [LStr "g"]]> ∅)))
       true Examples.sales_store
  = Ok (mkWrapper DatarGroupBy 1
          (<["_grouped" := AGroupBy 0]> (<["_group_vars" := ANames [LStr "g"]]> ∅)),
        mkStore [Examples.sales; Examples.sales] (groupbys Examples.sales_store))
  /\ frames Examples.sales_store `prefix_of` [Examples.sales; Examples.sales]
  /\ is_Some ([Examples.sales; Examples.sales] !! 1).
Proof.
  assert (copy (mkWrapper DatarGroupBy 0
                  (<["_grouped" := AGroupBy 0]>
                     (<["_group_vars" := ANames [LStr "g"]]> ∅)))
               true Examples.sales_store
          = Ok (mkWrapper DatarGroupBy 1
                  (<["_grouped" := AGroupBy 0]>
                     (<["_group_vars" := ANames [LStr "g"]]> ∅)),
                mkStore [Examples.sales; Examples.sales]
                  (groupbys Examples.sales_store))) as Hcopy by reflexivity.
  destruct (copy_extends_store _ _ _ _ _ Hcopy) as (Hframes & _ & _ & _ & Hdeep).
  destruct (Hdeep eq_refl) as [_ Hfresh].
  split; [exact Hcopy | split; [exact Hframes | exact Hfresh]].
Defined.


End grouped_extras_witnesses.

(** ** Column helpers, dates and type tests *)

Section num_range_props.
Import Pandas Funcs.

Lemma zeros_length n : String.length (zeros n) = n.
Proof. induction n; simpl; by f_equal. Qed.

Lemma string_length_app (a b : string) :
  String.length (a +:+ b) = String.length a + String.length b.
Proof.
  induction a as [|c a IH]; [done|].
  change (String c a +:+ b) with (String c (a +:+ b)). simpl. by rewrite IH.
Qed.

Lemma strip_zeros_fill n s : strip_zeros (zeros n +:+ s) = strip_zeros s.
Proof.
  induction n as [|n IH]; [done|].
  change (zeros (S n) +:+ s) with (String (Ascii.ascii_of_nat 48) (zeros n +:+ s)).
  cbn [strip_zeros]. by rewrite decide_True.
Qed.

Lemma pretty_N_char_digit x :
  (0 < x < 10)%N -> nonzero_digit (pretty_N_char x).
Proof.
  intros Hx. unfold nonzero_digit.
  assert (x = 1 \/ x = 2 \/ x = 3 \/ x = 4 \/ x = 5 \/ x = 6 \/ x = 7 \/ x = 8 \/ x = 9)%N
    as H by lia.
  repeat (destruct H as [->|H]; [by apply (bool_decide_unpack _)|]).
  subst. by apply (bool_decide_unpack _).
Qed.

Lemma pretty_N_go_head x s :
  (0 < x)%N -> exists c rest, pretty_N_go x s = String c rest /\ nonzero_digit c.
Proof.
  revert s. induction (N.lt_wf_0 x) as [x _ IH]; intros s Hx.
  rewrite pretty_N_go_step by done.
  destruct (decide (x `div` 10 = 0)%N) as [E|E].
  - rewrite E, pretty_N_go_0. eexists _, _. split; [done|].
    apply pretty_N_char_digit. apply N.div_small_iff in E; [|done].
    rewrite N.mod_small by lia. lia.
  - apply IH; [apply N.div_lt; lia|by apply N.neq_0_lt_0].
Qed.

Lemma pretty_positive_head (p : positive) :
  exists c rest, pretty (Z.pos p) = String c rest /\ nonzero_digit c.
Proof.
  change (pretty (Z.pos p)) with (pretty (N.pos p)). unfold pretty, pretty_N.
  rewrite decide_False by done. by apply pretty_N_go_head.
Qed.

Lemma nonzero_digit_not_sign c :
  nonzero_digit c ->
  String c "" <> "0" /\ String c "" <> "-" /\ String c "" <> "+".
Proof.
  unfold nonzero_digit. intros H.
  repeat (apply elem_of_cons in H as [->|H]; [done|]). by apply elem_of_nil in H.
Qed.

Lemma pretty_nonneg_head (z : Z) :
  (0 <= z)%Z ->
  exists c rest, pretty z = String c rest
                 /\ String c "" <> "-" /\ String c "" <> "+"
                 /\ (z <> 0%Z -> String c "" <> "0").
Proof.
  intros Hz. destruct z as [|p|p]; [|idtac|lia].
  - eexists _, _. split; [reflexivity|]. done.
  - destruct (pretty_positive_head p) as (c & rest & -> & Hc).
    apply nonzero_digit_not_sign in Hc as (? & ? & ?). by eexists _, _.
Qed.

Lemma zfill_nonneg (z w : Z) :
  (0 <= z)%Z ->
  zfill (pretty z) w
  = zeros (Z.to_nat (w - Z.of_nat (String.length (pretty z)))) +:+ pretty z.
Proof.
  intros Hz. destruct (pretty_nonneg_head z Hz) as (c & rest & E & H1 & H2 & _).
  unfold zfill. rewrite E. by rewrite decide_False by (by intros [?|?]).
Qed.

Lemma zfill_neg (p : positive) (w : Z) :
  zfill (pretty (Z.neg p)) w
  = "-" +:+ zeros (Z.to_nat (w - 1 - Z.of_nat (String.length (pretty (Z.pos p)))))
        +:+ pretty (Z.pos p).
Proof.
  change (pretty (Z.neg p)) with ("-" +:+ pretty (Z.pos p)).
  change ("-" +:+ pretty (Z.pos p)) with (String (Ascii.ascii_of_nat 45) (pretty (Z.pos p))).
  unfold zfill. rewrite decide_True by (by right).
  cbn [String.length]. do 4 f_equal. lia.
Qed.

Lemma strip_zeros_pretty (z : Z) :
  (0 <= z)%Z -> strip_zeros (pretty z) = if decide (z = 0%Z) then "" else pretty z.
Proof.
  intros Hz. destruct (decide (z = 0%Z)) as [->|Hne]; [done|].
  destruct (pretty_nonneg_head z Hz) as (c & rest & E & _ & _ & H0).
  rewrite E. cbn [strip_zeros]. by rewrite decide_False by auto.
Qed.

Lemma padded_nonneg_inj (n1 n2 : nat) (z1 z2 : Z) :
  (0 <= z1)%Z -> (0 <= z2)%Z ->
  zeros n1 +:+ pretty z1 = zeros n2 +:+ pretty z2 -> z1 = z2.
Proof.
  intros H1 H2 E. apply (f_equal strip_zeros) in E.
  rewrite !strip_zeros_fill, !strip_zeros_pretty in E by done.
  destruct (decide (z1 = 0%Z)) as [->|N1], (decide (z2 = 0%Z)) as [->|N2]; try done.
  - destruct (pretty_nonneg_head z2 H2) as (c & rest & E2 & _). by rewrite E2 in E.
  - destruct (pretty_nonneg_head z1 H1) as (c & rest & E1 & _). by rewrite E1 in E.
  - by apply (inj pretty).
Qed.

Lemma padded_nonneg_head (n : nat) (z : Z) (rest : string) :
  (0 <= z)%Z -> zeros n +:+ pretty z <> "-" +:+ rest.
Proof.
  intros Hz. destruct n as [|n]; [|done].
  destruct (pretty_nonneg_head z Hz) as (c & r & E & H1 & _).
  change (zeros 0 +:+ pretty z) with (pretty z). rewrite E.
  intros [= -> _]. done.
Qed.

Lemma zfill_pretty_inj (w z1 z2 : Z) :
  zfill (pretty z1) w = zfill (pretty z2) w -> z1 = z2.
Proof.
  destruct z1 as [|p1|p1], z2 as [|p2|p2];
    rewrite ?zfill_neg, ?(zfill_nonneg 0), ?(zfill_nonneg (Z.pos _)) by lia;
    intros E; try done.
  - by apply padded_nonneg_inj in E.
  - by apply padded_nonneg_head in E.
  - by apply padded_nonneg_inj in E.
  - by apply padded_nonneg_inj in E.
  - by apply padded_nonneg_head in E.
  - symmetry in E. by apply padded_nonneg_head in E.
  - symmetry in E. by apply padded_nonneg_head in E.
  - injection E as E. apply padded_nonneg_inj in E; [|lia..]. by injection E as ->.
Qed.

(** X16. [num_range] makes one name per number, each starting with the
    prefix; [width=0] is no width; a non-negative number is padded to
    exactly [width] characters when it is shorter and left whole when it is
    longer; distinct numbers give distinct names. *)
Theorem num_range_names (prefix : string) (range : list Z) (width : option Z) :
  length (num_range prefix range width) = length range
  /\ Forall (fun name => exists rest, name = prefix +:+ rest)
            (num_range prefix range width)
  /\ num_range prefix range (Some 0%Z) = num_range prefix range None
  /\ (forall w i elem name,
        width = Some w -> w <> 0%Z -> (0 <= elem)%Z ->
        range !! i = Some elem ->
        num_range prefix range width !! i = Some name ->
        String.length name
        = String.length prefix + Nat.max (Z.to_nat w) (String.length (py_str elem)))
  /\ (NoDup range -> NoDup (num_range prefix range width)).
Proof.
  unfold num_range. split; [by rewrite length_map|]. split; [|split; [done|split]].
  - apply Forall_forall. intros name Hn. change (map ?f ?l) with (f <$> l) in Hn.
    apply list_elem_of_fmap in Hn as (elem & -> & _). by eexists.
  - intros w i elem name -> Hw Hz Hi. change (map ?f ?l) with (f <$> l).
    rewrite list_lookup_fmap, Hi. simpl. intros [= <-].
    rewrite decide_False by done. unfold py_str.
    rewrite zfill_nonneg, !string_length_app, zeros_length by done. lia.
  - intros Hnd. change (map ?f ?l) with (f <$> l). apply NoDup_fmap_2; [|done].
    intros z1 z2 E. apply (inj (String.app prefix)) in E.
    destruct width as [w|]; [destruct (decide (w = 0%Z))|].
    + by apply (inj pretty).
    + by apply zfill_pretty_inj in E.
    + by apply (inj pretty).
Qed.

Lemma py_index_from_end {A} (l : list A) (k : Z) :
  (0 <= k < Z.of_nat (length l))%Z ->
  py_index l (- (k + 1)) = reverse l !! Z.to_nat k.
Proof.
  intros Hk. unfold py_index. cbv zeta.
  destruct (decide (- (k + 1) < 0)%Z) as [_|?]; [|lia].
  destruct (decide _) as [_|?]; [|lia].
  rewrite reverse_lookup by lia. f_equal. lia.
Qed.

(** X17. [last_col]: offsets [0 .. n-1] count columns from the end
    ([0] is the last), an offset of [n] or more raises [IndexError], and a
    negative offset counts from the front ([-1] is the first column). *)
Theorem last_col_counts_from_the_end (_data : DataFrame) (offset : Z)
    (vars : option (list label)) :
  let names := vars_or vars (columns _data) in
  let n := Z.of_nat (length names) in
  ((0 <= offset < n)%Z ->
   last_col _data offset vars = reverse names !! Z.to_nat offset
   /\ is_Some (last_col _data offset vars))
  /\ (offset = 0%Z -> last_col _data offset vars = last names)
  /\ ((n <= offset)%Z -> last_col _data offset vars = None)
  /\ ((offset < 0)%Z -> last_col _data offset vars = names !! Z.to_nat (- offset - 1))
  /\ (offset = (-1)%Z -> last_col _data offset vars = head names).
Proof.
  intros names n. unfold last_col. fold names. subst n.
  split; [|split; [|split; [|split]]].
  - intros Hk. rewrite py_index_from_end by done. split; [done|].
    apply lookup_lt_is_Some. rewrite length_reverse. lia.
  - intros ->. destruct (decide (Z.of_nat (length names) = 0%Z)) as [Hn|Hn].
    + assert (names = []) as -> by (apply nil_length_inv; lia). done.
    + rewrite py_index_from_end by lia. rewrite <- head_lookup. apply head_reverse.
  - intros Hk. unfold py_index. cbv zeta.
    destruct (decide (- (offset + 1) < 0)%Z) as [_|?]; [|lia].
    by rewrite decide_False by lia.
  - intros Hk. unfold py_index. cbv zeta.
    destruct (decide (- (offset + 1) < 0)%Z) as [?|_]; [lia|].
    rewrite decide_True by lia. f_equal. lia.
  - intros ->. unfold py_index. cbv zeta. simpl. by rewrite head_lookup.
Qed.

End num_range_props.

Section matcher_composition.
Import Pandas Funcs.
Context {Data : Type} (arithmetize : Data -> DataFrame).

(** X18. What [any_of] selects always passes [all_of] unchanged and is a
    fixed point of [any_of]; it is the whole request when [all_of] accepts the
    request. With [vars] given and not empty the columns of the data are not
    consulted. *)
Theorem any_of_result_passes_all_of (_data : Data) (x : list label) :
  exists sel,
    any_of arithmetize _data x None = Ok sel
    /\ sublist sel x
    /\ all_of arithmetize _data sel = Ok sel
    /\ any_of arithmetize _data sel None = Ok sel
    /\ (all_of arithmetize _data x = Ok x -> sel = x)
    /\ (forall v vs, any_of arithmetize _data x (Some (v :: vs))
                     = Ok (filter (fun elem => elem ∈ v :: vs) x))
    /\ any_of arithmetize _data x (Some []) = any_of arithmetize _data x None.
Proof.
  set (cols := columns (arithmetize _data)).
  exists (filter (fun elem => elem ∈ cols) x).
  assert (Hall : Forall (fun elem => elem ∈ cols) (filter (fun elem => elem ∈ cols) x)).
  { apply Forall_forall. by intros e [He _]%list_elem_of_filter. }
  split; [reflexivity|]. split; [apply sublist_filter|].
  split; [|split; [|split; [|split]]].
  - unfold all_of. fold cols.
    rewrite decide_True; [done|]. apply all_of_nonexists_empty. exact Hall.
  - unfold any_of, vars_or. fold cols. f_equal.
    rewrite list_filter_filter. apply list_filter_iff. tauto.
  - unfold all_of. fold cols. destruct (decide _) as [He|]; [|done]. intros _.
    apply all_of_nonexists_empty in He. clear Hall.
    induction He as [|e l He _ IH]; [done|].
    rewrite filter_cons_True by done. by f_equal.
  - reflexivity.
  - reflexivity.
Qed.

End matcher_composition.

Section funcs_witnesses.
Import Pandas Funcs.

(** [num_range("x", [7, 123, -1], 3)] *)
Lemma num_range_names_example :
  String.length "x007" = 1 + Nat.max 3 1
  /\ NoDup (num_range "x" [7; 123; -1]%Z (Some 3%Z)).
Proof.
  destruct (num_range_names "x" [7; 123; -1]%Z (Some 3%Z)) as (_ & _ & _ & Hlen & Hnd).
  split.
  - apply (Hlen 3%Z 0 7%Z "x007"%string); try reflexivity; lia.
  - apply Hnd. by apply (bool_decide_unpack _).
Defined.

(** [last_col] on the two columns [a], [b]. *)
Lemma last_col_counts_from_the_end_example :
  last_col Examples.left_table 1 None = Some (LStr "a")
  /\ last_col Examples.left_table 2 None = None
  /\ last_col Examples.left_table (-1) None = Some (LStr "a").
Proof.
  split; [|split].
  - destruct (last_col_counts_from_the_end Examples.left_table 1 None) as [H _].
    destruct H as [-> _]; [cbn; lia | reflexivity].
  - destruct (last_col_counts_from_the_end Examples.left_table 2 None) as (_ & _ & H & _).
    apply H. cbn. lia.
  - destruct (last_col_counts_from_the_end Examples.left_table (-1) None)
      as (_ & _ & _ & _ & H).
    rewrite H; reflexivity.
Defined.

(** [any_of] of [[b, z]] on the columns [a], [b]. *)
Lemma any_of_result_passes_all_of_example :
  exists sel,
    any_of id Examples.left_table [LStr "b"; LStr "z"] None = Ok sel
    /\ sublist sel [LStr "b"; LStr "z"]
    /\ all_of id Examples.left_table sel = Ok sel.
Proof.
  destruct (any_of_result_passes_all_of id Examples.left_table [LStr "b"; LStr "z"])
    as (sel & Hsel & Hsub & Hall & _).
  by exists sel.
Defined.

End funcs_witnesses.

Section as_date_props.
Import Funcs.
Context {datetime timedelta date : Type}.
Context (strptime : string -> string -> option datetime).
Context (add_offset : datetime -> timedelta -> option datetime).
Context (date_of : datetime -> date).

Lemma try_each_first_match x offset optional pre fmt post dt :
  Forall (fun f => strptime x f = None) pre -> strptime x fmt = Some dt ->
  try_each strptime add_offset date_of x offset optional (pre ++ fmt :: post)
  = match add_offset dt offset with
    | Some shifted => ReturnDate (date_of shifted)
    | None => RaiseOverflowError
    end.
Proof.
  intros Hpre Hfmt. induction Hpre as [|f pre Hf _ IH]; simpl.
  - by rewrite Hfmt.
  - by rewrite Hf.
Qed.

Lemma try_each_no_match x offset optional format :
  Forall (fun f => strptime x f = None) format ->
  try_each strptime add_offset date_of x offset optional format
  = if optional then ReturnNaN else RaiseValueError.
Proof. induction 1 as [|f l Hf _ IH]; simpl; [done|]. by rewrite Hf. Qed.

(** X19. [_as_date_format]: a given format is the only one tried; without
    one the formats to try (the four defaults when none is listed) are tried
    in order and the first that parses decides; when none parses the result
    is NaN under [optional] and [ValueError] otherwise. *)
Theorem as_date_format_first_match (x : string) (try_formats : option (list string))
    (optional : bool) (offset : timedelta) :
  let run := _as_date_format strptime add_offset date_of x in
  (forall f, f <> ""%string ->
     run (Some f) try_formats optional offset
     = match strptime x f with
       | Some dt =>
           match add_offset dt offset with
           | Some shifted => ReturnDate (date_of shifted)
           | None => RaiseOverflowError
           end
       | None => if optional then ReturnNaN else RaiseValueError
       end)
  /\ (forall pre fmt post dt,
        formats_or_default try_formats = pre ++ fmt :: post ->
        Forall (fun f => strptime x f = None) pre -> strptime x fmt = Some dt ->
        run None try_formats optional offset
        = match add_offset dt offset with
          | Some shifted => ReturnDate (date_of shifted)
          | None => RaiseOverflowError
          end)
  /\ (Forall (fun f => strptime x f = None) (formats_or_default try_formats) ->
      run None try_formats optional offset
      = if optional then ReturnNaN else RaiseValueError)
  /\ run (Some ""%string) try_formats optional offset
     = run None try_formats optional offset
  /\ (try_formats = None \/ try_formats = Some [] ->
      run None try_formats optional offset
      = run None (Some default_try_formats) optional offset)
  /\ (optional = false -> forall format, run format try_formats optional offset <> ReturnNaN).
Proof.
  intros run. subst run. unfold _as_date_format.
  split; [|split; [|split; [|split; [|split]]]].
  - intros f Hf. rewrite decide_False by done. simpl. by destruct (strptime x f).
  - intros pre fmt post dt -> Hpre Hfmt. by apply try_each_first_match.
  - apply try_each_no_match.
  - by rewrite decide_True.
  - by intros [-> | ->].
  - intros -> format.
    generalize (match format with
                | Some f => if decide (f = ""%string)
                            then formats_or_default try_formats else [f]
                | None => formats_or_default try_formats
                end).
    intros l. induction l as [|f l IH]; simpl; [done|].
    destruct (strptime x f); [|done]. by destruct (add_offset _ _).
Qed.

End as_date_props.

Section as_date_witness.
Import Funcs.

(** With a parser that accepts the second default format only. *)
Lemma as_date_format_first_match_example :
  _as_date_format
    (fun _ fmt : string => if decide (fmt = "%Y/%m/%d"%string) then Some 5 else None)
    (fun dt offset : nat => Some (dt + offset)) (fun dt : nat => dt)
    "2020/01/02" None None false 1
  = ReturnDate 6
  /\ _as_date_format
       (fun _ fmt : string => if decide (fmt = "%Y/%m/%d"%string) then Some 5 else None)
       (fun dt offset : nat => Some (dt + offset)) (fun dt : nat => dt)
       "2020/01/02" None (Some ["%d.%m.%Y"%string]) false 1
     = RaiseValueError.
Proof.
  split.
  - destruct (as_date_format_first_match
                (fun _ fmt : string =>
                   if decide (fmt = "%Y/%m/%d"%string) then Some 5 else None)
                (fun dt offset : nat => Some (dt + offset)) (fun dt : nat => dt)
                "2020/01/02" None false 1) as (_ & Hfirst & _).
    apply (Hfirst ["%Y-%m-%d"%string] "%Y/%m/%d"%string
             ["%Y-%m-%d %H:%M:%S"; "%Y/%m/%d %H:%M:%S"]%string 5);
      [reflexivity | by repeat constructor | reflexivity].
  - destruct (as_date_format_first_match
                (fun _ fmt : string =>
                   if decide (fmt = "%Y/%m/%d"%string) then Some 5 else None)
                (fun dt offset : nat => Some (dt + offset)) (fun dt : nat => dt)
                "2020/01/02" (Some ["%d.%m.%Y"%string]) false 1) as (_ & _ & Hnone & _).
    apply Hnone. by repeat constructor.
Defined.

End as_date_witness.

Section testing_props.
Import Testing.

Lemma testing_mono (s1 s2 : scalar_class -> bool) (d1 d2 : dtype_kind -> bool) x :
  (forall c, s1 c = true -> s2 c = true) ->
  (forall d, d1 d = true -> d2 d = true) ->
  _testing s1 d1 x = true -> _testing s2 d2 x = true.
Proof.
  intros Hs Hd. destruct x as [c|d|elems]; simpl; [apply Hs|apply Hd|].
  rewrite !forallb_forall. intros H [c|] Hin; specialize (H _ Hin); [by apply Hs|done].
Qed.

(** X20. The type tests nest: what [is_integer] or [is_double] accepts,
    [is_numeric] accepts; only the empty iterable passes both [is_integer]
    and [is_double] (it passes every test). *)
Theorem type_tests_nest (x : tested) :
  (is_integer x = true -> is_numeric x = true)
  /\ (is_double x = true -> is_numeric x = true)
  /\ (is_integer x = true -> is_double x = true -> x = Iterable [])
  /\ (is_numeric (Iterable []) = true /\ is_integer (Iterable []) = true
      /\ is_double (Iterable []) = true)
  /\ (forall elems, is_numeric (Iterable elems) = true ->
        Forall (fun elem => exists c, elem = Some c /\ instance_numeric c = true) elems).
Proof.
  split; [|split; [|split; [|split; [done|]]]].
  - apply testing_mono; [by intros []|by intros []].
  - apply testing_mono; [by intros []|by intros []].
  - destruct x as [c|d|[|[c|] elems]]; simpl; try done.
    + by destruct c.
    + by destruct d.
    + by destruct c.
  - intros elems H. unfold is_numeric in H. simpl in H.
    rewrite forallb_forall in H. apply Forall_forall. intros [c|] Hin%list_elem_of_In.
    + exists c. split; [done|]. by apply (H (Some c)).
    + by specialize (H None Hin).
Qed.

End testing_props.

Section testing_witnesses.
Import Testing.

(** A list of a [bool] and a numpy integer, and a float array. *)
Lemma type_tests_nest_example :
  is_numeric (Iterable [Some PyBool; Some NpInteger]) = true
  /\ is_numeric (Array KFloat) = true.
Proof.
  split.
  - by apply (type_tests_nest (Iterable [Some PyBool; Some NpInteger])).
  - by apply (type_tests_nest (Array KFloat)).
Defined.

End testing_witnesses.
